(** * Car Selling API: authentication, ownership and image-asset lifecycle

    A shallow embedding of [scripts/main.py] (the FastAPI application) and
    the properties of its request handlers.

    The handlers are written in a small exception / state / log monad:
    - the state is the committed database (tables [users] and [cars]) and
      the regular files on the disk, under the paths the program names
      them by;
    - Python exceptions are values of [exn], with [try_except] for
      [try: ... except ...:] blocks;
    - every effect on the database or on the file system appends the event
      and the state right after it to a log, so that the order of effects
      of one request can be read back. *)

From Stdlib Require Import ZArith Ascii Floats.PrimFloat.
From stdpp Require Import base option list strings gmap fin_maps.

#[local] Open Scope Z_scope.
#[local] Open Scope string_scope.

(** ** Python strings *)

Module PyStr.

(** [s.startswith(p)] *)
Definition startswith (s p : string) : bool := String.prefix p s.


(** [c.lower()] for an ASCII character: A-Z go to a-z, the others stay. *)
Definition lower_ascii (c : ascii) : ascii :=
  let n := nat_of_ascii c in
  if (Nat.leb 65 n && Nat.leb n 90)%bool then ascii_of_nat (n + 32) else c.

(** [s.lower()] on an ASCII string ([isascii s]).  A string is held as its
    UTF-8 bytes: on a string with a character outside ASCII, Python also
    folds the letters outside A-Z, whose bytes this function keeps, so a
    statement that gives the lowered string itself assumes [isascii]. *)
Fixpoint lower (s : string) : string :=
  match s with
  | EmptyString => EmptyString
  | String c r => String (lower_ascii c) (lower r)
  end.

(** [s.replace(old, "")] for a non-empty [old]: the occurrences of [old]
    are removed from left to right, without overlap.  [skip] counts the
    characters of the current occurrence still to be dropped. *)
Fixpoint remove_from (old : string) (skip : nat) (s : string) : string :=
  match s with
  | EmptyString => EmptyString
  | String c r =>
      match skip with
      | S k => remove_from old k r
      | O =>
          if String.prefix old s
          then remove_from old (Nat.pred (String.length old)) r
          else String c (remove_from old O r)
      end
  end.

Definition remove_all (old s : string) : string := remove_from old O s.

(** [s.rfind(".")]: index of the last dot, if any. *)
Fixpoint rfind_dot (s : string) : option nat :=
  match s with
  | EmptyString => None
  | String c r =>
      match rfind_dot r with
      | Some i => Some (S i)
      | None => if Ascii.eqb c "."%char then Some O else None
      end
  end.

(** Split at the separator character. *)
Fixpoint split_on (sep : ascii) (s : string) : list string :=
  match s with
  | EmptyString => [EmptyString]
  | String c r =>
      if Ascii.eqb c sep then EmptyString :: split_on sep r
      else match split_on sep r with
           | [] => [String c EmptyString]
           | w :: ws => String c w :: ws
           end
  end.

Fixpoint drop (n : nat) (s : string) : string :=
  match n, s with
  | O, _ => s
  | S k, EmptyString => EmptyString
  | S k, String _ r => drop k r
  end.

End PyStr.

(** ** pathlib *)

Module Path.

(** The components [PurePosixPath(p)] keeps: the path is split at the
    slashes, and empty and ["."] components are dropped; [".."] stays. *)
Definition parts (p : string) : list string :=
  filter (fun w => w ≠ "" ∧ w ≠ ".") (PyStr.split_on "/"%char p).

(** [PurePosixPath(p).root]: ["/"] for an absolute path, ["//"] when it
    starts with exactly two slashes, empty for a relative path. *)
Definition root (p : string) : string :=
  if PyStr.startswith p "///" then "/"
  else if PyStr.startswith p "//" then "//"
  else if PyStr.startswith p "/" then "/"
  else "".

(** [PurePosixPath(p).name]: the last component. *)
Definition name (p : string) : string := List.last (parts p) "".

(** [str(PurePosixPath(base) / p)] for a relative [base]: an absolute [p]
    replaces [base]; the components are joined by single slashes, and a
    path without root and components is written ["."]. *)
Definition join (base p : string) : string :=
  if PyStr.startswith p "/"
  then root p +:+ String.concat "/" (parts p)
  else match (parts base ++ parts p)%list with
       | [] => "."
       | ps => String.concat "/" ps
       end.

(** [PurePosixPath(p).suffix]:
    [i = name.rfind('.')]; [name[i:]] if [0 < i < len(name) - 1], else
    the empty string. *)
Definition suffix (p : string) : string :=
  let n := name p in
  match PyStr.rfind_dot n with
  | Some i =>
      if (Nat.ltb 0 i && Nat.ltb (S i) (String.length n))%bool
      then PyStr.drop i n else ""
  | None => ""
  end.

End Path.

(** ** Tables, request and response models *)

(** Row of table [users].  [register] is the only writer and always
    supplies the four columns. *)
Record UserDB := {
  user_id : string;
  username : string;
  email : string;
  hashed_password : string;
  user_created_at : Z
}.

(** Row of table [cars].  Only the primary key is declared non-null: every
    other column is nullable, and [update_car] can write [None] to it. *)
Record CarDB := {
  id : string;
  make : option string;
  model : option string;
  year : option Z;
  price : option float;
  mileage : option Z;
  description : option string;
  color : option string;
  fuel_type : option string;
  transmission : option string;
  image : option string;
  seller_id : option string;
  created_at : option Z;
  is_sold : option bool
}.

(** The body of [POST /register].  [email] is declared [EmailStr]: the
    handler receives the address as the validator normalised it, see
    [UserCreate_validate]. *)
Record UserCreate := {
  uc_username : string;
  uc_email : string;
  uc_password : string;
  uc_confirmed_password : string
}.

Record UserLogin := { ul_email : string; ul_password : string }.

Record User := {
  u_id : string;
  u_username : string;
  u_email : string;
  u_created_at : Z
}.

Record CarCreate := {
  cc_make : string;
  cc_model : string;
  cc_year : Z;
  cc_price : float;
  cc_mileage : Z;
  cc_description : option string;
  cc_color : string;
  cc_fuel_type : string;
  cc_transmission : string;
  cc_image : string
}.

(** Response model [Car]: every field but [description] is required. *)
Record Car := {
  car_id : string;
  car_make : string;
  car_model : string;
  car_year : Z;
  car_price : float;
  car_mileage : Z;
  car_description : option string;
  car_color : string;
  car_fuel_type : string;
  car_transmission : string;
  car_seller_id : string;
  car_created_at : Z;
  car_image : string;
  car_is_sold : bool
}.

(** A field of a pydantic model whose fields all default to [None]: either
    absent from the request body ([Unset], dropped by
    [dict(exclude_unset=True)]), or present, possibly as JSON [null]. *)
Inductive Field (A : Type) :=
| Unset
| Given (v : option A).
Arguments Unset {A}.
Arguments Given {A} v.

Record CarUpdate := {
  cu_make : Field string;
  cu_model : Field string;
  cu_year : Field Z;
  cu_price : Field float;
  cu_mileage : Field Z;
  cu_description : Field string;
  cu_color : Field string;
  cu_fuel_type : Field string;
  cu_transmission : Field string;
  cu_image : Field string;
  cu_is_sold : Field bool
}.

Record UploadFile := {
  filename : string;
  content_type : option string;
  contents : list Byte.byte
}.

Record UploadResponse := {
  ur_filename : string;
  ur_url : string;
  ur_message : string
}.

(** ** JSON web tokens

    The claim set of the tokens of this application.  The [jwt] library is
    not part of the repository: a token is modelled symbolically, as its
    header algorithm, the key it was signed with and its payload; the
    signature verifies exactly under the signing key. *)
Record Claims := {
  sub : option string;
  type : option string;
  exp : option Z
}.

Inductive Jwt :=
| Malformed (raw : string)
| Signed (alg : string) (key : string) (payload : Claims).

Record Token := {
  access_token : Jwt;
  refresh_token_ : Jwt;
  token_type : string
}.

Record TokenRefresh := { tr_refresh_token : Jwt }.

(** ** Exceptions

    [RequestValidationError] is raised by the framework for a body the
    request model refuses, before the handler runs.  [Exception what] is
    any other exception, [what] being its text; for an exception of a
    library or of the operating system, the text is the name of its
    class. *)

Inductive exn :=
| HTTPException (status_code : Z) (detail : string)
    (headers : list (string * string))
| RequestValidationError (what : string)
| ExpiredSignatureError
| PyJWTError (what : string)
| Exception (what : string).

Inductive outcome (A : Type) :=
| Return (a : A)
| Raise (e : exn).
Arguments Return {A} a.
Arguments Raise {A} e.

(** The status the framework answers with: a request body the model
    refuses is a 422, and any other exception that is not an
    [HTTPException] and reaches the framework becomes a 500. *)
Definition http_status {A} (r : outcome A) : Z :=
  match r with
  | Return _ => 200
  | Raise (HTTPException s _ _) => s
  | Raise (RequestValidationError _) => 422
  | Raise _ => 500
  end.

(** ** State, environment and log *)

(** [files] holds the regular files, each under the path string the
    program opens, tests or unlinks it by; different path strings are
    taken to name different files (no links, and no detour through
    [".."]). *)
Record World := {
  users : list UserDB;
  cars : gmap string CarDB;
  files : gmap string (list Byte.byte)
}.

(** How [with open(path, "wb") as buffer: buffer.write(data)] fails:
    [open] raises and nothing is created (the path is a directory, its
    parent is missing, permission is denied), or [open] has created or
    truncated the file and the write or the close then raises, with the
    first [written] bytes of the payload on the disk. *)
Inductive WriteError :=
| OpenFails (msg : string)
| WriteFails (msg : string) (written : nat).

(** What a request reads from outside the program: the process
    environment, the libraries that are not part of the repository
    (password hashing, the validator behind [EmailStr]: the normalised
    address, or [None] for an address it refuses), the clock in whole
    seconds, the random UUIDs (the n-th call of [uuid.uuid4()] within the
    request), the directories of the machine, which no handler creates or
    removes, and whether the database or the file system fails at the next
    commit, write or unlink (with the text of the error). *)
Record Env := {
  SECRET_KEY : string;
  get_password_hash : string -> string;
  verify_password : string -> string -> bool;
  email_validator : string -> option string;
  utcnow : Z;
  uuid4 : nat -> string;
  isdir : string -> bool;
  commit_error : option string;
  write_error : option WriteError;
  unlink_error : option string
}.

Inductive Event :=
| UserInserted (u : UserDB)
| CarInserted (c : CarDB)
| CarUpdated (c : CarDB)
| CarDeleted (car : string)
| FileWritten (path : string)
| FileUnlinked (path : string).

Definition Log := list (Event * World).

Definition M (A : Type) : Type := Env -> World -> outcome A * World * Log.

Definition ret {A} (a : A) : M A := fun _ w => (Return a, w, []).

Definition bind {A B} (m : M A) (f : A -> M B) : M B :=
  fun env w =>
    match m env w with
    | (Return a, w1, l1) =>
        let '(r, w2, l2) := f a env w1 in (r, w2, (l1 ++ l2)%list)
    | (Raise e, w1, l1) => (Raise e, w1, l1)
    end.

Definition raise {A} (e : exn) : M A := fun _ w => (Raise e, w, []).

(** [try: body except ...: handler]; a handler re-raises what it does not
    catch. *)
Definition try_except {A} (body : M A) (handler : exn -> M A) : M A :=
  fun env w =>
    match body env w with
    | (Raise e, w1, l1) =>
        let '(r, w2, l2) := handler e env w1 in (r, w2, (l1 ++ l2)%list)
    | done => done
    end.

Definition ask : M Env := fun env w => (Return env, w, []).
Definition get : M World := fun _ w => (Return w, w, []).

(** One effect: the new state, logged together with its event. *)
Definition effect (ev : Event) (w' : World) : M unit :=
  fun _ _ => (Return tt, w', [(ev, w')]).

#[global] Instance M_ret : MRet M := @ret.
#[global] Instance M_bind : MBind M := fun A B f m => bind m f.

Definition when_ (b : bool) (m : M unit) : M unit :=
  if b then m else ret tt.

(** ** The database session

    A handler works on the rows it has loaded; the committed tables change
    at [db.commit()] only, and a request that raises before its commit
    leaves them as they were. *)

Definition set_users (us : list UserDB) (w : World) : World :=
  {| users := us; cars := cars w; files := files w |}.

Definition set_cars (cs : gmap string CarDB) (w : World) : World :=
  {| users := users w; cars := cs; files := files w |}.

Definition set_files (fs : gmap string (list Byte.byte)) (w : World) : World :=
  {| users := users w; cars := cars w; files := fs |}.

(** [db.query(UserDB).filter(UserDB.email == e).first()] *)
Definition query_user_by_email (e : string) : M (option UserDB) :=
  w ← get;
  mret (List.find (fun u => String.eqb (email u) e) (users w)).

(** [db.query(CarDB).filter(CarDB.id == car_id).first()] *)
Definition query_car_by_id (car_id : string) : M (option CarDB) :=
  w ← get;
  mret (cars w !! car_id).

(** [db.commit()]: the pending change [ev] reaches the tables, unless the
    database fails. *)
Definition db_commit (ev : Event) (w' : World) : M unit :=
  env ← ask;
  match commit_error env with
  | Some msg => raise (Exception msg)
  | None => effect ev w'
  end.

(** Primary key [id], unique [username], unique [email]. *)
Definition violates_unique (u : UserDB) (us : list UserDB) : bool :=
  existsb (fun v => String.eqb (user_id v) (user_id u)
                    || String.eqb (username v) (username u)
                    || String.eqb (email v) (email u)) us.

(** [db.add(db_user); db.commit(); db.refresh(db_user)]; [created_at] is
    filled by the server default. *)
Definition add_user (u : UserDB) : M UserDB :=
  env ← ask;
  w ← get;
  let row := {| user_id := user_id u; username := username u;
                email := email u; hashed_password := hashed_password u;
                user_created_at := utcnow env |} in
  if violates_unique row (users w)
  then raise (Exception "IntegrityError")
  else db_commit (UserInserted row) (set_users (users w ++ [row])%list w);;
       mret row.

(** [db.add(db_car); db.commit(); db.refresh(db_car)]; the columns
    [created_at] and [is_sold], not given by the handlers, take their
    defaults [now()] and [False]. *)
Definition add_car (c : CarDB) : M CarDB :=
  env ← ask;
  w ← get;
  let row :=
    {| id := id c; make := make c; model := model c; year := year c;
       price := price c; mileage := mileage c;
       description := description c; color := color c;
       fuel_type := fuel_type c; transmission := transmission c;
       image := image c; seller_id := seller_id c;
       created_at := match created_at c with
                     | None => Some (utcnow env)
                     | at_ => at_
                     end;
       is_sold := match is_sold c with
                  | None => Some false
                  | sold => sold
                  end |} in
  match cars w !! id c with
  | Some _ => raise (Exception "IntegrityError")
  | None =>
      db_commit (CarInserted row) (set_cars (<[id c := row]> (cars w)) w);;
      mret row
  end.

(** [db.commit(); db.refresh(car)] after [setattr]s on a loaded row. *)
Definition commit_car (c : CarDB) : M CarDB :=
  w ← get;
  db_commit (CarUpdated c) (set_cars (<[id c := c]> (cars w)) w);;
  mret c.

(** [db.delete(car); db.commit()] *)
Definition delete_row (c : CarDB) : M unit :=
  w ← get;
  db_commit (CarDeleted (id c)) (set_cars (delete (id c) (cars w)) w).

(** ** The upload directory *)

Definition UPLOAD_DIR : string := "uploads".

(** [str(UPLOAD_DIR / name)]: an absolute [name] replaces the directory,
    and empty and ["."] components of [name] are dropped, so that
    [UPLOAD_DIR / ""] is the directory itself. *)
Definition in_upload_dir (name : string) : string :=
  Path.join UPLOAD_DIR name.

(** The path is a directory: the upload directory, made when the module
    is loaded ([UPLOAD_DIR.mkdir(exist_ok=True)]), or a directory of the
    machine. *)
Definition is_dir (env : Env) (path : string) : bool :=
  String.eqb path UPLOAD_DIR || isdir env path.

(** [with open(path, "wb") as buffer: buffer.write(data)]: [open] creates
    the file or truncates it, then the payload is written; when the write
    fails the file stays, with the bytes written so far. *)
Definition write_file (path : string) (data : list Byte.byte) : M unit :=
  env ← ask;
  w ← get;
  match write_error env with
  | Some (OpenFails msg) => raise (Exception msg)
  | Some (WriteFails msg written) =>
      effect (FileWritten path)
        (set_files (<[path := take written data]> (files w)) w);;
      raise (Exception msg)
  | None => effect (FileWritten path) (set_files (<[path := data]> (files w)) w)
  end.

(** [path.exists()]: true for a regular file and for a directory. *)
Definition path_exists (path : string) : M bool :=
  env ← ask;
  w ← get;
  mret (bool_decide (is_Some (files w !! path)) || is_dir env path).

(** [path.unlink()]: removes a regular file; a directory is refused. *)
Definition unlink (path : string) : M unit :=
  env ← ask;
  w ← get;
  match files w !! path with
  | Some _ =>
      match unlink_error env with
      | Some msg => raise (Exception msg)
      | None => effect (FileUnlinked path) (set_files (delete path (files w)) w)
      end
  | None =>
      if is_dir env path then raise (Exception "IsADirectoryError")
      else raise (Exception "FileNotFoundError")
  end.

(** [str(uuid.uuid4())], for the [n]-th call of the request. *)
Definition uuid4_str (n : nat) : M string :=
  env ← ask;
  mret (uuid4 env n).

(** [str(e)] *)
Definition str (e : exn) : string :=
  match e with
  | HTTPException s d _ => d
  | RequestValidationError what => what
  | ExpiredSignatureError => "Signature has expired"
  | PyJWTError what => what
  | Exception what => what
  end.

(** ** Tokens *)

Definition ALGORITHM : string := "HS256".
Definition ACCESS_TOKEN_EXPIRE_MINUTES : Z := 10.
Definition REFRESH_TOKEN_EXPIRE_DAYS : Z := 1.

(** [timedelta]s are counted in seconds. *)
Definition minutes (n : Z) : Z := n * 60.
Definition days (n : Z) : Z := n * 86400.

Definition jwt_encode (payload : Claims) (key alg : string) : Jwt :=
  Signed alg key payload.

(** [jwt.decode(token, key, algorithms=...)]: structure and algorithm, then
    the signature, then the expiry: the decoder refuses a token when
    [exp <= now].  [exp] is a whole number of seconds, so the test on the
    clock is the test on its whole seconds. *)
Definition jwt_decode (token : Jwt) (key : string) (algorithms : list string)
  : M Claims :=
  env ← ask;
  match token with
  | Malformed _ => raise (PyJWTError "DecodeError")
  | Signed alg k payload =>
      if negb (existsb (String.eqb alg) algorithms)
      then raise (PyJWTError "InvalidAlgorithmError")
      else if negb (String.eqb k key)
      then raise (PyJWTError "InvalidSignatureError")
      else match exp payload with
           | Some e =>
               if (e <=? utcnow env)%Z then raise ExpiredSignatureError
               else mret payload
           | None => mret payload
           end
  end.

(** [if expires_delta:] is false for [None] and for a zero [timedelta]. *)
Definition truthy_delta (d : option Z) : option Z :=
  match d with
  | Some 0 => None
  | other => other
  end.

Definition create_access_token (data : Claims) (expires_delta : option Z)
  : M Jwt :=
  env ← ask;
  let expire :=
    match truthy_delta expires_delta with
    | Some d => utcnow env + d
    | None => utcnow env + minutes 15
    end in
  let to_encode :=
    {| sub := sub data; type := Some "access"; exp := Some expire |} in
  mret (jwt_encode to_encode (SECRET_KEY env) ALGORITHM).

Definition create_refresh_token (data : Claims) (expires_delta : option Z)
  : M Jwt :=
  env ← ask;
  let expire :=
    match truthy_delta expires_delta with
    | Some d => utcnow env + d
    | None => utcnow env + days REFRESH_TOKEN_EXPIRE_DAYS
    end in
  let to_encode :=
    {| sub := sub data; type := Some "refresh"; exp := Some expire |} in
  mret (jwt_encode to_encode (SECRET_KEY env) ALGORITHM).

Definition www_authenticate : list (string * string) :=
  [("WWW-Authenticate", "Bearer")].

Definition verify_token (credentials : Jwt) : M string :=
  try_except
    (env ← ask;
     payload ← jwt_decode credentials (SECRET_KEY env) [ALGORITHM];
     let email := sub payload in
     let token_type := type payload in
     if bool_decide (token_type ≠ Some "access")
     then raise (HTTPException 401 "Invalid token type" www_authenticate)
     else match email with
          | None =>
              raise (HTTPException 401 "Could not validate credentials"
                       www_authenticate)
          | Some email => mret email
          end)
    (fun e =>
       match e with
       | ExpiredSignatureError =>
           raise (HTTPException 401 "Token expired" www_authenticate)
       | PyJWTError _ =>
           raise (HTTPException 401 "Could not validate credentials"
                    www_authenticate)
       | other => raise other
       end).

Definition get_current_user (credentials : Jwt) : M UserDB :=
  email ← verify_token credentials;
  user ← query_user_by_email email;
  match user with
  | None => raise (HTTPException 401 "User not found" [])
  | Some user => mret user
  end.

(** ** Authentication endpoints *)

(** [POST /register] *)
Definition register (user : UserCreate) : M User :=
  env ← ask;
  db_user ← query_user_by_email (uc_email user);
  if bool_decide (is_Some db_user)
  then raise (HTTPException 400 "This email has already registered" [])
  else if negb (String.eqb (uc_password user) (uc_confirmed_password user))
  then raise (HTTPException 404 "This confirmed password does not match" [])
  else
    let hashed_password := get_password_hash env (uc_password user) in
    uid ← uuid4_str 0;
    db_user ← add_user {| user_id := uid;
                          username := uc_username user;
                          email := uc_email user;
                          hashed_password := hashed_password;
                          user_created_at := 0 |};
    mret {| u_id := user_id db_user;
            u_username := username db_user;
            u_email := email db_user;
            u_created_at := user_created_at db_user |}.

(** [user: UserCreate]: the body is validated before the handler runs.
    [email: EmailStr] is checked and normalised by the validator; a body
    with an address it refuses ends the request with 422. *)
Definition UserCreate_validate (body : UserCreate) : M UserCreate :=
  env ← ask;
  match email_validator env (uc_email body) with
  | Some address =>
      mret {| uc_username := uc_username body;
              uc_email := address;
              uc_password := uc_password body;
              uc_confirmed_password := uc_confirmed_password body |}
  | None => raise (RequestValidationError "value is not a valid email address")
  end.

(** [POST /register] as the framework serves it: validation, then the
    handler. *)
Definition post_register (body : UserCreate) : M User :=
  user ← UserCreate_validate body;
  register user.

(** The credential check shared, word for word, by [login] and
    [get_access_token]:
    [if not db_user or not verify_password(user.password,
    db_user.hashed_password)]. *)
Definition bad_credentials (env : Env) (user : UserLogin)
    (db_user : option UserDB) : bool :=
  match db_user with
  | None => true
  | Some u => negb (verify_password env (ul_password user) (hashed_password u))
  end.

Definition issue_pair (subject : string) : M Token :=
  let access_token_expires := minutes ACCESS_TOKEN_EXPIRE_MINUTES in
  access_token ←
    create_access_token {| sub := Some subject; type := None; exp := None |}
      (Some access_token_expires);
  let refresh_token_expires := days REFRESH_TOKEN_EXPIRE_DAYS in
  refresh_token ←
    create_refresh_token {| sub := Some subject; type := None; exp := None |}
      (Some refresh_token_expires);
  mret {| access_token := access_token;
          refresh_token_ := refresh_token;
          token_type := "bearer" |}.

(** [POST /login] *)
Definition login (user : UserLogin) : M Token :=
  env ← ask;
  db_user ← query_user_by_email (ul_email user);
  if bad_credentials env user db_user
  then raise (HTTPException 401 "Incorrect Email or password"
                www_authenticate)
  else issue_pair (ul_email user).

(** [POST /access-token] *)
Definition get_access_token (user : UserLogin) : M Token :=
  env ← ask;
  db_user ← query_user_by_email (ul_email user);
  if bad_credentials env user db_user
  then raise (HTTPException 401 "Incorrect Email or password"
                www_authenticate)
  else issue_pair (ul_email user).

(** [POST /refresh-token] *)
Definition refresh_token (token_data : TokenRefresh) : M Token :=
  try_except
    (env ← ask;
     payload ← jwt_decode (tr_refresh_token token_data) (SECRET_KEY env)
                 [ALGORITHM];
     let email := sub payload in
     let token_type := type payload in
     if bool_decide (token_type ≠ Some "refresh")
     then raise (HTTPException 401 "Invalid token type" www_authenticate)
     else match email with
          | None =>
              raise (HTTPException 401 "Could not validate credentials"
                       www_authenticate)
          | Some email =>
              user ← query_user_by_email email;
              match user with
              | None => raise (HTTPException 401 "User not found" [])
              | Some _ => issue_pair email
              end
          end)
    (fun e =>
       match e with
       | ExpiredSignatureError =>
           raise (HTTPException 401 "Refresh token expired" www_authenticate)
       | PyJWTError _ =>
           raise (HTTPException 401 "Could not validate refresh token"
                    www_authenticate)
       | other => raise other
       end).

(** ** Car endpoints *)

(** [Car(id=db_car.id, make=db_car.make, ...)]: the response model refuses
    [None] for a required field. *)
Definition validate_Car (c : CarDB) : option Car :=
  mk ← make c; md ← model c; yr ← year c; pr ← price c; mi ← mileage c;
  co ← color c; fu ← fuel_type c; tr ← transmission c; im ← image c;
  se ← seller_id c; at_ ← created_at c; so ← is_sold c;
  Some {| car_id := id c; car_make := mk; car_model := md; car_year := yr;
          car_price := pr; car_mileage := mi;
          car_description := description c; car_color := co;
          car_fuel_type := fu; car_transmission := tr;
          car_seller_id := se; car_created_at := at_; car_image := im;
          car_is_sold := so |}.

Definition Car_of (c : CarDB) : M Car :=
  match validate_Car c with
  | Some r => mret r
  | None => raise (Exception "ValidationError")
  end.

(** [POST /cars] *)
Definition create_car (car : CarCreate) (current_user : UserDB) : M Car :=
  car_id ← uuid4_str 0;
  db_car ← add_car {| id := car_id;
                      make := Some (cc_make car);
                      model := Some (cc_model car);
                      year := Some (cc_year car);
                      price := Some (cc_price car);
                      mileage := Some (cc_mileage car);
                      description := cc_description car;
                      color := Some (cc_color car);
                      fuel_type := Some (cc_fuel_type car);
                      transmission := Some (cc_transmission car);
                      image := Some (cc_image car);
                      seller_id := Some (user_id current_user);
                      created_at := None;
                      is_sold := None |};
  Car_of db_car.

(** *** Image validation and naming

    The three upload handlers repeat the same lines. *)

Definition allowed_types : list string :=
  ["image/jpeg"; "image/jpg"; "image/png"; "image/webp"].

Definition max_size : Z := 5 * 1024 * 1024.

(** [file.content_type not in allowed_types] *)
Definition type_refused (file : UploadFile) : bool :=
  match content_type file with
  | Some t => negb (existsb (String.eqb t) allowed_types)
  | None => true
  end.

(** [len(contents) > max_size] *)
Definition too_large (data : list Byte.byte) : bool :=
  Z.of_nat (length data) >? max_size.

(** [file_extension = Path(file.filename).suffix.lower()], [".jpg"] when
    empty. *)
Definition file_extension (file : UploadFile) : string :=
  let ext := PyStr.lower (Path.suffix (filename file)) in
  if bool_decide (ext = "") then ".jpg" else ext.

Definition invalid_file_type {A} : M A :=
  raise (HTTPException 400
    "Invalid file type. Only JPEG, PNG, and WebP images are allowed." []).

Definition file_too_large {A} : M A :=
  raise (HTTPException 400 "File too large. Maximum size is 5MB." []).

(** The form fields of [POST /cars/upload]. *)
Record CarForm := {
  cf_make : string;
  cf_model : string;
  cf_year : Z;
  cf_price : float;
  cf_mileage : Z;
  cf_color : string;
  cf_fuel_type : string;
  cf_transmission : string;
  cf_description : option string
}.

(** [POST /cars/upload] *)
Definition upload_car_with_image (form : CarForm) (file : UploadFile)
    (current_user : UserDB) : M Car :=
  if type_refused file then invalid_file_type
  else
    let contents := contents file in
    if too_large contents then file_too_large
    else
      let file_extension := file_extension file in
      u ← uuid4_str 0;
      let unique_filename := u +:+ file_extension in
      let file_path := in_upload_dir unique_filename in
      try_except
        (write_file file_path contents;;
         let image_url := "/uploads/" +:+ unique_filename in
         car_id ← uuid4_str 1;
         db_car ← add_car {| id := car_id;
                             make := Some (cf_make form);
                             model := Some (cf_model form);
                             year := Some (cf_year form);
                             price := Some (cf_price form);
                             mileage := Some (cf_mileage form);
                             description := cf_description form;
                             color := Some (cf_color form);
                             fuel_type := Some (cf_fuel_type form);
                             transmission := Some (cf_transmission form);
                             image := Some image_url;
                             seller_id := Some (user_id current_user);
                             created_at := None;
                             is_sold := None |};
         Car_of db_car)
        (fun e =>
           ex ← path_exists file_path;
           when_ ex (unlink file_path);;
           raise (HTTPException 500 ("Failed to create car: " +:+ str e) [])).

(** *** Updates

    One [setattr(car, field, value)] of the update loops. *)
Inductive Assignment :=
| set_make (v : option string)
| set_model (v : option string)
| set_year (v : option Z)
| set_price (v : option float)
| set_mileage (v : option Z)
| set_description (v : option string)
| set_color (v : option string)
| set_fuel_type (v : option string)
| set_transmission (v : option string)
| set_image (v : option string)
| set_is_sold (v : option bool).

Definition setattr (c : CarDB) (a : Assignment) : CarDB :=
  let 'Build_CarDB i mk md yr pr mi de co fu tr im se at_ so := c in
  match a with
  | set_make v => Build_CarDB i v md yr pr mi de co fu tr im se at_ so
  | set_model v => Build_CarDB i mk v yr pr mi de co fu tr im se at_ so
  | set_year v => Build_CarDB i mk md v pr mi de co fu tr im se at_ so
  | set_price v => Build_CarDB i mk md yr v mi de co fu tr im se at_ so
  | set_mileage v => Build_CarDB i mk md yr pr v de co fu tr im se at_ so
  | set_description v => Build_CarDB i mk md yr pr mi v co fu tr im se at_ so
  | set_color v => Build_CarDB i mk md yr pr mi de v fu tr im se at_ so
  | set_fuel_type v => Build_CarDB i mk md yr pr mi de co v tr im se at_ so
  | set_transmission v => Build_CarDB i mk md yr pr mi de co fu v im se at_ so
  | set_image v => Build_CarDB i mk md yr pr mi de co fu tr v se at_ so
  | set_is_sold v => Build_CarDB i mk md yr pr mi de co fu tr im se at_ v
  end.

(** The entry of one field in [car_update.dict(exclude_unset=True)]. *)
Definition item {A} (mk : option A -> Assignment) (f : Field A)
  : list Assignment :=
  match f with
  | Unset => []
  | Given v => [mk v]
  end.

(** [car_update.dict(exclude_unset=True).items()], in the order of the
    fields of [CarUpdate]. *)
Definition dict_exclude_unset (u : CarUpdate) : list Assignment :=
  (item set_make (cu_make u) ++ item set_model (cu_model u)
   ++ item set_year (cu_year u) ++ item set_price (cu_price u)
   ++ item set_mileage (cu_mileage u)
   ++ item set_description (cu_description u)
   ++ item set_color (cu_color u) ++ item set_fuel_type (cu_fuel_type u)
   ++ item set_transmission (cu_transmission u)
   ++ item set_image (cu_image u) ++ item set_is_sold (cu_is_sold u))%list.

Definition not_authorized_update {A} : M A :=
  raise (HTTPException 403 "Not authorized to update this car" []).

Definition car_not_found {A} : M A :=
  raise (HTTPException 404 "Car not found" []).

(** [PUT /cars/{car_id}] *)
Definition update_car (car_id : string) (car_update : CarUpdate)
    (current_user : UserDB) : M Car :=
  car ← query_car_by_id car_id;
  match car with
  | None => car_not_found
  | Some car =>
      if bool_decide (seller_id car ≠ Some (user_id current_user))
      then not_authorized_update
      else
        let update_data := dict_exclude_unset car_update in
        let car := fold_left setattr update_data car in
        car ← commit_car car;
        Car_of car
  end.

(** The form fields of [PUT /cars/{car_id}/upload]: each is [None] when
    the form does not carry it. *)
Record CarUpdateForm := {
  uf_make : option string;
  uf_model : option string;
  uf_year : option Z;
  uf_price : option float;
  uf_mileage : option Z;
  uf_color : option string;
  uf_fuel_type : option string;
  uf_transmission : option string;
  uf_description : option string;
  uf_is_sold : option bool
}.

(** [value is not None] *)
Definition is_not_None (a : Assignment) : bool :=
  match a with
  | set_make v | set_model v | set_description v | set_color v
  | set_fuel_type v | set_transmission v | set_image v => bool_decide (is_Some v)
  | set_year v | set_mileage v => bool_decide (is_Some v)
  | set_price v => bool_decide (is_Some v)
  | set_is_sold v => bool_decide (is_Some v)
  end.

(** The dictionary [update_fields], in its order. *)
Definition update_fields (form : CarUpdateForm) (image_url : option string)
  : list Assignment :=
  [ set_make (uf_make form); set_model (uf_model form);
    set_year (uf_year form); set_price (uf_price form);
    set_mileage (uf_mileage form); set_color (uf_color form);
    set_fuel_type (uf_fuel_type form);
    set_transmission (uf_transmission form);
    set_description (uf_description form); set_is_sold (uf_is_sold form);
    set_image image_url ].

(** [car.image and car.image.startswith("/uploads/")], then
    [UPLOAD_DIR / car.image.replace("/uploads/", "")]. *)
Definition old_image_path_of (car : CarDB) : option string :=
  match image car with
  | Some img =>
      if bool_decide (img ≠ "") && PyStr.startswith img "/uploads/"
      then Some (in_upload_dir (PyStr.remove_all "/uploads/" img))
      else None
  | None => None
  end.

(** The path [update_car_with_image] cleans up after the commit is a
    directory and not a file: [exists()] is true and [unlink()] raises. *)
Definition old_image_is_dir (env : Env) (w : World) (car : CarDB) : bool :=
  match old_image_path_of car with
  | Some old => bool_decide (files w !! old = None) && is_dir env old
  | None => false
  end.

(** What the image part of [update_car_with_image] leaves in the local
    variables [image_url], [old_image_path] and [file_path] ([file_path] is
    bound only when a file came). *)
Record ImageVars := {
  image_url : option string;
  old_image_path : option string;
  file_path : option string
}.

(** [PUT /cars/{car_id}/upload] *)
Definition update_car_with_image (car_id : string) (form : CarUpdateForm)
    (file : option UploadFile) (current_user : UserDB) : M Car :=
  car ← query_car_by_id car_id;
  match car with
  | None => car_not_found
  | Some car =>
      if bool_decide (seller_id car ≠ Some (user_id current_user))
      then not_authorized_update
      else
        vars ←
          match file with
          | None =>
              mret {| image_url := image car; old_image_path := None;
                      file_path := None |}
          | Some file =>
              if type_refused file then invalid_file_type
              else
                let contents := contents file in
                if too_large contents then file_too_large
                else
                  let file_extension := file_extension file in
                  u ← uuid4_str 0;
                  let unique_filename := u +:+ file_extension in
                  let file_path := in_upload_dir unique_filename in
                  try_except
                    (write_file file_path contents;;
                     mret {| image_url := Some ("/uploads/" +:+ unique_filename);
                             old_image_path := old_image_path_of car;
                             file_path := Some file_path |})
                    (fun e =>
                       raise (HTTPException 500
                                ("Failed to save file: " +:+ str e) []))
          end;
        let car :=
          fold_left setattr
            (filter (fun a => is_not_None a = true)
               (update_fields form (image_url vars)))
            car in
        try_except
          (car ← commit_car car;
           match old_image_path vars with
           | Some old =>
               ex ← path_exists old;
               when_ ex (unlink old)
           | None => mret tt
           end;;
           Car_of car)
          (fun e =>
             match file_path vars with
             | Some new =>
                 ex ← path_exists new;
                 when_ ex (unlink new)
             | None => mret tt
             end;;
             raise (HTTPException 500 ("Failed to update car: " +:+ str e) []))
  end.

(** [DELETE /cars/{car_id}] *)
Definition delete_car (car_id : string) (current_user : UserDB) : M string :=
  car ← query_car_by_id car_id;
  match car with
  | None => car_not_found
  | Some car =>
      if bool_decide (seller_id car ≠ Some (user_id current_user))
      then raise (HTTPException 403 "Not authorized to delete this car" [])
      else
        delete_row car;;
        mret "Car deleted successfully"
  end.

(** ** Upload endpoints *)

(** [POST /upload] *)
Definition upload_car_image (file : UploadFile) (current_user : UserDB)
  : M UploadResponse :=
  if type_refused file then invalid_file_type
  else
    let contents := contents file in
    if too_large contents then file_too_large
    else
      let file_extension := file_extension file in
      u ← uuid4_str 0;
      let unique_filename := u +:+ file_extension in
      let file_path := in_upload_dir unique_filename in
      try_except
        (write_file file_path contents;;
         let image_url := "/uploads/" +:+ unique_filename in
         mret {| ur_filename := unique_filename;
                 ur_url := image_url;
                 ur_message := "Image uploaded successfully" |})
        (fun e =>
           raise (HTTPException 500 ("Failed to save file: " +:+ str e) [])).

(** [DELETE /upload/{filename}] *)
Definition delete_car_image (filename : string) (current_user : UserDB)
  : M string :=
  let file_path := in_upload_dir filename in
  ex ← path_exists file_path;
  if negb ex
  then raise (HTTPException 404 "Image not found" [])
  else
    try_except
      (unlink file_path;;
       mret ("Image " +:+ filename +:+ " deleted successfully"))
      (fun e =>
         raise (HTTPException 500 ("Failed to delete file: " +:+ str e) [])).

(** ** Reading a run *)

Definition result_of {A} (r : outcome A * World * Log) : outcome A := r.1.1.
Definition world_of {A} (r : outcome A * World * Log) : World := r.1.2.
Definition log_of {A} (r : outcome A * World * Log) : Log := r.2.

(** The events of a run, in order. *)
Definition events_of {A} (r : outcome A * World * Log) : list Event :=
  (log_of r).*1.

(** [L] is a row of table [cars], stored under its primary key. *)
Definition stored (w : World) (L : CarDB) : Prop := cars w !! id L = Some L.

(** No database or file-system failure during the request. *)
Definition no_failure (env : Env) : Prop :=
  commit_error env = None ∧ write_error env = None ∧ unlink_error env = None.

(** The value a field has after [update_car]. *)
Definition chosen {A} (f : Field A) (old : option A) : option A :=
  match f with
  | Unset => old
  | Given v => v
  end.

(** The value a column has after [update_car_with_image]. *)
Definition provided {A} (new old : option A) : option A :=
  match new with
  | Some v => Some v
  | None => old
  end.

(** The errors of the specification, as the handlers raise them. *)
Definition Forbidden_update : exn :=
  HTTPException 403 "Not authorized to update this car" [].
Definition Forbidden_delete : exn :=
  HTTPException 403 "Not authorized to delete this car" [].
Definition WrongTokenType : exn :=
  HTTPException 401 "Invalid token type" www_authenticate.
Definition InvalidCredentials : exn :=
  HTTPException 401 "Incorrect Email or password" www_authenticate.

(** The [type] claim a token carries, readable without the key. *)
Definition claimed_type (token : Jwt) : option string :=
  match token with
  | Malformed _ => None
  | Signed _ _ payload => type payload
  end.

(** [jwt.decode] accepts the token: algorithm, signature and expiry. *)
Definition decodes (env : Env) (token : Jwt) : bool :=
  match token with
  | Malformed _ => false
  | Signed alg k payload =>
      String.eqb alg ALGORITHM && String.eqb k (SECRET_KEY env)
      && match exp payload with
         | Some e => negb (e <=? utcnow env)%Z
         | None => true
         end
  end.

(** [jwt.decode] refuses the token for its expiry: algorithm and
    signature are accepted, and [exp] is not after the clock. *)
Definition expired (env : Env) (token : Jwt) : bool :=
  match token with
  | Malformed _ => false
  | Signed alg k payload =>
      String.eqb alg ALGORITHM && String.eqb k (SECRET_KEY env)
      && match exp payload with
         | Some e => (e <=? utcnow env)%Z
         | None => false
         end
  end.

(** The row [register] finds for an email, if any. *)
Definition registered (w : World) (e : string) : option UserDB :=
  List.find (fun u => String.eqb (email u) e) (users w).

(** The request body [{"price": v}]. *)
Definition price_only (v : option float) : CarUpdate :=
  {| cu_make := Unset; cu_model := Unset; cu_year := Unset;
     cu_price := Given v; cu_mileage := Unset; cu_description := Unset;
     cu_color := Unset; cu_fuel_type := Unset; cu_transmission := Unset;
     cu_image := Unset; cu_is_sold := Unset |}.

(** The row after [update_car], field by field. *)
Definition updated (u : CarUpdate) (c : CarDB) : CarDB :=
  {| id := id c;
     make := chosen (cu_make u) (make c);
     model := chosen (cu_model u) (model c);
     year := chosen (cu_year u) (year c);
     price := chosen (cu_price u) (price c);
     mileage := chosen (cu_mileage u) (mileage c);
     description := chosen (cu_description u) (description c);
     color := chosen (cu_color u) (color c);
     fuel_type := chosen (cu_fuel_type u) (fuel_type c);
     transmission := chosen (cu_transmission u) (transmission c);
     image := chosen (cu_image u) (image c);
     seller_id := seller_id c;
     created_at := created_at c;
     is_sold := chosen (cu_is_sold u) (is_sold c) |}.

(** The row after [update_car_with_image], field by field. *)
Definition updated_form (form : CarUpdateForm) (image_url : option string)
    (c : CarDB) : CarDB :=
  {| id := id c;
     make := provided (uf_make form) (make c);
     model := provided (uf_model form) (model c);
     year := provided (uf_year form) (year c);
     price := provided (uf_price form) (price c);
     mileage := provided (uf_mileage form) (mileage c);
     description := provided (uf_description form) (description c);
     color := provided (uf_color form) (color c);
     fuel_type := provided (uf_fuel_type form) (fuel_type c);
     transmission := provided (uf_transmission form) (transmission c);
     image := provided image_url (image c);
     seller_id := seller_id c;
     created_at := created_at c;
     is_sold := provided (uf_is_sold form) (is_sold c) |}.

(** The extension of the stored name as the specification words it: the
    extension of the original file name, kept as it is, [".jpg"] when there
    is none. *)
Definition extension_as_specified (file : UploadFile) : string :=
  let ext := Path.suffix (filename file) in
  if bool_decide (ext = "") then ".jpg" else ext.

(** ** The public interface

    A request as it arrives: the handlers behind a bearer token receive
    the user that [Depends(get_current_user)] resolves from it. *)
Inductive Request :=
| Register (body : UserCreate)
| CreateCar (credentials : Jwt) (car : CarCreate)
| UploadCarWithImage (credentials : Jwt) (form : CarForm) (file : UploadFile)
| UpdateCar (credentials : Jwt) (car_id : string) (car_update : CarUpdate)
| UpdateCarWithImage (credentials : Jwt) (car_id : string)
    (form : CarUpdateForm) (file : option UploadFile)
| DeleteCar (credentials : Jwt) (car_id : string)
| UploadCarImage (credentials : Jwt) (file : UploadFile)
| DeleteCarImage (credentials : Jwt) (filename : string).

(** [current_user: UserDB = Depends(get_current_user)] *)
Definition authenticated {A} (credentials : Jwt) (handler : UserDB -> M A)
  : M A :=
  current_user ← get_current_user credentials;
  handler current_user.

(** The state a request leaves. *)
Definition handle (req : Request) (env : Env) (w : World) : World :=
  match req with
  | Register body => world_of (post_register body env w)
  | CreateCar cred car =>
      world_of (authenticated cred (create_car car) env w)
  | UploadCarWithImage cred form file =>
      world_of (authenticated cred (upload_car_with_image form file) env w)
  | UpdateCar cred car_id car_update =>
      world_of (authenticated cred (update_car car_id car_update) env w)
  | UpdateCarWithImage cred car_id form file =>
      world_of (authenticated cred
                  (update_car_with_image car_id form file) env w)
  | DeleteCar cred car_id =>
      world_of (authenticated cred (delete_car car_id) env w)
  | UploadCarImage cred file =>
      world_of (authenticated cred (upload_car_image file) env w)
  | DeleteCarImage cred filename =>
      world_of (authenticated cred (delete_car_image filename) env w)
  end.

(** [0 <= p] on floats; false for NaN. *)
Definition nonneg_price (p : float) : Prop := PrimFloat.leb 0 p = true.

(** Price and mileage of a row, where the column is not empty. *)
Definition listing_nonneg (c : CarDB) : Prop :=
  (∀ p, price c = Some p → nonneg_price p)
  ∧ (∀ m, mileage c = Some m → (0 ≤ m)%Z).

(** Every price the request carries is a number [p] with [0 <= p], which
    a negative price and NaN are not, and every mileage it carries is not
    negative. *)
Definition supplies_nonneg (req : Request) : Prop :=
  match req with
  | CreateCar _ car =>
      nonneg_price (cc_price car) ∧ (0 ≤ cc_mileage car)%Z
  | UploadCarWithImage _ form _ =>
      nonneg_price (cf_price form) ∧ (0 ≤ cf_mileage form)%Z
  | UpdateCar _ _ u =>
      (∀ p, cu_price u = Given (Some p) → nonneg_price p)
      ∧ (∀ m, cu_mileage u = Given (Some m) → (0 ≤ m)%Z)
  | UpdateCarWithImage _ _ form _ =>
      (∀ p, uf_price form = Some p → nonneg_price p)
      ∧ (∀ m, uf_mileage form = Some m → (0 ≤ m)%Z)
  | _ => True
  end.

Definition initial : World := {| users := []; cars := ∅; files := ∅ |}.

(** The states reached from the empty one by requests whose prices and
    mileages are all [0 <= p], under any clock, UUIDs and failures. *)
Inductive reachable_nonneg : World -> Prop :=
| reachable_initial : reachable_nonneg initial
| reachable_handle (w : World) (env : Env) (req : Request) :
    reachable_nonneg w ->
    supplies_nonneg req ->
    reachable_nonneg (handle req env w).

(** The states reached from the empty one by any requests. *)
Inductive reachable : World -> Prop :=
| reachable_empty : reachable initial
| reachable_request (w : World) (env : Env) (req : Request) :
    reachable w ->
    reachable (handle req env w).

(** Every row has a non-negative price and mileage, where not empty. *)
Definition cars_nonneg (w : World) : Prop :=
  map_Forall (fun _ c => listing_nonneg c) (cars w).

(** [keeps m Q]: run in a state that satisfies [cars_nonneg], [m] leaves a
    state that satisfies it, whether it returns or raises, and a returned
    value satisfies [Q]. *)
Definition keeps {A} (m : M A) (Q : A -> Prop) : Prop :=
  ∀ env w, cars_nonneg w →
    cars_nonneg (world_of (m env w))
    ∧ ∀ a, result_of (m env w) = Return a → Q a.

Definition any {A} : A -> Prop := fun _ => True.

(** ** Sample data *)

Module Sample.

(** What the validator behind [EmailStr] does to the addresses of the
    examples: it lower-cases the domain, and refuses an address that is
    not of the form [local@domain]. *)
Definition normalize (address : string) : option string :=
  match PyStr.split_on "@"%char address with
  | [local; domain] =>
      if bool_decide (local ≠ "" ∧ domain ≠ "")
      then Some (local +:+ "@" +:+ PyStr.lower domain)
      else None
  | _ => None
  end.

Definition env : Env :=
  {| SECRET_KEY := "secret";
     get_password_hash := fun p => "bcrypt:" +:+ p;
     verify_password := fun p h => String.eqb ("bcrypt:" +:+ p) h;
     email_validator := normalize;
     utcnow := 1000;
     uuid4 := fun n => match n with
                       | O => "6f1c"
                       | _ => "9a2e"
                       end;
     isdir := fun _ => false;
     commit_error := None;
     write_error := None;
     unlink_error := None |}.

Definition alice : UserDB :=
  {| user_id := "alice-id"; username := "alice"; email := "a@x.com";
     hashed_password := "bcrypt:pw-a"; user_created_at := 10 |}.

Definition bob : UserDB :=
  {| user_id := "bob-id"; username := "bob"; email := "b@x.com";
     hashed_password := "bcrypt:pw-b"; user_created_at := 20 |}.

Definition camry : CarDB :=
  {| id := "car-1"; make := Some "Toyota"; model := Some "Camry";
     year := Some 2020; price := Some 25000%float; mileage := Some 30000;
     description := None; color := Some "Silver";
     fuel_type := Some "Gasoline"; transmission := Some "Automatic";
     image := Some "/uploads/old.jpg"; seller_id := Some "alice-id";
     created_at := Some 100; is_sold := Some false |}.

Definition jpeg_bytes : list Byte.byte := [Byte.xff; Byte.xd8; Byte.xff].

Definition world : World :=
  {| users := [alice; bob];
     cars := {[ "car-1" := camry ]};
     files := {[ "uploads/old.jpg" := jpeg_bytes ]} |}.

Definition empty_world : World := {| users := []; cars := ∅; files := ∅ |}.

Definition photo : UploadFile :=
  {| filename := "Front View.PNG"; content_type := Some "image/png";
     contents := jpeg_bytes |}.

Definition no_fields : CarUpdateForm :=
  {| uf_make := None; uf_model := None; uf_year := None; uf_price := None;
     uf_mileage := None; uf_color := None; uf_fuel_type := None;
     uf_transmission := None; uf_description := None; uf_is_sold := None |}.



Definition sedan : CarForm :=
  {| cf_make := "Honda"; cf_model := "Civic"; cf_year := 2019;
     cf_price := 18000%float; cf_mileage := 42000; cf_color := "Blue";
     cf_fuel_type := "Gasoline"; cf_transmission := "Manual";
     cf_description := Some "One owner" |}.

Definition carol : UserCreate :=
  {| uc_username := "carol"; uc_email := "c@x.com"; uc_password := "pw-c";
     uc_confirmed_password := "pw-c" |}.

(** The access token [login] gives carol at time 1000. *)
Definition carol_token : Jwt :=
  Signed "HS256" "secret"
    {| sub := Some "c@x.com"; type := Some "access"; exp := Some 1600 |}.

Definition civic : CarCreate :=
  {| cc_make := "Honda"; cc_model := "Civic"; cc_year := 2019;
     cc_price := 18000%float; cc_mileage := 42000; cc_description := None;
     cc_color := "Blue"; cc_fuel_type := "Gasoline";
     cc_transmission := "Manual"; cc_image := "/uploads/civic.jpg" |}.

Definition negative : CarCreate :=
  {| cc_make := "Honda"; cc_model := "Civic"; cc_year := 2019;
     cc_price := (-1)%float; cc_mileage := -5; cc_description := None;
     cc_color := "Blue"; cc_fuel_type := "Gasoline";
     cc_transmission := "Manual"; cc_image := "/uploads/civic.jpg" |}.

(** A later request, with other UUIDs. *)
Definition later : Env :=
  {| SECRET_KEY := "secret";
     get_password_hash := fun p => "bcrypt:" +:+ p;
     verify_password := fun p h => String.eqb ("bcrypt:" +:+ p) h;
     email_validator := normalize;
     utcnow := 1100;
     uuid4 := fun n => match n with
                       | O => "b7d0"
                       | _ => "c3f9"
                       end;
     isdir := fun _ => false;
     commit_error := None;
     write_error := None;
     unlink_error := None |}.

Definition dave : UserCreate :=
  {| uc_username := "dave"; uc_email := "d@x.com"; uc_password := "pw-d";
     uc_confirmed_password := "pw-d" |}.

Definition dave_token : Jwt :=
  Signed "HS256" "secret"
    {| sub := Some "d@x.com"; type := Some "access"; exp := Some 1700 |}.

End Sample.

(** ** Read endpoints *)

(** The rows of table [cars], in the order the database returns them for a
    query without [ORDER BY]; the properties below hold for any order. *)
Definition all_cars (w : World) : list CarDB := (map_to_list (cars w)).*2.

(** [[Car(id=car.id, ...) for car in cars]]: the first row the response
    model refuses raises. *)
Fixpoint Cars_of (rows : list CarDB) : M (list Car) :=
  match rows with
  | [] => mret []
  | c :: rest =>
      r ← Car_of c;
      rs ← Cars_of rest;
      mret (r :: rs)
  end.

(** The largest [bigint] of the database. *)
Definition bigint_max : Z := 2 ^ 63 - 1.

(** [GET /cars]: [db.query(CarDB).offset(skip).limit(limit).all()].  The
    query parameters are Python integers of any size; the database takes
    [OFFSET] and [LIMIT] as [bigint] and refuses a negative one. *)
Definition get_cars (skip limit : Z) : M (list Car) :=
  w ← get;
  if ((skip <? 0)%Z || (limit <? 0)%Z
      || (bigint_max <? skip)%Z || (bigint_max <? limit)%Z)%bool
  then raise (Exception "DataError")
  else Cars_of (take (Z.to_nat limit) (drop (Z.to_nat skip) (all_cars w))).

(** [GET /cars/{car_id}] *)
Definition get_car (car_id : string) : M Car :=
  car ← query_car_by_id car_id;
  match car with
  | None => car_not_found
  | Some car => Car_of car
  end.

(** [GET /my-cars]:
    [db.query(CarDB).filter(CarDB.seller_id == current_user.id).all()] *)
Definition get_my_cars (current_user : UserDB) : M (list Car) :=
  w ← get;
  Cars_of (filter (fun c => seller_id c = Some (user_id current_user))
             (all_cars w)).

(** [GET /me] *)
Definition read_users_me (current_user : UserDB) : M User :=
  mret {| u_id := user_id current_user;
          u_username := username current_user;
          u_email := email current_user;
          u_created_at := user_created_at current_user |}.

(** *** [ILIKE]

    The operator of the database behind [Column.ilike(pattern)]: in the
    pattern, [%] stands for any sequence of characters, [_] for any one
    character, and a backslash takes the next character literally; letters
    match without regard to case (here: ASCII letters).  A [NULL] column
    matches nothing. *)
Module Sql.

Inductive tok :=
| Any
| One
| Lit (c : ascii).

(** The pattern read from left to right; [escaped] tells that the previous
    character was an unescaped backslash.  A pattern that ends in one is
    refused. *)
Fixpoint tokens (escaped : bool) (pattern : string) : option (list tok) :=
  match pattern with
  | EmptyString => if escaped then None else Some []
  | String c r =>
      if escaped then cons (Lit c) <$> tokens false r
      else if Ascii.eqb c "\"%char then tokens true r
      else if Ascii.eqb c "%"%char then cons Any <$> tokens false r
      else if Ascii.eqb c "_"%char then cons One <$> tokens false r
      else cons (Lit c) <$> tokens false r
  end.

Definition same_letter (c d : ascii) : bool :=
  Ascii.eqb (PyStr.lower_ascii c) (PyStr.lower_ascii d).

Fixpoint matches (p : list tok) : string -> bool :=
  match p with
  | [] => fun s => match s with
                   | EmptyString => true
                   | String _ _ => false
                   end
  | Lit c :: p' => fun s => match s with
                            | EmptyString => false
                            | String d r => same_letter c d && matches p' r
                            end
  | One :: p' => fun s => match s with
                          | EmptyString => false
                          | String _ r => matches p' r
                          end
  | Any :: p' =>
      fix skip (s : string) : bool :=
        matches p' s
        || match s with
           | EmptyString => false
           | String _ r => skip r
           end
  end.

(** [column ILIKE pattern] is true. *)
Definition ilike (column : option string) (p : list tok) : bool :=
  match column with
  | Some s => matches p s
  | None => false
  end.

End Sql.

(** The filter of [search_cars]: one of the four columns matches. *)
Definition found (p : list Sql.tok) (c : CarDB) : bool :=
  Sql.ilike (make c) p || Sql.ilike (model c) p
  || Sql.ilike (color c) p || Sql.ilike (description c) p.

(** [GET /cars/search/{query}] *)
Definition search_cars (query : string) : M (list Car) :=
  w ← get;
  match Sql.tokens false ("%" +:+ query +:+ "%") with
  | None => raise (Exception "DataError")
  | Some p => Cars_of (filter (fun c => found p c = true) (all_cars w))
  end.

(** [q] occurs in [s], letters compared without regard to case. *)
Definition contains_caseless (s q : string) : Prop :=
  ∃ before after,
    PyStr.lower s = before +:+ PyStr.lower q +:+ after.

(** The query has none of the characters the pattern language reads. *)
Fixpoint plain (q : string) : bool :=
  match q with
  | EmptyString => true
  | String c r =>
      negb (Ascii.eqb c "\"%char) && negb (Ascii.eqb c "%"%char)
      && negb (Ascii.eqb c "_"%char) && plain r
  end.

(** No character of [s] is [c]. *)
Fixpoint free_of (c : ascii) (s : string) : bool :=
  match s with
  | EmptyString => true
  | String d r => negb (Ascii.eqb d c) && free_of c r
  end.

(** A file name of one component: not empty, not ["."], and without a
    slash. *)
Definition single_component (name : string) : bool :=
  negb (String.eqb name "") && negb (String.eqb name ".")
  && free_of "/" name.

(** ** What a request may change *)

(** The tables are those of [w]. *)
Definition same_tables (w w' : World) : Prop :=
  users w' = users w ∧ cars w' = cars w.

(** Identifiers, user names and emails are pairwise different; every
    listing is stored under its own [id] and its seller is a registered
    user. *)
Definition consistent (w : World) : Prop :=
  NoDup (user_id <$> users w)
  ∧ NoDup (username <$> users w)
  ∧ NoDup (email <$> users w)
  ∧ ∀ k c, cars w !! k = Some c →
      id c = k
      ∧ ∃ u, u ∈ users w ∧ seller_id c = Some (user_id u).

(** The [sub] claim a token carries. *)
Definition claimed_sub (token : Jwt) : option string :=
  match token with
  | Malformed _ => None
  | Signed _ _ payload => sub payload
  end.

(** The token has the algorithm of the application and was signed with
    its key. *)
Definition signed_by (env : Env) (token : Jwt) : bool :=
  match token with
  | Malformed _ => false
  | Signed alg k _ => String.eqb alg ALGORITHM && String.eqb k (SECRET_KEY env)
  end.

(** The pair [login] and [refresh_token] issue for a subject. *)
Definition pair_for (env : Env) (subject : string) : Token :=
  {| access_token :=
       Signed ALGORITHM (SECRET_KEY env)
         {| sub := Some subject; type := Some "access";
            exp := Some (utcnow env + 600) |};
     refresh_token_ :=
       Signed ALGORITHM (SECRET_KEY env)
         {| sub := Some subject; type := Some "refresh";
            exp := Some (utcnow env + 86400) |};
     token_type := "bearer" |}.

(** ** More sample data *)

Module Fixture.

Definition normalize := Sample.normalize.

Definition alice_login : UserLogin :=
  {| ul_email := "a@x.com"; ul_password := "pw-a" |}.

(** The clock eleven minutes, and more than a day, after [Sample.env]. *)
Definition at_time (t : Z) : Env :=
  {| SECRET_KEY := "secret";
     get_password_hash := fun p => "bcrypt:" +:+ p;
     verify_password := fun p h => String.eqb ("bcrypt:" +:+ p) h;
     email_validator := normalize;
     utcnow := t;
     uuid4 := fun n => match n with
                       | O => "b7d0"
                       | _ => "c3f9"
                       end;
     isdir := fun _ => false;
     commit_error := None;
     write_error := None;
     unlink_error := None |}.

Definition forged : Jwt :=
  Signed "HS256" "guessed"
    {| sub := Some "a@x.com"; type := Some "access"; exp := Some 999999 |}.

Definition alice_token : Jwt :=
  Signed "HS256" "secret"
    {| sub := Some "a@x.com"; type := Some "access"; exp := Some 1600 |}.

(** [Sample.env] with failures. *)
Definition broken (commit : option string) (write : option WriteError)
  : Env :=
  {| SECRET_KEY := "secret";
     get_password_hash := fun p => "bcrypt:" +:+ p;
     verify_password := fun p h => String.eqb ("bcrypt:" +:+ p) h;
     email_validator := normalize;
     utcnow := 1000;
     uuid4 := fun n => match n with
                       | O => "6f1c"
                       | _ => "9a2e"
                       end;
     isdir := fun _ => false;
     commit_error := commit;
     write_error := write;
     unlink_error := None |}.


End Fixture.

(** One of the four searched columns of the row contains [q]. *)
Definition mentions (c : CarDB) (q : string) : Prop :=
  ∃ s, (make c = Some s ∨ model c = Some s
        ∨ color c = Some s ∨ description c = Some s)
       ∧ contains_caseless s q.

(** One of the four searched columns of the row is not empty. *)
Definition searchable (c : CarDB) : Prop :=
  is_Some (make c) ∨ is_Some (model c)
  ∨ is_Some (color c) ∨ is_Some (description c).

(** The query is made of [%] characters only. *)
Fixpoint only_percent (q : string) : bool :=
  match q with
  | EmptyString => true
  | String c r => Ascii.eqb c "%"%char && only_percent r
  end.

(** The literal pattern for a string. *)
Fixpoint literally (q : string) : list Sql.tok :=
  match q with
  | EmptyString => []
  | String c r => Sql.Lit c :: literally r
  end.

(** What a handler run for user [U] on the listing [key] may do to the
    tables: nothing, or replace or delete the row stored under [key],
    whose seller is [U]; a replaced row keeps [id], [seller_id] and
    [created_at]. *)
Definition changes_only_own (U : UserDB) (key : string) (w w' : World)
  : Prop :=
  users w' = users w
  ∧ (cars w' = cars w
     ∨ ∃ L, cars w !! key = Some L
         ∧ seller_id L = Some (user_id U)
         ∧ ((∃ L', cars w' = <[id L := L']> (cars w)
                   ∧ id L' = id L
                   ∧ seller_id L' = seller_id L
                   ∧ created_at L' = created_at L)
            ∨ cars w' = delete (id L) (cars w))).

(** Nothing, or one new row under a free id, with seller [U]. *)
Definition adds_own (U : UserDB) (w w' : World) : Prop :=
  users w' = users w
  ∧ (cars w' = cars w
     ∨ ∃ row, cars w !! id row = None
         ∧ seller_id row = Some (user_id U)
         ∧ cars w' = <[id row := row]> (cars w)).

(** Every row is stored under its own [id]. *)
Definition keyed (w : World) : Prop :=
  ∀ k c, cars w !! k = Some c → id c = k.

(** The request addresses listing [k] with the credentials [cred]. *)
Definition addresses (req : Request) (cred : Jwt) (k : string) : Prop :=
  match req with
  | UpdateCar cred' k' _ | UpdateCarWithImage cred' k' _ _
  | DeleteCar cred' k' => cred' = cred ∧ k' = k
  | _ => False
  end.

(** ** A logic for what the handlers do to the tables

    [spec I P m Q]: run in a state whose tables satisfy [P], the
    computation [m] either returns a value [a] and leaves tables that
    satisfy [Q a], or raises and leaves tables that satisfy [I].  The
    upload directory is not constrained. *)
Definition Tables : Type := list UserDB -> gmap string CarDB -> Prop.

Definition spec {A} (I P : Tables) (m : M A) (Q : A -> Tables) : Prop :=
  ∀ env w, P (users w) (cars w) →
    match result_of (m env w) with
    | Return a => Q a (users (world_of (m env w))) (cars (world_of (m env w)))
    | Raise _ => I (users (world_of (m env w))) (cars (world_of (m env w)))
    end.

(** [P] entails [I]. *)
Definition entails (P I : Tables) : Prop := ∀ us cs, P us cs → I us cs.

(** What [register] may do to the tables: nothing, or one more user whose
    identifier, name and email no other user has. *)
Definition adds_user (w w' : World) : Prop :=
  cars w' = cars w
  ∧ (users w' = users w
     ∨ ∃ row, users w' = (users w ++ [row])%list
              ∧ violates_unique row (users w) = false).

(** * Properties *)

(** Unfolds the monad and the primitives of the session and of the file
    system, leaving the control flow of the handler. *)
Ltac unfold_M :=
  cbv [mbind mret M_bind M_ret bind ret raise get ask effect try_except when_
       query_car_by_id query_user_by_email db_commit commit_car delete_row
       add_car add_user write_file path_exists unlink uuid4_str Car_of
       car_not_found not_authorized_update invalid_file_type file_too_large
       result_of world_of log_of events_of].

(** ** Python strings and paths on examples *)

Example suffix_keeps_case : Path.suffix "photo.PNG" = ".PNG".
Proof. reflexivity. Qed.

Example suffix_is_last : Path.suffix "a.tar.gz" = ".gz".
Proof. reflexivity. Qed.

Example suffix_of_dotfile : Path.suffix ".bashrc" = "".
Proof. reflexivity. Qed.

Example suffix_trailing_dot : Path.suffix "photo." = "".
Proof. reflexivity. Qed.

Example suffix_of_last_component : Path.suffix "dir.d/photo" = "".
Proof. reflexivity. Qed.

Example remove_all_prefix :
  PyStr.remove_all "/uploads/" "/uploads/abc.jpg" = "abc.jpg".
Proof. reflexivity. Qed.

Example remove_all_twice :
  PyStr.remove_all "/uploads/" "/uploads/a/uploads/b" = "ab".
Proof. reflexivity. Qed.

Example lower_extension : PyStr.lower ".PNG" = ".png".
Proof. reflexivity. Qed.

(** ** Ownership *)

Section Ownership.

Variables (env : Env) (w : World) (L : CarDB) (U : UserDB).
Hypothesis L_stored : stored w L.

Lemma update_car_not_owner (car_update : CarUpdate) :
  seller_id L ≠ Some (user_id U) →
  update_car (id L) car_update U env w = (Raise Forbidden_update, w, []).
Proof.
  intros Hne. unfold update_car. unfold_M. rewrite L_stored.
  by rewrite bool_decide_eq_true_2.
Qed.

Lemma update_car_with_image_not_owner form file :
  seller_id L ≠ Some (user_id U) →
  update_car_with_image (id L) form file U env w
  = (Raise Forbidden_update, w, []).
Proof.
  intros Hne. unfold update_car_with_image. unfold_M. rewrite L_stored.
  by rewrite bool_decide_eq_true_2.
Qed.

Lemma delete_car_not_owner :
  seller_id L ≠ Some (user_id U) →
  delete_car (id L) U env w = (Raise Forbidden_delete, w, []).
Proof.
  intros Hne. unfold delete_car. unfold_M. rewrite L_stored.
  by rewrite bool_decide_eq_true_2.
Qed.

Lemma delete_car_owner :
  seller_id L = Some (user_id U) →
  commit_error env = None →
  delete_car (id L) U env w
  = (Return "Car deleted successfully",
     set_cars (delete (id L) (cars w)) w,
     [(CarDeleted (id L), set_cars (delete (id L) (cars w)) w)]).
Proof.
  intros Hown Hc. unfold delete_car. unfold_M. rewrite L_stored.
  rewrite bool_decide_eq_false_2 by (intros H; by apply H).
  by rewrite Hc.
Qed.

End Ownership.

(** C2. A user who is not the seller of a stored listing gets 403 Forbidden
    from [update_car], from [update_car_with_image] and from [delete_car];
    the state after the request is the state before it (every row, hence
    every field of the listing, and every file), and no effect was
    performed. *)
Theorem non_owner_is_forbidden
    (env : Env) (w : World) (L : CarDB) (U : UserDB)
    (car_update : CarUpdate) (form : CarUpdateForm)
    (file : option UploadFile) :
  stored w L →
  seller_id L ≠ Some (user_id U) →
  let upd := update_car (id L) car_update U env w in
  let upl := update_car_with_image (id L) form file U env w in
  let del := delete_car (id L) U env w in
  (http_status (result_of upd) = 403 ∧ world_of upd = w ∧ log_of upd = [])
  ∧ (http_status (result_of upl) = 403 ∧ world_of upl = w ∧ log_of upl = [])
  ∧ (http_status (result_of del) = 403 ∧ world_of del = w ∧ log_of del = [])
  ∧ cars (world_of upd) !! id L = Some L
  ∧ cars (world_of upl) !! id L = Some L
  ∧ cars (world_of del) !! id L = Some L.
Proof.
  intros HL Hne upd upl del. subst upd upl del.
  rewrite (update_car_not_owner env w L U HL car_update Hne).
  rewrite (update_car_with_image_not_owner env w L U HL form file Hne).
  rewrite (delete_car_not_owner env w L U HL Hne).
  by repeat split.
Qed.

Lemma non_owner_is_forbidden_witness :
  let upd :=
    update_car "car-1"
      {| cu_make := Unset; cu_model := Unset; cu_year := Unset;
         cu_price := Given (Some 1%float); cu_mileage := Unset;
         cu_description := Unset; cu_color := Unset; cu_fuel_type := Unset;
         cu_transmission := Unset; cu_image := Unset; cu_is_sold := Unset |}
      Sample.bob Sample.env Sample.world in
  let del := delete_car "car-1" Sample.bob Sample.env Sample.world in
  http_status (result_of upd) = 403
  ∧ http_status (result_of del) = 403
  ∧ cars (world_of upd) !! "car-1" = Some Sample.camry
  ∧ cars (world_of del) !! "car-1" = Some Sample.camry.
Proof.
  intros upd del.
  destruct (non_owner_is_forbidden Sample.env Sample.world Sample.camry
              Sample.bob
              {| cu_make := Unset; cu_model := Unset; cu_year := Unset;
                 cu_price := Given (Some 1%float); cu_mileage := Unset;
                 cu_description := Unset; cu_color := Unset;
                 cu_fuel_type := Unset; cu_transmission := Unset;
                 cu_image := Unset; cu_is_sold := Unset |}
              Sample.no_fields None)
    as ((H1 & _) & _ & (H3 & _) & H4 & _ & H6).
  - reflexivity.
  - discriminate.
  - exact (conj H1 (conj H3 (conj H4 H6))).
Defined.

(** C1. The owner's [delete_car] on a stored listing succeeds when the
    commit succeeds; its single effect is the deletion of the row.  No file
    is unlinked: the upload directory after the request is the one before
    it, so the file of the listing's image is still there. *)
Theorem delete_car_leaves_image_file
    (env : Env) (w : World) (L : CarDB) (U : UserDB) :
  stored w L →
  seller_id L = Some (user_id U) →
  commit_error env = None →
  let run := delete_car (id L) U env w in
  result_of run = Return "Car deleted successfully"
  ∧ cars (world_of run) !! id L = None
  ∧ events_of run = [CarDeleted (id L)]
  ∧ files (world_of run) = files w.
Proof.
  intros HL Hown Hc run. subst run.
  rewrite (delete_car_owner env w L U HL Hown Hc).
  unfold_M. simpl. by rewrite lookup_delete_eq.
Qed.

Lemma delete_car_leaves_image_file_witness :
  let run := delete_car "car-1" Sample.alice Sample.env Sample.world in
  result_of run = Return "Car deleted successfully"
  ∧ cars (world_of run) !! "car-1" = None
  ∧ events_of run = [CarDeleted "car-1"]
  ∧ files (world_of run) !! "uploads/old.jpg" = Some Sample.jpeg_bytes.
Proof.
  intros run.
  destruct (delete_car_leaves_image_file Sample.env Sample.world Sample.camry
              Sample.alice) as (H1 & H2 & H3 & H4);
    [reflexivity | reflexivity | reflexivity |].
  refine (conj H1 (conj H2 (conj H3 _))).
  transitivity (files Sample.world !! "uploads/old.jpg");
    [exact (f_equal (fun fs => fs !! "uploads/old.jpg") H4) | reflexivity].
Defined.

(** ** Registration and login *)

Lemma register_mismatch (env : Env) (w : World) (user : UserCreate) :
  uc_password user ≠ uc_confirmed_password user →
  register user env w
  = (Raise (match registered w (uc_email user) with
            | Some _ =>
                HTTPException 400 "This email has already registered" []
            | None =>
                HTTPException 404 "This confirmed password does not match" []
            end), w, []).
Proof.
  intros Hne. unfold register. unfold_M. fold (registered w (uc_email user)).
  destruct (registered w (uc_email user)) as [u|].
  - by rewrite bool_decide_eq_true_2.
  - rewrite bool_decide_eq_false_2 by (by intros [? ?]).
    apply String.eqb_neq in Hne. by rewrite Hne.
Qed.

(** C4. A registration whose confirmation differs from the password
    creates no user: the state is unchanged and nothing was committed.  The
    request fails with status 400 only when the email is already taken;
    for a free email the status is 404. *)
Theorem register_mismatch_creates_no_user
    (env : Env) (w : World) (user : UserCreate) :
  uc_password user ≠ uc_confirmed_password user →
  let run := register user env w in
  world_of run = w
  ∧ log_of run = []
  ∧ http_status (result_of run)
    = match registered w (uc_email user) with
      | Some _ => 400
      | None => 404
      end.
Proof.
  intros Hne run. subst run. rewrite (register_mismatch env w user Hne).
  unfold_M. simpl. by destruct (registered w (uc_email user)).
Qed.

Lemma register_mismatch_creates_no_user_witness :
  let run :=
    register {| uc_username := "carol"; uc_email := "c@x.com";
                uc_password := "p1"; uc_confirmed_password := "p2" |}
      Sample.env Sample.empty_world in
  world_of run = Sample.empty_world
  ∧ log_of run = []
  ∧ http_status (result_of run) = 404.
Proof.
  apply (register_mismatch_creates_no_user Sample.env Sample.empty_world
           {| uc_username := "carol"; uc_email := "c@x.com";
              uc_password := "p1"; uc_confirmed_password := "p2" |}).
  discriminate.
Defined.

(** With matching passwords and free identifiers the user is created:
    [register] does return. *)
Example register_succeeds :
  let run :=
    register {| uc_username := "carol"; uc_email := "c@x.com";
                uc_password := "p1"; uc_confirmed_password := "p1" |}
      Sample.env Sample.world in
  http_status (result_of run) = 200
  ∧ length (users (world_of run)) = 3%nat.
Proof. by vm_compute. Qed.

Section Login.

Variables (env : Env) (w : World) (user : UserLogin).

Lemma login_unknown_email :
  registered w (ul_email user) = None →
  login user env w = (Raise InvalidCredentials, w, [])
  ∧ get_access_token user env w = (Raise InvalidCredentials, w, []).
Proof.
  intros Hnone. unfold login, get_access_token. unfold_M.
  fold (registered w (ul_email user)). by rewrite Hnone.
Qed.

Lemma login_wrong_password (db_user : UserDB) :
  registered w (ul_email user) = Some db_user →
  verify_password env (ul_password user) (hashed_password db_user) = false →
  login user env w = (Raise InvalidCredentials, w, [])
  ∧ get_access_token user env w = (Raise InvalidCredentials, w, []).
Proof.
  intros Hsome Hbad. unfold login, get_access_token. unfold_M.
  fold (registered w (ul_email user)). rewrite Hsome. simpl.
  by rewrite Hbad.
Qed.

End Login.

(** C9. Two failing runs of the credential check, one for an email that is
    not registered and one for a registered email with a password that does
    not verify, give the same response, status, detail and headers alike,
    on [login] and on [get_access_token]; neither changes the state. *)
Theorem login_failures_are_indistinguishable
    (env1 env2 : Env) (w1 w2 : World) (user1 user2 : UserLogin)
    (db_user : UserDB) :
  registered w1 (ul_email user1) = None →
  registered w2 (ul_email user2) = Some db_user →
  verify_password env2 (ul_password user2) (hashed_password db_user) = false →
  result_of (login user1 env1 w1) = result_of (login user2 env2 w2)
  ∧ result_of (get_access_token user1 env1 w1)
    = result_of (get_access_token user2 env2 w2)
  ∧ result_of (login user1 env1 w1) = Raise InvalidCredentials
  ∧ result_of (get_access_token user1 env1 w1) = Raise InvalidCredentials
  ∧ world_of (login user1 env1 w1) = w1
  ∧ world_of (login user2 env2 w2) = w2.
Proof.
  intros Hnone Hsome Hbad.
  destruct (login_unknown_email env1 w1 user1 Hnone) as [-> ->].
  destruct (login_wrong_password env2 w2 user2 db_user Hsome Hbad) as [-> ->].
  by repeat split.
Qed.

Lemma login_failures_are_indistinguishable_witness :
  let unknown := {| ul_email := "nobody@x.com"; ul_password := "pw-a" |} in
  let wrong := {| ul_email := "a@x.com"; ul_password := "guess" |} in
  result_of (login unknown Sample.env Sample.world)
  = result_of (login wrong Sample.env Sample.world)
  ∧ result_of (get_access_token unknown Sample.env Sample.world)
    = result_of (get_access_token wrong Sample.env Sample.world).
Proof.
  intros unknown wrong.
  destruct (login_failures_are_indistinguishable Sample.env Sample.env
              Sample.world Sample.world unknown wrong Sample.alice)
    as (H1 & H2 & _); [reflexivity | reflexivity | reflexivity |].
  exact (conj H1 H2).
Defined.

(** With the right password the same request returns a token pair. *)
Example login_succeeds :
  result_of (login {| ul_email := "a@x.com"; ul_password := "pw-a" |}
               Sample.env Sample.world)
  = Return
      {| access_token :=
           Signed "HS256" "secret"
             {| sub := Some "a@x.com"; type := Some "access";
                exp := Some 1600 |};
         refresh_token_ :=
           Signed "HS256" "secret"
             {| sub := Some "a@x.com"; type := Some "refresh";
                exp := Some 87400 |};
         token_type := "bearer" |}.
Proof. reflexivity. Qed.

(** ** Token types *)

Section TokenType.

Variables (env : Env) (w : World).

(** What [jwt.decode] does on a token, by cases. *)
Lemma jwt_decode_cases (token : Jwt) :
  (decodes env token = true
   ∧ ∃ alg payload, token = Signed alg (SECRET_KEY env) payload
       ∧ jwt_decode token (SECRET_KEY env) [ALGORITHM] env w
         = (Return payload, w, []))
  ∨ (decodes env token = false
     ∧ jwt_decode token (SECRET_KEY env) [ALGORITHM] env w
       = (Raise ExpiredSignatureError, w, []))
  ∨ (decodes env token = false
     ∧ ∃ what, jwt_decode token (SECRET_KEY env) [ALGORITHM] env w
         = (Raise (PyJWTError what), w, [])).
Proof.
  destruct token as [raw|alg k payload]; unfold jwt_decode, decodes; unfold_M.
  - right; right. split; [done | by eexists].
  - simpl. rewrite orb_false_r.
    destruct (String.eqb alg ALGORITHM) eqn:Ealg; simpl;
      [| right; right; split; [done | by eexists]].
    destruct (String.eqb k (SECRET_KEY env)) eqn:Ek; simpl;
      [| right; right; split; [done | by eexists]].
    apply String.eqb_eq in Ek as ->.
    destruct (exp payload) as [e|]; [destruct (e <=? utcnow env)%Z |]; simpl.
    + right; left. done.
    + left. split; [done | by eexists _, _].
    + left. split; [done | by eexists _, _].
Qed.

(** A token the decoder refuses: for its expiry, when algorithm and
    signature are accepted, and else for its form, algorithm or
    signature. *)
Lemma jwt_decode_refused (token : Jwt) :
  decodes env token = false →
  (expired env token = true
   ∧ jwt_decode token (SECRET_KEY env) [ALGORITHM] env w
     = (Raise ExpiredSignatureError, w, []))
  ∨ (expired env token = false
     ∧ ∃ what, jwt_decode token (SECRET_KEY env) [ALGORITHM] env w
         = (Raise (PyJWTError what), w, [])).
Proof.
  destruct token as [raw|alg k payload]; unfold jwt_decode, decodes, expired;
    unfold_M.
  - right. split; [done | by eexists].
  - simpl. rewrite orb_false_r.
    destruct (String.eqb alg ALGORITHM) eqn:Ealg; simpl;
      [| right; split; [done | by eexists]].
    destruct (String.eqb k (SECRET_KEY env)) eqn:Ek; simpl;
      [| right; split; [done | by eexists]].
    apply String.eqb_eq in Ek as ->.
    destruct (exp payload) as [e|]; [destruct (e <=? utcnow env)%Z |]; simpl;
      intros Hd; try done.
    by left.
Qed.

Lemma verify_token_wrong_type (token : Jwt) :
  claimed_type token ≠ Some "access" →
  verify_token token env w
  = (Raise (HTTPException 401
              (if decodes env token then "Invalid token type"
               else if expired env token then "Token expired"
               else "Could not validate credentials")
              www_authenticate), w, []).
Proof.
  intros Hty. unfold verify_token. unfold_M.
  destruct (decodes env token) eqn:Hd.
  - destruct (jwt_decode_cases token)
      as [(_ & alg & p & -> & ->) | [(Hd' & _) | (Hd' & _)]];
      [| congruence | congruence].
    simpl in Hty. by rewrite bool_decide_eq_true_2.
  - by destruct (jwt_decode_refused token Hd)
      as [(-> & ->) | (-> & what & ->)].
Qed.

Lemma refresh_token_wrong_type (token : Jwt) :
  claimed_type token ≠ Some "refresh" →
  refresh_token {| tr_refresh_token := token |} env w
  = (Raise (HTTPException 401
              (if decodes env token then "Invalid token type"
               else if expired env token then "Refresh token expired"
               else "Could not validate refresh token")
              www_authenticate), w, []).
Proof.
  intros Hty. unfold refresh_token. unfold_M. simpl.
  destruct (decodes env token) eqn:Hd.
  - destruct (jwt_decode_cases token)
      as [(_ & alg & p & -> & ->) | [(Hd' & _) | (Hd' & _)]];
      [| congruence | congruence].
    simpl in Hty. by rewrite bool_decide_eq_true_2.
  - by destruct (jwt_decode_refused token Hd)
      as [(-> & ->) | (-> & what & ->)].
Qed.

End TokenType.

(** C3, as the handlers have it.  A token whose type is not ["access"] is
    refused by [verify_token] with status 401, and a token whose type is
    not ["refresh"] is refused by [refresh_token] with status 401, whatever
    its signature and expiry; the state is unchanged.  The error is
    [WrongTokenType] when the token passes [jwt.decode] (algorithm,
    signature, expiry).  A token that does not is refused by the decoder
    first, and the error is the decoder's: "Token expired" (at the refresh
    endpoint "Refresh token expired") when algorithm and signature are
    accepted and [exp] is not after the clock, and else "Could not
    validate credentials" (at the refresh endpoint "Could not validate
    refresh token"). *)
Theorem wrong_token_type_is_rejected
    (env : Env) (w : World) (presented_as_access presented_as_refresh : Jwt) :
  claimed_type presented_as_access ≠ Some "access" →
  claimed_type presented_as_refresh ≠ Some "refresh" →
  let access_check := verify_token presented_as_access env w in
  let refresh_check :=
    refresh_token {| tr_refresh_token := presented_as_refresh |} env w in
  (http_status (result_of access_check) = 401
   ∧ world_of access_check = w
   ∧ (decodes env presented_as_access = true →
      result_of access_check = Raise WrongTokenType)
   ∧ (decodes env presented_as_access = false →
      result_of access_check
      = Raise (HTTPException 401
                 (if expired env presented_as_access then "Token expired"
                  else "Could not validate credentials")
                 www_authenticate)))
  ∧ (http_status (result_of refresh_check) = 401
     ∧ world_of refresh_check = w
     ∧ (decodes env presented_as_refresh = true →
        result_of refresh_check = Raise WrongTokenType)
     ∧ (decodes env presented_as_refresh = false →
        result_of refresh_check
        = Raise (HTTPException 401
                   (if expired env presented_as_refresh
                    then "Refresh token expired"
                    else "Could not validate refresh token")
                   www_authenticate))).
Proof.
  intros Ha Hr access_check refresh_check. subst access_check refresh_check.
  rewrite (verify_token_wrong_type env w _ Ha).
  rewrite (refresh_token_wrong_type env w _ Hr).
  unfold_M. cbn [fst snd http_status].
  refine (conj (conj eq_refl (conj eq_refl (conj _ _)))
            (conj eq_refl (conj eq_refl (conj _ _)))); by intros ->.
Qed.

Lemma wrong_token_type_is_rejected_witness :
  let access :=
    Signed "HS256" "secret"
      {| sub := Some "a@x.com"; type := Some "access"; exp := Some 1600 |} in
  let refresh :=
    Signed "HS256" "secret"
      {| sub := Some "a@x.com"; type := Some "refresh"; exp := Some 87400 |} in
  let at_expiry := Fixture.at_time 1600 in
  result_of (verify_token refresh Sample.env Sample.world)
  = Raise WrongTokenType
  ∧ result_of (refresh_token {| tr_refresh_token := access |}
                 Sample.env Sample.world)
    = Raise WrongTokenType
  ∧ result_of (refresh_token {| tr_refresh_token := access |}
                 at_expiry Sample.world)
    = Raise (HTTPException 401 "Refresh token expired" www_authenticate).
Proof.
  intros access refresh at_expiry.
  destruct (wrong_token_type_is_rejected Sample.env Sample.world
              refresh access)
    as ((_ & _ & H1 & _) & (_ & _ & H2 & _)); [discriminate | discriminate |].
  destruct (wrong_token_type_is_rejected at_expiry Sample.world
              refresh access)
    as (_ & (_ & _ & _ & H3)); [discriminate | discriminate |].
  split; [apply H1; reflexivity |].
  split; [apply H2; reflexivity | apply H3; reflexivity].
Defined.

(** C3, as stated, fails on an expired refresh token presented to the
    access check: the decoder refuses it first, and the error is
    "Token expired", not [WrongTokenType]. *)
Lemma expired_refresh_token_is_not_WrongTokenType :
  let expired :=
    Signed "HS256" "secret"
      {| sub := Some "a@x.com"; type := Some "refresh"; exp := Some 500 |} in
  claimed_type expired = Some "refresh"
  ∧ result_of (verify_token expired Sample.env Sample.world)
    = Raise (HTTPException 401 "Token expired" www_authenticate)
  ∧ result_of (verify_token expired Sample.env Sample.world)
    ≠ Raise WrongTokenType.
Proof. repeat split. discriminate. Qed.

(** Likewise for a refresh token signed with another key, and for an
    expired access token presented to the refresh endpoint. *)
Example forged_refresh_token_is_not_WrongTokenType :
  result_of (verify_token
               (Signed "HS256" "another key"
                  {| sub := Some "a@x.com"; type := Some "refresh";
                     exp := Some 5000 |})
               Sample.env Sample.world)
  = Raise (HTTPException 401 "Could not validate credentials"
             www_authenticate).
Proof. reflexivity. Qed.

Example expired_access_token_at_refresh :
  result_of (refresh_token
               {| tr_refresh_token :=
                    Signed "HS256" "secret"
                      {| sub := Some "a@x.com"; type := Some "access";
                         exp := Some 500 |} |}
               Sample.env Sample.world)
  = Raise (HTTPException 401 "Refresh token expired" www_authenticate).
Proof. reflexivity. Qed.

(** The tokens of the right type are accepted: the checks do return. *)
Example tokens_of_the_right_type :
  result_of (verify_token
               (Signed "HS256" "secret"
                  {| sub := Some "a@x.com"; type := Some "access";
                     exp := Some 1600 |})
               Sample.env Sample.world)
  = Return "a@x.com"
  ∧ http_status
      (result_of (refresh_token
                    {| tr_refresh_token :=
                         Signed "HS256" "secret"
                           {| sub := Some "a@x.com"; type := Some "refresh";
                              exp := Some 87400 |} |}
                    Sample.env Sample.world))
    = 200.
Proof. by vm_compute. Qed.

(** ** The standalone asset delete *)

Lemma delete_car_image_existing
    (env : Env) (w : World) (filename : string) (U : UserDB) :
  is_Some (files w !! in_upload_dir filename) →
  unlink_error env = None →
  delete_car_image filename U env w
  = (Return ("Image " +:+ filename +:+ " deleted successfully"),
     set_files (delete (in_upload_dir filename) (files w)) w,
     [(FileUnlinked (in_upload_dir filename),
       set_files (delete (in_upload_dir filename) (files w)) w)]).
Proof.
  intros Hex Hu. unfold delete_car_image. unfold_M.
  rewrite bool_decide_eq_true_2 by done. simpl.
  destruct Hex as [data ->]. by rewrite Hu.
Qed.



(** A path that is neither a file nor a directory is a 404, and nothing
    changes. *)
Lemma delete_car_image_missing
    (env : Env) (w : World) (filename : string) (U : UserDB) :
  files w !! in_upload_dir filename = None →
  is_dir env (in_upload_dir filename) = false →
  delete_car_image filename U env w
  = (Raise (HTTPException 404 "Image not found" []), w, []).
Proof.
  intros Hnone Hdir. unfold delete_car_image. unfold_M.
  rewrite Hdir, bool_decide_eq_false_2; [done |]. rewrite Hnone.
  by intros [? ?].
Qed.

(** A directory exists and cannot be unlinked: the answer is 500.  The
    names [""] and ["."] stand for the upload directory itself. *)
Lemma delete_car_image_directory
    (env : Env) (w : World) (filename : string) (U : UserDB) :
  files w !! in_upload_dir filename = None →
  is_dir env (in_upload_dir filename) = true →
  delete_car_image filename U env w
  = (Raise (HTTPException 500 "Failed to delete file: IsADirectoryError" []),
     w, []).
Proof.
  intros Hnone Hdir. unfold delete_car_image. unfold_M.
  rewrite Hdir, orb_true_r. cbn [negb]. by rewrite Hnone, Hdir.
Qed.

Example delete_car_image_of_the_directory :
  result_of (delete_car_image "." Sample.bob Sample.env Sample.world)
  = Raise (HTTPException 500 "Failed to delete file: IsADirectoryError" []).
Proof. reflexivity. Qed.

(** ** Partial updates *)

(** The loop of [update_car] over the items of the request. *)
Lemma update_loop (u : CarUpdate) (c : CarDB) :
  fold_left setattr (dict_exclude_unset u) c = updated u c.
Proof.
  destruct c, u as [[] [] [] [] [] [] [] [] [] [] []]; reflexivity.
Qed.

(** The loop of [update_car_with_image] over [update_fields]. *)
Lemma update_form_loop (form : CarUpdateForm) (url : option string)
    (c : CarDB) :
  fold_left setattr
    (filter (fun a => is_not_None a = true) (update_fields form url)) c
  = updated_form form url c.
Proof.
  destruct c, form as [[] [] [] [] [] [] [] [] [] []], url; reflexivity.
Qed.

Lemma update_car_owner
    (env : Env) (w : World) (L : CarDB) (U : UserDB) (u : CarUpdate) :
  stored w L →
  seller_id L = Some (user_id U) →
  commit_error env = None →
  update_car (id L) u U env w
  = (match validate_Car (updated u L) with
     | Some r => Return r
     | None => Raise (Exception "ValidationError")
     end,
     set_cars (<[id L := updated u L]> (cars w)) w,
     [(CarUpdated (updated u L),
       set_cars (<[id L := updated u L]> (cars w)) w)]).
Proof.
  intros HL Hown Hc. unfold update_car. unfold_M. rewrite HL.
  rewrite bool_decide_eq_false_2 by (intros H; by apply H).
  rewrite Hc, update_loop. simpl.
  by destruct (validate_Car (updated u L)).
Qed.

(** C5. An update by the owner commits a row in which every field present
    in the request body has the value of the request and every absent
    field, as well as [id], [seller_id] and [created_at], has its prior
    value; the other rows, the users and the files are untouched.  With
    only [price] in the body, the new row is the old one with its price
    replaced. *)
Theorem update_car_overwrites_only_given_fields
    (env : Env) (w : World) (L : CarDB) (U : UserDB) (u : CarUpdate) :
  stored w L →
  seller_id L = Some (user_id U) →
  commit_error env = None →
  let run := update_car (id L) u U env w in
  ∃ L', cars (world_of run) !! id L = Some L'
    ∧ events_of run = [CarUpdated L']
    ∧ id L' = id L
    ∧ seller_id L' = seller_id L
    ∧ created_at L' = created_at L
    ∧ make L' = chosen (cu_make u) (make L)
    ∧ model L' = chosen (cu_model u) (model L)
    ∧ year L' = chosen (cu_year u) (year L)
    ∧ price L' = chosen (cu_price u) (price L)
    ∧ mileage L' = chosen (cu_mileage u) (mileage L)
    ∧ description L' = chosen (cu_description u) (description L)
    ∧ color L' = chosen (cu_color u) (color L)
    ∧ fuel_type L' = chosen (cu_fuel_type u) (fuel_type L)
    ∧ transmission L' = chosen (cu_transmission u) (transmission L)
    ∧ image L' = chosen (cu_image u) (image L)
    ∧ is_sold L' = chosen (cu_is_sold u) (is_sold L)
    ∧ (∀ v, u = price_only v →
            make L' = make L ∧ model L' = model L ∧ year L' = year L
            ∧ price L' = v
            ∧ mileage L' = mileage L ∧ description L' = description L
            ∧ color L' = color L ∧ fuel_type L' = fuel_type L
            ∧ transmission L' = transmission L ∧ image L' = image L
            ∧ seller_id L' = seller_id L ∧ created_at L' = created_at L
            ∧ is_sold L' = is_sold L)
    ∧ (∀ k, k ≠ id L → cars (world_of run) !! k = cars w !! k)
    ∧ users (world_of run) = users w
    ∧ files (world_of run) = files w.
Proof.
  intros HL Hown Hc run. subst run.
  rewrite (update_car_owner env w L U u HL Hown Hc).
  exists (updated u L). unfold_M. simpl.
  rewrite lookup_insert_eq. repeat split; intros; subst; try done.
  by rewrite lookup_insert_ne.
Qed.

Lemma update_car_overwrites_only_given_fields_witness :
  let run :=
    update_car "car-1" (price_only (Some 24000%float)) Sample.alice
      Sample.env Sample.world in
  ∃ L', cars (world_of run) !! "car-1" = Some L'
    ∧ price L' = Some 24000%float
    ∧ make L' = Some "Toyota"
    ∧ mileage L' = Some 30000
    ∧ image L' = Some "/uploads/old.jpg"
    ∧ seller_id L' = Some "alice-id"
    ∧ is_sold L' = Some false.
Proof.
  intros run.
  destruct (update_car_overwrites_only_given_fields Sample.env Sample.world
              Sample.camry Sample.alice (price_only (Some 24000%float)))
    as (L' & H1 & _ & _ & _ & _ & _ & _ & _ & _ & _ & _ & _ & _ & _ & _ & _
        & Hprice & _);
    [reflexivity | reflexivity | reflexivity |].
  destruct (Hprice _ eq_refl)
    as (Hmk & _ & _ & Hpr & Hmi & _ & _ & _ & _ & Him & Hse & _ & Hso).
  exists L'. exact (conj H1 (conj Hpr (conj Hmk (conj Hmi (conj Him
                     (conj Hse Hso)))))).
Defined.

(** A field present as [null] is overwritten too: the row is committed
    with the column empty, and the response model then refuses it. *)
Example update_car_given_null :
  let run :=
    update_car "car-1" (price_only None) Sample.alice Sample.env
      Sample.world in
  (price <$> cars (world_of run) !! "car-1") = Some None
  ∧ http_status (result_of run) = 500.
Proof. by vm_compute. Qed.

(** The multipart update without a file: the same rule, a field being
    absent when the form does not carry it; the image stays. *)
Lemma update_car_with_image_fields_only
    (env : Env) (w : World) (L : CarDB) (U : UserDB) (form : CarUpdateForm) :
  stored w L →
  seller_id L = Some (user_id U) →
  commit_error env = None →
  let L' := updated_form form (image L) L in
  let w' := set_cars (<[id L := L']> (cars w)) w in
  image L' = image L
  ∧ update_car_with_image (id L) form None U env w
    = (match validate_Car L' with
       | Some r => Return r
       | None =>
           Raise (HTTPException 500 "Failed to update car: ValidationError" [])
       end, w', [(CarUpdated L', w')]).
Proof.
  intros HL Hown Hc L' w'. split; [subst L'; simpl; by destruct (image L) |].
  unfold update_car_with_image. unfold_M. rewrite HL.
  rewrite bool_decide_eq_false_2 by (intros H; by apply H).
  cbn [image_url old_image_path file_path]. rewrite update_form_loop.
  fold L'. rewrite Hc. cbn [id L' updated_form]. fold L'. fold w'.
  by destruct (validate_Car L').
Qed.

(** ** Image validation and naming *)



Section Store.

Variables (env : Env) (w : World) (file : UploadFile) (U : UserDB).



Lemma upload_car_image_stored :
  type_refused file = false →
  too_large (contents file) = false →
  write_error env = None →
  let unique_filename := uuid4 env 0 +:+ file_extension file in
  let stored_files :=
    <[in_upload_dir unique_filename := contents file]> (files w) in
  upload_car_image file U env w
  = (Return {| ur_filename := unique_filename;
               ur_url := "/uploads/" +:+ unique_filename;
               ur_message := "Image uploaded successfully" |},
     set_files stored_files w,
     [(FileWritten (in_upload_dir unique_filename),
       set_files stored_files w)]).
Proof.
  intros H1 H2 H3. unfold upload_car_image. rewrite H1, H2. unfold_M.
  by rewrite H3.
Qed.




End Store.




(** For a name whose extension is already in lower case, the stored
    extension is the original one; a name with no extension gets ".jpg". *)
Lemma lower_case_extension_is_kept (file : UploadFile) :
  PyStr.lower (Path.suffix (filename file)) = Path.suffix (filename file) →
  file_extension file = extension_as_specified file.
Proof. unfold file_extension, extension_as_specified. by intros ->. Qed.

Example default_extension :
  file_extension {| filename := "snapshot"; content_type := Some "image/webp";
                    contents := [] |} = ".jpg".
Proof. reflexivity. Qed.

(** ** Paths *)

Lemma app_empty (b : string) : "" +:+ b = b.
Proof. reflexivity. Qed.

Lemma app_String (c : ascii) (a b : string) :
  String c a +:+ b = String c (a +:+ b).
Proof. reflexivity. Qed.

Lemma free_of_app (c : ascii) (a b : string) :
  free_of c (a +:+ b) = (free_of c a && free_of c b)%bool.
Proof.
  induction a as [|d a IH]; [done |]. rewrite app_String. simpl.
  by rewrite IH, andb_assoc.
Qed.

(** A string without the separator is its own single piece. *)
Lemma split_on_single (sep : ascii) (s : string) :
  free_of sep s = true → PyStr.split_on sep s = [s].
Proof.
  induction s as [|c s IH]; [done |]. simpl. intros H.
  apply andb_true_iff in H as [Hc Hs]. apply negb_true_iff in Hc.
  by rewrite Hc, (IH Hs).
Qed.

Lemma single_component_parts (name : string) :
  single_component name = true → Path.parts name = [name].
Proof.
  unfold single_component, Path.parts. intros H.
  apply andb_true_iff in H as [H Hfree].
  apply andb_true_iff in H as [Hne Hdot].
  apply negb_true_iff, String.eqb_neq in Hne, Hdot.
  rewrite (split_on_single _ _ Hfree).
  rewrite filter_cons_True by done. done.
Qed.

Lemma single_component_relative (name : string) :
  single_component name = true → PyStr.startswith name "/" = false.
Proof.
  unfold single_component, PyStr.startswith. intros H.
  apply andb_true_iff in H as [_ Hfree].
  destruct name as [|c name]; [done |]. simpl in Hfree.
  apply andb_true_iff in Hfree as [Hc _]. apply negb_true_iff in Hc.
  cbn [String.prefix]. by destruct (ascii_dec "/" c) as [<- | _].
Qed.

(** A name of one component lies directly in the upload directory. *)
Lemma in_upload_dir_relative (name : string) :
  single_component name = true → in_upload_dir name = "uploads/" +:+ name.
Proof.
  intros H. unfold in_upload_dir, Path.join.
  rewrite (single_component_relative _ H), (single_component_parts _ H).
  reflexivity.
Qed.

Lemma remove_all_free (s : string) :
  free_of "/" s = true → PyStr.remove_all "/uploads/" s = s.
Proof.
  unfold PyStr.remove_all. induction s as [|c s IH]; [done |].
  intros H. simpl in H. apply andb_true_iff in H as [Hc Hs].
  apply negb_true_iff in Hc. cbn [PyStr.remove_from String.prefix].
  destruct (ascii_dec "/" c) as [<- | _]; [done |]. by rewrite (IH Hs).
Qed.

Lemma prefix_uploads (name : string) :
  String.prefix "/uploads/" ("/uploads/" +:+ name) = true.
Proof. simpl. by destruct name. Qed.

Lemma remove_all_uploads (name : string) :
  PyStr.remove_all "/uploads/" ("/uploads/" +:+ name)
  = PyStr.remove_all "/uploads/" name.
Proof.
  unfold PyStr.remove_all.
  change (PyStr.remove_from "/uploads/" 0 ("/uploads/" +:+ name))
    with (if String.prefix "/uploads/" ("/uploads/" +:+ name)
          then PyStr.remove_from "/uploads/" 0 name
          else String "/" (PyStr.remove_from "/uploads/" 0
                             ("uploads/" +:+ name))).
  by rewrite prefix_uploads.
Qed.

(** The path that [update_car_with_image] computes from the URL that the
    upload handlers give to a stored file is the path of that file. *)
Lemma url_of_upload_resolves (c : CarDB) (name : string) :
  single_component name = true →
  image c = Some ("/uploads/" +:+ name) →
  old_image_path_of c = Some ("uploads/" +:+ name).
Proof.
  intros Hname Himg. unfold old_image_path_of. rewrite Himg.
  rewrite bool_decide_eq_true_2 by done.
  assert (PyStr.startswith ("/uploads/" +:+ name) "/uploads/" = true) as ->
    by apply prefix_uploads.
  cbn [andb]. f_equal.
  rewrite remove_all_uploads, remove_all_free.
  - by apply in_upload_dir_relative.
  - unfold single_component in Hname. by apply andb_true_iff in Hname as [_ ?].
Qed.

(** An image that is empty or not under ["/uploads/"] names no file to
    clean up. *)
Lemma no_old_image_path (c : CarDB) :
  (∀ img, image c = Some img → PyStr.startswith img "/uploads/" = false) →
  old_image_path_of c = None.
Proof.
  intros H. unfold old_image_path_of. destruct (image c) as [img|]; [| done].
  by rewrite (H img eq_refl), andb_false_r.
Qed.

(** ** Replacing the image of a listing *)

Section Replacement.

Variables (env : Env) (w : World) (L : CarDB) (U : UserDB).
Variables (form : CarUpdateForm) (file : UploadFile).

Let unique_filename : string := uuid4 env 0 +:+ file_extension file.
Let new_path : string := in_upload_dir unique_filename.
Let new_url : string := "/uploads/" +:+ unique_filename.
Let L' : CarDB := updated_form form (Some new_url) L.

(** The state once the new file is written, *)
Let w1 : World := set_files (<[new_path := contents file]> (files w)) w.
(** once the row is committed, *)
Let w2 : World := set_cars (<[id L := L']> (cars w1)) w1.
(** once the old file, if the listing had one that exists, is gone, *)
Let w3 : World :=
  match old_image_path_of L with
  | Some old =>
      if bool_decide (is_Some (files w !! old))
      then set_files (delete old (files w2)) w2
      else w2
  | None => w2
  end.
(** and once the new file is removed again. *)
Let w4 : World := set_files (delete new_path (files w3)) w3.

Let cleaned : Log :=
  match old_image_path_of L with
  | Some old =>
      if bool_decide (is_Some (files w !! old))
      then [(FileUnlinked old, w3)]
      else []
  | None => []
  end.

Hypothesis L_stored : stored w L.
Hypothesis U_owner : seller_id L = Some (user_id U).
Hypothesis type_accepted : type_refused file = false.
Hypothesis size_accepted : too_large (contents file) = false.
Hypothesis normal : no_failure env.
Hypothesis fresh : old_image_path_of L ≠ Some new_path.

(** The run up to the response: the write, the commit, and the removal
    of the old file. *)
Lemma update_car_with_image_committed :
  old_image_is_dir env w L = false →
  update_car_with_image (id L) form (Some file) U env w
  = match validate_Car L' with
    | Some r =>
        (Return r, w3,
         ((FileWritten new_path, w1) :: (CarUpdated L', w2) :: cleaned)%list)
    | None =>
        (Raise (HTTPException 500 "Failed to update car: ValidationError" []),
         w4,
         ((FileWritten new_path, w1) :: (CarUpdated L', w2)
          :: cleaned ++ [(FileUnlinked new_path, w4)])%list)
    end.
Proof.
  intros Hdir. destruct normal as (Hc & Hw & Hu).
  unfold update_car_with_image. unfold_M. rewrite L_stored.
  rewrite bool_decide_eq_false_2 by (intros H; by apply H).
  rewrite type_accepted, size_accepted, Hw. cbn [image_url old_image_path
    file_path]. rewrite update_form_loop.
  fold unique_filename. fold new_url. fold L'. rewrite Hc.
  cbn [id L' updated_form]. fold L'. fold new_path. fold w1. fold w2.
  unfold old_image_is_dir in Hdir. subst w4 cleaned w3.
  destruct (old_image_path_of L) as [old|] eqn:Hold.
  - assert (Hne : new_path ≠ old) by (intros ->; by apply fresh).
    assert (Hlook : files w2 !! old = files w !! old).
    { cbn [files w2 w1 set_cars set_files]. by rewrite lookup_insert_ne. }
    destruct (files w !! old) as [data|] eqn:Hdata.
    + rewrite Hlook, (bool_decide_eq_true_2 (is_Some (Some data))) by eauto.
      cbn [orb]. rewrite Hlook, Hu. cbn [fst snd].
      destruct (validate_Car L') as [r|]; [done |].
      assert (Hne' : old ≠ new_path) by done.
      cbn [files set_files]. rewrite lookup_delete_ne by done.
      cbn [files w2 w1 set_cars set_files]. rewrite lookup_insert_eq.
      rewrite bool_decide_eq_true_2 by eauto.
      cbn [orb files w2 w1 set_cars set_files].
      rewrite lookup_delete_ne by done. rewrite lookup_insert_eq, Hu. done.
    + rewrite bool_decide_eq_true_2 in Hdir by done. cbn [andb] in Hdir.
      rewrite Hlook, (bool_decide_eq_false_2 (is_Some None))
        by (by intros [? ?]).
      cbn [orb]. rewrite Hdir. cbn [fst snd].
      destruct (validate_Car L') as [r|]; [done |].
      cbn [files w2 w1 set_cars set_files]. rewrite lookup_insert_eq.
      rewrite bool_decide_eq_true_2 by eauto.
      cbn [orb files w2 w1 set_cars set_files].
      rewrite lookup_insert_eq, Hu. done.
  - destruct (validate_Car L') as [r|]; [done |].
    cbn [files w2 w1 set_cars set_files]. rewrite lookup_insert_eq.
    rewrite bool_decide_eq_true_2 by eauto.
    cbn [orb files w2 w1 set_cars set_files].
    rewrite lookup_insert_eq, Hu. done.
Qed.


End Replacement.



(** Without a new file the image column and the upload directory are left
    alone. *)
Example update_car_with_image_no_file :
  let run :=
    update_car_with_image "car-1" Sample.no_fields None Sample.alice
      Sample.env Sample.world in
  http_status (result_of run) = 200
  ∧ events_of run = [CarUpdated Sample.camry]
  ∧ files (world_of run) !! "uploads/old.jpg" = Some Sample.jpeg_bytes.
Proof. by vm_compute. Qed.

(** When the commit fails, the new file is removed again and the row and
    the old file stay. *)
Example update_car_with_image_commit_failure :
  let failing := Fixture.broken (Some "connection lost") None in
  let run :=
    update_car_with_image "car-1" Sample.no_fields (Some Sample.photo)
      Sample.alice failing Sample.world in
  result_of run
  = Raise (HTTPException 500 "Failed to update car: connection lost" [])
  ∧ events_of run
    = [FileWritten "uploads/6f1c.png"; FileUnlinked "uploads/6f1c.png"]
  ∧ cars (world_of run) !! "car-1" = Some Sample.camry
  ∧ files (world_of run) !! "uploads/old.jpg" = Some Sample.jpeg_bytes
  ∧ files (world_of run) !! "uploads/6f1c.png" = None.
Proof. by vm_compute. Qed.

(** Outside normal operation: when the response model refuses the
    committed row (a required column is empty, here [make], as
    [update_car] can leave it), the handler of the second [try] runs after
    the commit and after the old file is gone, and removes the new file
    too; the request answers 500. *)
Example update_car_with_image_refused_response :
  let w :=
    set_cars {[ "car-1" := setattr Sample.camry (set_make None) ]}
      Sample.world in
  let run :=
    update_car_with_image "car-1" Sample.no_fields (Some Sample.photo)
      Sample.alice Sample.env w in
  http_status (result_of run) = 500
  ∧ events_of run
    = [FileWritten "uploads/6f1c.png";
       CarUpdated
         (setattr (setattr Sample.camry (set_make None))
            (set_image (Some "/uploads/6f1c.png")));
       FileUnlinked "uploads/old.jpg";
       FileUnlinked "uploads/6f1c.png"]
  ∧ (image <$> cars (world_of run) !! "car-1")
    = Some (Some "/uploads/6f1c.png")
  ∧ files (world_of run) !! "uploads/6f1c.png" = None.
Proof. by vm_compute. Qed.

(** The effects of any run with a new file, failed or not: nothing, or
    the write alone, or the write undone, or the write, then the commit,
    then unlinks only.  No file is unlinked before the commit, and nothing
    is committed before the write. *)
Lemma update_car_with_image_events
    (env : Env) (w : World) (car_id : string) (form : CarUpdateForm)
    (file : UploadFile) (U : UserDB) :
  let new := in_upload_dir (uuid4 env 0 +:+ file_extension file) in
  let evs :=
    events_of (update_car_with_image car_id form (Some file) U env w) in
  evs = []
  ∨ evs = [FileWritten new]
  ∨ evs = [FileWritten new; FileUnlinked new]
  ∨ ∃ c unlinks,
      evs = FileWritten new :: CarUpdated c :: unlinks
      ∧ Forall (fun ev => ∃ p, ev = FileUnlinked p) unlinks.
Proof.
  intros new evs. subst evs new. unfold update_car_with_image. unfold_M.
  destruct (cars w !! car_id) as [L|]; [| by left].
  destruct (bool_decide _); [by left |].
  destruct (type_refused file); [by left |].
  destruct (too_large _); [by left |].
  destruct (write_error env) as [[msg|msg n]|];
    [by left | right; by left |].
  cbn [image_url old_image_path file_path fst snd].
  destruct (commit_error env).
  - cbn [files set_files]. rewrite lookup_insert_eq.
    rewrite bool_decide_eq_true_2 by eauto. cbn [orb files set_files].
    rewrite lookup_insert_eq.
    destruct (unlink_error env); cbn; auto.
  - right; right; right.
    repeat (case_match; simplify_eq/=); eexists _, _; (split; [reflexivity |]);
      repeat constructor; eauto.
Qed.

(** ** A session

    Two users register; the first creates a listing and lowers its price;
    the second may not delete it; the first deletes it. *)
Example session :
  let w1 := handle (Register Sample.carol) Sample.env initial in
  let w2 := handle (Register Sample.dave) Sample.later w1 in
  let w3 := handle (CreateCar Sample.carol_token Sample.civic) Sample.env w2 in
  let w4 :=
    handle (UpdateCar Sample.carol_token "6f1c"
              (price_only (Some 24000%float))) Sample.env w3 in
  let w5 := handle (DeleteCar Sample.carol_token "6f1c") Sample.env w4 in
  length (users w2) = 2%nat
  ∧ (price <$> cars w3 !! "6f1c") = Some (Some 18000%float)
  ∧ (price <$> cars w4 !! "6f1c") = Some (Some 24000%float)
  ∧ result_of (authenticated Sample.dave_token (delete_car "6f1c")
                 Sample.later w4)
    = Raise Forbidden_delete
  ∧ handle (DeleteCar Sample.dave_token "6f1c") Sample.later w4 = w4
  ∧ cars w5 !! "6f1c" = None.
Proof. repeat split. Qed.

(** ** Price and mileage

    A small logic for the monad: [keeps m Q] is proved along the structure
    of the handler, from the rules of the monad and one lemma for each
    primitive of the session and of the file system. *)

Section Rules.
Context {A B : Type}.

Lemma keeps_ret (a : A) (Q : A → Prop) : Q a → keeps (mret a) Q.
Proof. intros Ha env w Hw. split; [done |]. by intros ? [= <-]. Qed.

Lemma keeps_raise (e : exn) (Q : A → Prop) : keeps (raise e) Q.
Proof. intros env w Hw. by split. Qed.

Lemma keeps_bind (m : M A) (f : A → M B) (Q : A → Prop) (R : B → Prop) :
  keeps m Q → (∀ a, Q a → keeps (f a) R) → keeps (m ≫= f) R.
Proof.
  intros Hm Hf env w Hw. specialize (Hm env w Hw). revert Hm.
  unfold_M. destruct (m env w) as [[[a|e] w1] l1]; simpl; intros [Hw1 Ha].
  - specialize (Hf a (Ha a eq_refl) env w1 Hw1). revert Hf. unfold_M.
    by destruct (f a env w1) as [[? ?] ?].
  - by split.
Qed.

Lemma keeps_try (body : M A) (h : exn → M A) (Q : A → Prop) :
  keeps body Q → (∀ e, keeps (h e) Q) → keeps (try_except body h) Q.
Proof.
  intros Hm Hh env w Hw. specialize (Hm env w Hw). revert Hm.
  unfold_M. destruct (body env w) as [[[a|e] w1] l1]; simpl; intros [Hw1 Ha].
  - by split.
  - specialize (Hh e env w1 Hw1). revert Hh. unfold_M.
    by destruct (h e env w1) as [[? ?] ?].
Qed.

Lemma keeps_weaken (m : M A) (Q Q' : A → Prop) :
  keeps m Q → (∀ a, Q a → Q' a) → keeps m Q'.
Proof.
  intros Hm HQ env w Hw. destruct (Hm env w Hw) as [H1 H2]. split; [done |].
  intros a Ha. by apply HQ, H2.
Qed.
End Rules.

Lemma keeps_ask : keeps ask any.
Proof. intros env w Hw. by split. Qed.

Lemma keeps_uuid4_str n : keeps (uuid4_str n) any.
Proof. intros env w Hw. by split. Qed.

Lemma keeps_query_user e : keeps (query_user_by_email e) any.
Proof. intros env w Hw. by split. Qed.

Lemma keeps_query_car car_id :
  keeps (query_car_by_id car_id) (fun r => ∀ c, r = Some c → listing_nonneg c).
Proof.
  intros env w Hw. split; [done |]. unfold_M. intros ? [= <-] c Hc.
  by apply (Hw car_id).
Qed.

Lemma keeps_path_exists p : keeps (path_exists p) any.
Proof. intros env w Hw. by split. Qed.

Lemma keeps_write_file p data : keeps (write_file p data) any.
Proof.
  intros env w Hw. unfold write_file. unfold_M.
  by destruct (write_error env) as [[msg|msg n]|].
Qed.

Lemma keeps_unlink p : keeps (unlink p) any.
Proof.
  intros env w Hw. unfold unlink. unfold_M.
  destruct (files w !! p); [by destruct (unlink_error env) |].
  by destruct (is_dir env p).
Qed.

Lemma keeps_add_user u : keeps (add_user u) any.
Proof.
  intros env w Hw. unfold add_user. unfold_M.
  destruct (violates_unique _ _); [done |]. by destruct (commit_error env).
Qed.

Lemma keeps_add_car c :
  listing_nonneg c → keeps (add_car c) any.
Proof.
  intros Hc env w Hw. unfold add_car. unfold_M.
  destruct (cars w !! id c); [done |].
  destruct (commit_error env); [done |]. simpl. split; [| done].
  by apply map_Forall_insert_2.
Qed.

Lemma keeps_commit_car c :
  listing_nonneg c → keeps (commit_car c) any.
Proof.
  intros Hc env w Hw. unfold commit_car. unfold_M.
  destruct (commit_error env); [done |]. simpl. split; [| done].
  by apply map_Forall_insert_2.
Qed.

Lemma keeps_delete_row c : keeps (delete_row c) any.
Proof.
  intros env w Hw. unfold delete_row. unfold_M.
  destruct (commit_error env); [done |]. simpl. split; [| done].
  by apply map_Forall_delete.
Qed.

Lemma keeps_Car_of c : keeps (Car_of c) any.
Proof. intros env w Hw. unfold Car_of. by destruct (validate_Car c). Qed.

Lemma keeps_jwt_decode t k algs : keeps (jwt_decode t k algs) any.
Proof.
  intros env w Hw. unfold jwt_decode. unfold_M.
  repeat case_match; simplify_eq; by split.
Qed.

Create HintDb keeps.
#[local] Hint Resolve keeps_ask keeps_uuid4_str keeps_query_user keeps_query_car
  keeps_path_exists keeps_write_file keeps_unlink keeps_add_user
  keeps_delete_row keeps_Car_of keeps_jwt_decode : keeps.

Ltac keeps_step :=
  lazymatch goal with
  | |- keeps (mret _) _ => by apply keeps_ret
  | |- keeps (ret _) _ => by apply keeps_ret
  | |- keeps (raise _) _ => apply keeps_raise
  | |- keeps (_ ≫= _) _ =>
      first [ eapply keeps_bind; [apply keeps_query_car | intros ? ?]
            | apply (keeps_bind _ _ any); [| intros ? _] ]
  | |- keeps (try_except _ _) _ => apply keeps_try; [| intros ?]
  | |- keeps (when_ ?b _) _ => destruct b; unfold when_
  | |- keeps (if ?b then _ else _) _ => destruct b eqn:?
  | |- keeps (match ?x with _ => _ end) _ => destruct x eqn:?
  | |- keeps _ _ => first [ solve [eauto with keeps]
                          | eapply keeps_weaken; [solve [eauto with keeps] | done] ]
  end.

Lemma keeps_verify_token cred : keeps (verify_token cred) any.
Proof. unfold verify_token. repeat keeps_step. Qed.

Lemma keeps_get_current_user cred : keeps (get_current_user cred) any.
Proof.
  unfold get_current_user. keeps_step; [apply keeps_verify_token |].
  repeat keeps_step.
Qed.

Lemma keeps_create_car car U :
  nonneg_price (cc_price car) → (0 ≤ cc_mileage car)%Z →
  keeps (create_car car U) any.
Proof.
  intros Hp Hm. unfold create_car. keeps_step; [keeps_step |].
  keeps_step; [| keeps_step].
  apply keeps_add_car. split; simpl; by intros ? [= <-].
Qed.

Lemma updated_nonneg u L :
  listing_nonneg L →
  (∀ p, cu_price u = Given (Some p) → nonneg_price p) →
  (∀ m, cu_mileage u = Given (Some m) → (0 ≤ m)%Z) →
  listing_nonneg (updated u L).
Proof.
  intros [Hp Hm] Hup Hum. split; simpl.
  - destruct (cu_price u) as [|[p|]]; simpl; [done | | done].
    intros ? [= <-]. by apply Hup.
  - destruct (cu_mileage u) as [|[m|]]; simpl; [done | | done].
    intros ? [= <-]. by apply Hum.
Qed.

Lemma updated_form_nonneg form url L :
  listing_nonneg L →
  (∀ p, uf_price form = Some p → nonneg_price p) →
  (∀ m, uf_mileage form = Some m → (0 ≤ m)%Z) →
  listing_nonneg (updated_form form url L).
Proof.
  intros [Hp Hm] Hup Hum. split; simpl.
  - destruct (uf_price form) as [p|]; simpl; [| done].
    intros ? [= <-]. by apply Hup.
  - destruct (uf_mileage form) as [m|]; simpl; [| done].
    intros ? [= <-]. by apply Hum.
Qed.

Lemma keeps_upload_car_with_image form file U :
  nonneg_price (cf_price form) → (0 ≤ cf_mileage form)%Z →
  keeps (upload_car_with_image form file U) any.
Proof.
  intros Hp Hm. unfold upload_car_with_image, invalid_file_type, file_too_large.
  repeat keeps_step.
  apply keeps_add_car. split; simpl; by intros ? [= <-].
Qed.

Lemma keeps_update_car car_id u U :
  (∀ p, cu_price u = Given (Some p) → nonneg_price p) →
  (∀ m, cu_mileage u = Given (Some m) → (0 ≤ m)%Z) →
  keeps (update_car car_id u U) any.
Proof.
  intros Hp Hm. unfold update_car, car_not_found, not_authorized_update.
  repeat keeps_step.
  rewrite update_loop. apply keeps_commit_car, updated_nonneg; auto.
Qed.

Lemma keeps_update_car_with_image car_id form file U :
  (∀ p, uf_price form = Some p → nonneg_price p) →
  (∀ m, uf_mileage form = Some m → (0 ≤ m)%Z) →
  keeps (update_car_with_image car_id form file U) any.
Proof.
  intros Hp Hm.
  unfold update_car_with_image, car_not_found, not_authorized_update,
    invalid_file_type, file_too_large.
  repeat keeps_step.
  rewrite update_form_loop. apply keeps_commit_car, updated_form_nonneg; auto.
Qed.

Lemma keeps_delete_car car_id U : keeps (delete_car car_id U) any.
Proof.
  unfold delete_car, car_not_found.
  repeat keeps_step.
Qed.

Lemma keeps_upload_car_image file U : keeps (upload_car_image file U) any.
Proof.
  unfold upload_car_image, invalid_file_type, file_too_large.
  repeat keeps_step.
Qed.

Lemma keeps_delete_car_image filename U :
  keeps (delete_car_image filename U) any.
Proof. unfold delete_car_image. repeat keeps_step. Qed.

Lemma keeps_register user : keeps (register user) any.
Proof. unfold register. repeat keeps_step. Qed.

Lemma keeps_post_register body : keeps (post_register body) any.
Proof.
  unfold post_register, UserCreate_validate.
  keeps_step; [repeat keeps_step | apply keeps_register].
Qed.

Lemma keeps_authenticated {A} cred (h : UserDB → M A) :
  (∀ u, keeps (h u) any) → keeps (authenticated cred h) any.
Proof.
  intros Hh. unfold authenticated.
  keeps_step; [apply keeps_get_current_user | apply Hh].
Qed.

Lemma handle_nonneg req env w :
  supplies_nonneg req → cars_nonneg w → cars_nonneg (handle req env w).
Proof.
  intros Hreq Hw. destruct req; simpl in Hreq |- *.
  - by apply keeps_post_register.
  - destruct Hreq. apply keeps_authenticated; [| done].
    intros u. by apply keeps_create_car.
  - destruct Hreq. apply keeps_authenticated; [| done].
    intros u. by apply keeps_upload_car_with_image.
  - destruct Hreq. apply keeps_authenticated; [| done].
    intros u. by apply keeps_update_car.
  - destruct Hreq. apply keeps_authenticated; [| done].
    intros u. by apply keeps_update_car_with_image.
  - apply keeps_authenticated; [| done]. apply keeps_delete_car.
  - apply keeps_authenticated; [| done]. apply keeps_upload_car_image.
  - apply keeps_authenticated; [| done]. apply keeps_delete_car_image.
Qed.

(** C8, as the handlers have it.  The handlers check no sign.  In every
    state reached from the empty one through requests of the public
    interface whose prices are numbers [p] with [0 <= p] (so neither
    negative nor NaN) and whose mileages are not negative, every listing
    has a price [p] with [0 <= p] and a mileage that is not negative,
    where the column is not empty. *)
Theorem listings_nonneg_when_requests_are (w : World) :
  reachable_nonneg w →
  ∀ k c, cars w !! k = Some c → listing_nonneg c.
Proof.
  induction 1 as [|w env req Hr IH Hreq].
  - intros k c. unfold initial, cars. by rewrite lookup_empty.
  - by apply handle_nonneg.
Qed.

Lemma listings_nonneg_when_requests_are_witness :
  let w :=
    handle (CreateCar Sample.carol_token Sample.civic) Sample.env
      (handle (Register Sample.carol) Sample.env initial) in
  ∃ c, cars w !! "6f1c" = Some c
       ∧ price c = Some 18000%float
       ∧ mileage c = Some 42000
       ∧ listing_nonneg c.
Proof.
  intros w.
  assert (Hc : cars w !! "6f1c"
               = Some {| id := "6f1c"; make := Some "Honda";
                         model := Some "Civic"; year := Some 2019;
                         price := Some 18000%float; mileage := Some 42000;
                         description := None; color := Some "Blue";
                         fuel_type := Some "Gasoline";
                         transmission := Some "Manual";
                         image := Some "/uploads/civic.jpg";
                         seller_id := Some "6f1c";
                         created_at := Some 1000; is_sold := Some false |})
    by reflexivity.
  eexists. split; [exact Hc |]. split; [reflexivity |].
  split; [reflexivity |].
  apply (listings_nonneg_when_requests_are w) with (k := "6f1c");
    [| exact Hc].
  apply reachable_handle; [apply reachable_handle |].
  - apply reachable_initial.
  - exact I.
  - split; [reflexivity | unfold Sample.civic, cc_mileage; lia].
Defined.

(** C8, as stated, fails: a registered user creates a listing with price
    -1 and mileage -5, and the row is stored as given. *)
Lemma negative_price_and_mileage_are_stored :
  ¬ (∀ w, reachable w → ∀ k c, cars w !! k = Some c → listing_nonneg c).
Proof.
  intros H.
  pose (w := handle (CreateCar Sample.carol_token Sample.negative) Sample.env
               (handle (Register Sample.carol) Sample.env initial)).
  assert (Hw : reachable w) by (repeat constructor).
  assert (Hp : (mileage <$> cars w !! "6f1c") = Some (Some (-5)%Z))
    by reflexivity.
  destruct (cars w !! "6f1c") as [c|] eqn:Hc; [| discriminate].
  injection Hp as Hm.
  destruct (H w Hw "6f1c" c Hc) as [_ Hmile].
  specialize (Hmile _ Hm). lia.
Qed.

Example negative_price_is_stored :
  let w :=
    handle (CreateCar Sample.carol_token Sample.negative) Sample.env
      (handle (Register Sample.carol) Sample.env initial) in
  (price <$> cars w !! "6f1c") = Some (Some (-1)%float)
  ∧ PrimFloat.leb 0 (-1) = false.
Proof. split; reflexivity. Qed.

(** A price that is not a number is stored as given too: it is not
    negative, and it is not [0 <= p] either, which is why the requests
    are asked for prices with [0 <= p]. *)
Example nan_price_is_stored :
  let car :=
    {| cc_make := "Honda"; cc_model := "Civic"; cc_year := 2019;
       cc_price := PrimFloat.nan; cc_mileage := 42000;
       cc_description := None; cc_color := "Blue";
       cc_fuel_type := "Gasoline"; cc_transmission := "Manual";
       cc_image := "/uploads/civic.jpg" |} in
  let w :=
    handle (CreateCar Sample.carol_token car) Sample.env
      (handle (Register Sample.carol) Sample.env initial) in
  (price <$> cars w !! "6f1c") = Some (Some PrimFloat.nan)
  ∧ PrimFloat.ltb PrimFloat.nan 0 = false
  ∧ PrimFloat.leb 0 PrimFloat.nan = false.
Proof. repeat split. Qed.



(** ** Issued tokens *)

Lemma registered_email (w : World) (e : string) (u : UserDB) :
  registered w e = Some u → email u = e ∧ u ∈ users w.
Proof.
  unfold registered. intros H. apply find_some in H as [Hin Heq].
  apply String.eqb_eq in Heq. split; [done |]. by apply list_elem_of_In.
Qed.

Lemma issue_pair_run (env : Env) (w : World) (subject : string) :
  issue_pair subject env w = (Return (pair_for env subject), w, []).
Proof. reflexivity. Qed.

Lemma login_ok (env : Env) (w : World) (user : UserLogin) (db_user : UserDB) :
  registered w (ul_email user) = Some db_user →
  verify_password env (ul_password user) (hashed_password db_user) = true →
  login user env w = (Return (pair_for env (ul_email user)), w, []).
Proof.
  intros Hreg Hpw. unfold login. unfold_M.
  fold (registered w (ul_email user)). rewrite Hreg. simpl. by rewrite Hpw.
Qed.

Lemma jwt_decode_own (env env' : Env) (w : World) (payload : Claims) :
  SECRET_KEY env' = SECRET_KEY env →
  jwt_decode (Signed ALGORITHM (SECRET_KEY env) payload) (SECRET_KEY env')
    [ALGORITHM] env' w
  = match exp payload with
    | Some e =>
        if (e <=? utcnow env')%Z then (Raise ExpiredSignatureError, w, [])
        else (Return payload, w, [])
    | None => (Return payload, w, [])
    end.
Proof.
  intros Hkey. unfold jwt_decode. unfold_M. simpl. rewrite Hkey.
  rewrite String.eqb_refl. simpl.
  destruct (exp payload) as [e|]; [| done].
  by destruct (e <=? utcnow env')%Z.
Qed.

(** X1. A login with a registered email and its password returns a bearer
    pair, the same on [login] and on [get_access_token], without changing
    the state; for less than 600 seconds from then on, under the same key,
    [verify_token] accepts the access token and [get_current_user]
    resolves it to the user registered under that email. *)
Theorem issued_access_token_is_accepted
    (env env' : Env) (w w' : World) (user : UserLogin)
    (db_user current : UserDB) :
  registered w (ul_email user) = Some db_user →
  verify_password env (ul_password user) (hashed_password db_user) = true →
  SECRET_KEY env' = SECRET_KEY env →
  (utcnow env' < utcnow env + 600)%Z →
  registered w' (ul_email user) = Some current →
  ∃ pair,
    login user env w = (Return pair, w, [])
    ∧ get_access_token user env w = (Return pair, w, [])
    ∧ token_type pair = "bearer"
    ∧ verify_token (access_token pair) env' w'
      = (Return (ul_email user), w', [])
    ∧ get_current_user (access_token pair) env' w' = (Return current, w', [])
    ∧ email current = ul_email user.
Proof.
  intros Hreg Hpw Hkey Hclock Hreg'.
  exists (pair_for env (ul_email user)).
  split; [by apply login_ok with db_user |].
  split; [by apply login_ok with db_user |]. split; [done |].
  assert (Hv : verify_token (access_token (pair_for env (ul_email user)))
                 env' w' = (Return (ul_email user), w', [])).
  { unfold verify_token, try_except, pair_for, access_token.
    unfold mbind at 1, M_bind, bind, ask.
    unfold mbind at 1, M_bind, bind.
    rewrite (jwt_decode_own env env' w' _ Hkey). cbn [exp].
    destruct (Z.leb_spec (utcnow env + 600) (utcnow env')); [lia | done]. }
  split; [exact Hv |]. split; [| by apply (registered_email w')].
  unfold get_current_user. unfold mbind at 1, M_bind, bind. rewrite Hv.
  unfold_M. fold (registered w' (ul_email user)). by rewrite Hreg'.
Qed.

Lemma issued_access_token_is_accepted_witness :
  ∃ pair,
    login Fixture.alice_login Sample.env Sample.world
    = (Return pair, Sample.world, [])
    ∧ get_access_token Fixture.alice_login Sample.env Sample.world
      = (Return pair, Sample.world, [])
    ∧ token_type pair = "bearer"
    ∧ verify_token (access_token pair) Sample.later Sample.world
      = (Return "a@x.com", Sample.world, [])
    ∧ get_current_user (access_token pair) Sample.later Sample.world
      = (Return Sample.alice, Sample.world, [])
    ∧ email Sample.alice = "a@x.com".
Proof.
  apply (issued_access_token_is_accepted Sample.env Sample.later
           Sample.world Sample.world Fixture.alice_login Sample.alice
           Sample.alice); reflexivity.
Defined.


(** X2. Under the same key, the access token of an issued pair is refused
    with 401 "Token expired" once the clock is more than 600 seconds past
    its issue, and the refresh token with 401 "Refresh token expired" once
    it is more than 86400 seconds past. *)
Theorem issued_tokens_expire
    (env env' : Env) (w' : World) (subject : string) :
  SECRET_KEY env' = SECRET_KEY env →
  let pair := pair_for env subject in
  ((utcnow env' > utcnow env + 600)%Z →
   verify_token (access_token pair) env' w'
   = (Raise (HTTPException 401 "Token expired" www_authenticate), w', [])
   ∧ http_status (result_of (get_current_user (access_token pair) env' w'))
     = 401)
  ∧ ((utcnow env' > utcnow env + 86400)%Z →
     refresh_token {| tr_refresh_token := refresh_token_ pair |} env' w'
     = (Raise (HTTPException 401 "Refresh token expired" www_authenticate),
        w', [])).
Proof.
  intros Hkey pair. subst pair. split; intros Hclock.
  - assert (Hv : verify_token (access_token (pair_for env subject)) env' w'
              = (Raise (HTTPException 401 "Token expired" www_authenticate),
                 w', [])).
    { unfold verify_token, try_except, pair_for, access_token.
      unfold mbind at 1, M_bind, bind, ask.
      unfold mbind at 1, M_bind, bind.
      rewrite (jwt_decode_own env env' w' _ Hkey). cbn [exp].
      destruct (Z.leb_spec (utcnow env + 600) (utcnow env')); [done | lia]. }
    split; [exact Hv |].
    unfold get_current_user. unfold mbind at 1, M_bind, bind. by rewrite Hv.
  - unfold refresh_token, try_except, pair_for, refresh_token_,
      tr_refresh_token.
    unfold mbind at 1, M_bind, bind, ask.
    unfold mbind at 1, M_bind, bind.
    rewrite (jwt_decode_own env env' w' _ Hkey). cbn [exp].
    destruct (Z.leb_spec (utcnow env + 86400) (utcnow env')); [done | lia].
Qed.

Lemma issued_tokens_expire_witness :
  verify_token (access_token (pair_for Sample.env "a@x.com"))
    (Fixture.at_time 1601) Sample.world
  = (Raise (HTTPException 401 "Token expired" www_authenticate),
     Sample.world, [])
  ∧ refresh_token
      {| tr_refresh_token := refresh_token_ (pair_for Sample.env "a@x.com") |}
      (Fixture.at_time 87401) Sample.world
    = (Raise (HTTPException 401 "Refresh token expired" www_authenticate),
       Sample.world, []).
Proof.
  split.
  - apply (issued_tokens_expire Sample.env (Fixture.at_time 1601)
             Sample.world "a@x.com" eq_refl).
    simpl. lia.
  - apply (issued_tokens_expire Sample.env (Fixture.at_time 87401)
             Sample.world "a@x.com" eq_refl).
    simpl. lia.
Defined.


(** X3. For less than 86400 seconds from its issue, and while its subject
    is still registered, the refresh token of an issued pair is exchanged
    for a new pair for the same subject, dated from the time of the
    exchange.  The state is not changed and the old refresh token is not
    revoked: presented again, it gives the same answer. *)
Theorem issued_refresh_token_renews
    (env env' : Env) (w' : World) (subject : string) (current : UserDB) :
  SECRET_KEY env' = SECRET_KEY env →
  (utcnow env' < utcnow env + 86400)%Z →
  registered w' subject = Some current →
  let old := {| tr_refresh_token := refresh_token_ (pair_for env subject) |} in
  refresh_token old env' w' = (Return (pair_for env' subject), w', [])
  ∧ world_of (refresh_token old env' (world_of (refresh_token old env' w')))
    = w'
  ∧ result_of (refresh_token old env'
                 (world_of (refresh_token old env' w')))
    = Return (pair_for env' subject).
Proof.
  intros Hkey Hclock Hreg old. subst old.
  assert (Hr : refresh_token
                 {| tr_refresh_token := refresh_token_ (pair_for env subject) |}
                 env' w' = (Return (pair_for env' subject), w', [])).
  { unfold refresh_token, try_except, pair_for at 1, refresh_token_,
      tr_refresh_token.
    unfold mbind at 1, M_bind, bind, ask.
    unfold mbind at 1, M_bind, bind.
    rewrite (jwt_decode_own env env' w' _ Hkey). cbn [exp].
    destruct (Z.leb_spec (utcnow env + 86400) (utcnow env')); [lia |].
    cbn [type sub]. rewrite bool_decide_eq_false_2 by (intros Hx; by apply Hx).
    unfold_M. fold (registered w' subject). by rewrite Hreg. }
  split; [exact Hr |].
  replace (world_of (refresh_token
                       {| tr_refresh_token :=
                            refresh_token_ (pair_for env subject) |}
                       env' w')) with w' by (by rewrite Hr).
  by rewrite Hr.
Qed.

Lemma issued_refresh_token_renews_witness :
  refresh_token
    {| tr_refresh_token := refresh_token_ (pair_for Sample.env "a@x.com") |}
    (Fixture.at_time 1601) Sample.world
  = (Return (pair_for (Fixture.at_time 1601) "a@x.com"), Sample.world, []).
Proof.
  apply (issued_refresh_token_renews Sample.env (Fixture.at_time 1601)
           Sample.world "a@x.com" Sample.alice); reflexivity.
Defined.


(** X4. A credential that is not a token of algorithm HS256 signed with the
    key of the application is refused with 401 by [verify_token] and by
    [refresh_token], whatever its claims and its expiry, and the state is
    unchanged. *)
Theorem foreign_token_is_refused (env : Env) (w : World) (token : Jwt) :
  signed_by env token = false →
  verify_token token env w
  = (Raise (HTTPException 401 "Could not validate credentials"
              www_authenticate), w, [])
  ∧ refresh_token {| tr_refresh_token := token |} env w
    = (Raise (HTTPException 401 "Could not validate refresh token"
                www_authenticate), w, []).
Proof.
  intros Hs. unfold verify_token, refresh_token, jwt_decode. unfold_M.
  destruct token as [raw|alg k payload]; [done |]. simpl in *.
  rewrite orb_false_r.
  destruct (String.eqb alg ALGORITHM); [| done]. simpl in *. by rewrite Hs.
Qed.

Lemma foreign_token_is_refused_witness :
  claimed_type Fixture.forged = Some "access"
  ∧ verify_token Fixture.forged Sample.env Sample.world
    = (Raise (HTTPException 401 "Could not validate credentials"
                www_authenticate), Sample.world, []).
Proof.
  split; [reflexivity |].
  apply (foreign_token_is_refused Sample.env Sample.world Fixture.forged).
  reflexivity.
Defined.


(** X5. On every input, [verify_token], [get_current_user], [login],
    [get_access_token] and [refresh_token] leave the state as it was and
    perform no effect on the database or on the files. *)
Theorem authentication_is_read_only
    (env : Env) (w : World) (token : Jwt) (user : UserLogin) :
  (world_of (verify_token token env w) = w
   ∧ log_of (verify_token token env w) = [])
  ∧ (world_of (get_current_user token env w) = w
     ∧ log_of (get_current_user token env w) = [])
  ∧ (world_of (login user env w) = w ∧ log_of (login user env w) = [])
  ∧ (world_of (get_access_token user env w) = w
     ∧ log_of (get_access_token user env w) = [])
  ∧ (world_of (refresh_token {| tr_refresh_token := token |} env w) = w
     ∧ log_of (refresh_token {| tr_refresh_token := token |} env w) = []).
Proof.
  assert (Hv : ∃ r, verify_token token env w = (r, w, [])).
  { unfold verify_token. unfold_M.
    destruct (jwt_decode_cases env w token)
      as [(_ & alg & p & _ & ->) | [(_ & ->) | (_ & what & ->)]];
      repeat case_match; simplify_eq/=; by eexists. }
  destruct Hv as [rv Hv].
  split; [by rewrite Hv |]. split.
  { unfold get_current_user. unfold mbind at 1 3, M_bind, bind. rewrite Hv.
    destruct rv as [a|e]; [| by split]. unfold_M.
    repeat case_match; simplify_eq/=; by split. }
  split; [| split].
  - unfold login. unfold_M.
    destruct (bad_credentials _ _ _); [by split |].
    by rewrite issue_pair_run.
  - unfold get_access_token. unfold_M.
    destruct (bad_credentials _ _ _); [by split |].
    by rewrite issue_pair_run.
  - unfold refresh_token. unfold_M. simpl.
    destruct (jwt_decode_cases env w token)
      as [(_ & alg & p & _ & ->) | [(_ & ->) | (_ & what & ->)]];
      repeat case_match; simplify_eq/=; try rewrite issue_pair_run in *;
      simplify_eq/=; by split.
Qed.

(** X6. For an access token that passes decoding, [get_current_user]
    returns the user registered under the token's subject; it fails with
    401 "User not found" when no user has that email, and with 401 "Could
    not validate credentials" when the token has no subject. *)
Theorem get_current_user_resolves_subject
    (env : Env) (w : World) (token : Jwt) :
  decodes env token = true →
  claimed_type token = Some "access" →
  get_current_user token env w
  = (match claimed_sub token with
     | None =>
         Raise (HTTPException 401 "Could not validate credentials"
                  www_authenticate)
     | Some e =>
         match registered w e with
         | Some user => Return user
         | None => Raise (HTTPException 401 "User not found" [])
         end
     end, w, []).
Proof.
  intros Hd Hty. unfold get_current_user, verify_token. unfold_M.
  destruct (jwt_decode_cases env w token)
    as [(_ & alg & p & -> & ->) | [(Hd' & _) | (Hd' & _)]]; try congruence.
  simpl in Hty |- *. rewrite Hty. simpl.
  destruct (sub p) as [e|]; [| done]. fold (registered w e).
  by destruct (registered w e).
Qed.

Lemma get_current_user_resolves_subject_witness :
  get_current_user Fixture.alice_token Sample.env Sample.world
  = (Return Sample.alice, Sample.world, [])
  ∧ get_current_user Fixture.alice_token Sample.env Sample.empty_world
    = (Raise (HTTPException 401 "User not found" []), Sample.empty_world, []).
Proof.
  split.
  - apply (get_current_user_resolves_subject Sample.env Sample.world
             Fixture.alice_token); reflexivity.
  - apply (get_current_user_resolves_subject Sample.env Sample.empty_world
             Fixture.alice_token); reflexivity.
Defined.


(** ** Registration *)

Lemma registered_app_new (w : World) (row : UserDB) (e : string) :
  registered w e = None →
  email row = e →
  registered (set_users (users w ++ [row])%list w) e = Some row.
Proof.
  unfold registered. cbn [users set_users]. intros Hnone He.
  induction (users w) as [|u us IH]; simpl in *.
  - by rewrite He, String.eqb_refl.
  - destruct (String.eqb (email u) e); [done | by apply IH].
Qed.

Lemma register_ok (env : Env) (w : World) (user : UserCreate) :
  registered w (uc_email user) = None →
  uc_password user = uc_confirmed_password user →
  let row :=
    {| user_id := uuid4 env 0; username := uc_username user;
       email := uc_email user;
       hashed_password := get_password_hash env (uc_password user);
       user_created_at := utcnow env |} in
  violates_unique row (users w) = false →
  commit_error env = None →
  register user env w
  = (Return {| u_id := uuid4 env 0; u_username := uc_username user;
               u_email := uc_email user; u_created_at := utcnow env |},
     set_users (users w ++ [row])%list w,
     [(UserInserted row, set_users (users w ++ [row])%list w)]).
Proof.
  intros Hnone Hpw row Hfree Hc. unfold register. unfold_M.
  fold (registered w (uc_email user)). rewrite Hnone.
  rewrite bool_decide_eq_false_2 by (by intros [? ?]).
  rewrite Hpw, String.eqb_refl. simpl. rewrite <- Hpw. fold row.
  by rewrite Hfree, Hc.
Qed.

(** The body as the handler receives it. *)
Lemma post_register_run (env : Env) (w : World) (body : UserCreate) :
  post_register body env w
  = match email_validator env (uc_email body) with
    | Some address =>
        register {| uc_username := uc_username body; uc_email := address;
                    uc_password := uc_password body;
                    uc_confirmed_password := uc_confirmed_password body |}
          env w
    | None =>
        (Raise (RequestValidationError "value is not a valid email address"),
         w, [])
    end.
Proof.
  unfold post_register, UserCreate_validate. unfold_M.
  destruct (email_validator env (uc_email body)) as [address|]; [| done].
  by destruct (register _ env w) as [[[] ?] ?].
Qed.

Lemma registered_app_other (w : World) (row : UserDB) (e : string) :
  registered w e = None →
  email row ≠ e →
  registered (set_users (users w ++ [row])%list w) e = None.
Proof.
  unfold registered. cbn [users set_users]. intros Hnone He.
  induction (users w) as [|u us IH]; simpl in *.
  - apply String.eqb_neq in He. by rewrite He.
  - destruct (String.eqb (email u) e); [done | by apply IH].
Qed.

(** X7. [POST /register] stores the address as the validator behind
    [EmailStr] normalises it.  A registration whose address normalises to
    a free one, with a free user name and identifier, matching passwords
    and a successful commit, stores one user under the normalised address,
    with the hash of the password; if the hash verifies, a login with the
    normalised address and the password then succeeds, and a login with
    the address as it was typed answers 401 when the validator changed it
    (and it is not the address of another user); every further
    registration whose address normalises to the same one fails with 400
    and changes nothing, whatever its other fields.  An address the
    validator refuses ends in 422 and changes nothing. *)
Theorem register_then_login
    (env env' : Env) (w : World) (body : UserCreate) (address : string) :
  email_validator env (uc_email body) = Some address →
  registered w address = None →
  uc_password body = uc_confirmed_password body →
  violates_unique
    {| user_id := uuid4 env 0; username := uc_username body;
       email := address;
       hashed_password := get_password_hash env (uc_password body);
       user_created_at := utcnow env |} (users w) = false →
  commit_error env = None →
  verify_password env' (uc_password body)
    (get_password_hash env (uc_password body)) = true →
  let w' := world_of (post_register body env w) in
  result_of (post_register body env w)
  = Return {| u_id := uuid4 env 0; u_username := uc_username body;
              u_email := address; u_created_at := utcnow env |}
  ∧ (hashed_password <$> registered w' address)
    = Some (get_password_hash env (uc_password body))
  ∧ login {| ul_email := address; ul_password := uc_password body |} env' w'
    = (Return (pair_for env' address), w', [])
  ∧ (uc_email body ≠ address →
     registered w (uc_email body) = None →
     login {| ul_email := uc_email body; ul_password := uc_password body |}
       env' w'
     = (Raise InvalidCredentials, w', []))
  ∧ (∀ again, email_validator env' (uc_email again) = Some address →
       post_register again env' w'
       = (Raise (HTTPException 400 "This email has already registered" []),
          w', []))
  ∧ (∀ again, email_validator env' (uc_email again) = None →
       http_status (result_of (post_register again env' w')) = 422
       ∧ world_of (post_register again env' w') = w').
Proof.
  intros Hvalid Hnone Hpw Hfree Hc Hverify w'. subst w'.
  rewrite post_register_run, Hvalid.
  rewrite (register_ok env w
             {| uc_username := uc_username body; uc_email := address;
                uc_password := uc_password body;
                uc_confirmed_password := uc_confirmed_password body |}
             Hnone Hpw Hfree Hc).
  unfold_M. cbn [fst snd uc_username uc_email uc_password].
  match goal with
  | |- context [set_users (_ ++ [?r])%list w] => set (row := r)
  end.
  assert (Hreg : registered (set_users (users w ++ [row])%list w) address
                 = Some row)
    by (by apply registered_app_new).
  split; [done |]. split; [by rewrite Hreg |]. split; [| split; [| split]].
  - by apply login_ok with row.
  - intros Hne Hfree'.
    apply (login_unknown_email env' _
             {| ul_email := uc_email body; ul_password := uc_password body |}).
    apply registered_app_other; [done |]. unfold row. cbn [email].
    intros Heq. by apply Hne.
  - intros again Hsame. rewrite post_register_run, Hsame.
    unfold register. unfold_M. cbn [uc_email].
    fold (registered (set_users (users w ++ [row])%list w) address).
    rewrite Hreg. by rewrite bool_decide_eq_true_2.
  - intros again Hrefused. by rewrite post_register_run, Hrefused.
Qed.

Lemma register_then_login_witness :
  let body :=
    {| uc_username := "carol"; uc_email := "Carol@X.COM";
       uc_password := "pw-c"; uc_confirmed_password := "pw-c" |} in
  let w' := world_of (post_register body Sample.env Sample.world) in
  (email <$> registered w' "Carol@x.com") = Some "Carol@x.com"
  ∧ login {| ul_email := "Carol@x.com"; ul_password := "pw-c" |}
      Sample.later w'
    = (Return (pair_for Sample.later "Carol@x.com"), w', [])
  ∧ login {| ul_email := "Carol@X.COM"; ul_password := "pw-c" |}
      Sample.later w'
    = (Raise InvalidCredentials, w', []).
Proof.
  intros body w'.
  destruct (register_then_login Sample.env Sample.later Sample.world body
              "Carol@x.com") as (_ & _ & H3 & H4 & _); try reflexivity.
  refine (conj eq_refl (conj H3 (H4 _ eq_refl))). discriminate.
Defined.


(** X8. A registration with a free email, matching passwords and a user
    name that another user already has is not answered with 400: the
    unique constraint fails at the commit, nothing is stored and the
    request ends in a 500. *)
Theorem register_taken_username
    (env : Env) (w : World) (user : UserCreate) (other : UserDB) :
  registered w (uc_email user) = None →
  uc_password user = uc_confirmed_password user →
  other ∈ users w →
  username other = uc_username user →
  register user env w = (Raise (Exception "IntegrityError"), w, [])
  ∧ http_status (result_of (register user env w)) = 500.
Proof.
  intros Hnone Hpw Hin Hname.
  assert (register user env w = (Raise (Exception "IntegrityError"), w, []))
    as ->; [| done].
  unfold register. unfold_M.
  fold (registered w (uc_email user)). rewrite Hnone.
  rewrite bool_decide_eq_false_2 by (by intros [? ?]).
  rewrite Hpw, String.eqb_refl. simpl.
  unfold violates_unique.
  match goal with
  | |- context [existsb ?f (users w)] =>
      assert (existsb f (users w) = true) as ->; [| done]
  end.
  apply existsb_exists. exists other. split; [by apply list_elem_of_In |].
  cbn [username]. rewrite Hname, String.eqb_refl. by rewrite orb_true_r.
Qed.

Lemma register_taken_username_witness :
  let user :=
    {| uc_username := "alice"; uc_email := "other@x.com";
       uc_password := "pw"; uc_confirmed_password := "pw" |} in
  register user Sample.env Sample.world
  = (Raise (Exception "IntegrityError"), Sample.world, [])
  ∧ http_status (result_of (register user Sample.env Sample.world)) = 500.
Proof.
  intros user.
  apply (register_taken_username Sample.env Sample.world user Sample.alice);
    [reflexivity | reflexivity | | reflexivity].
  apply list_elem_of_here.
Defined.


(** ** Reading listings *)

(** The list comprehension over the rows: all of them, or the error of the
    response model. *)
Lemma Cars_of_run (rows : list CarDB) (env : Env) (w : World) :
  Cars_of rows env w
  = (match mapM validate_Car rows with
     | Some rs => Return rs
     | None => Raise (Exception "ValidationError")
     end, w, []).
Proof.
  induction rows as [|c rows IH]; [done |].
  cbn [Cars_of]. unfold_M. destruct (validate_Car c) as [r|] eqn:Hc.
  - rewrite IH. cbn. rewrite Hc. cbn.
    by destruct (mapM validate_Car rows).
  - cbn. by rewrite Hc.
Qed.

Lemma all_cars_stored (w : World) (c : CarDB) :
  c ∈ all_cars w ↔ ∃ k, cars w !! k = Some c.
Proof.
  unfold all_cars. rewrite list_elem_of_fmap. split.
  - intros [[k c'] [-> Hin]]. exists k. by apply elem_of_map_to_list.
  - intros [k Hk]. exists (k, c). split; [done |].
    by apply elem_of_map_to_list.
Qed.

Lemma all_cars_length (w : World) : length (all_cars w) = size (cars w).
Proof. unfold all_cars. by rewrite length_fmap, length_map_to_list. Qed.

Lemma get_car_run (car_id : string) (env : Env) (w : World) :
  get_car car_id env w
  = (match cars w !! car_id with
     | None => Raise (HTTPException 404 "Car not found" [])
     | Some c =>
         match validate_Car c with
         | Some r => Return r
         | None => Raise (Exception "ValidationError")
         end
     end, w, []).
Proof.
  unfold get_car. unfold_M. destruct (cars w !! car_id) as [c|]; [| done].
  by destruct (validate_Car c).
Qed.

Lemma create_car_ok
    (env : Env) (w : World) (car : CarCreate) (U : UserDB) :
  cars w !! uuid4 env 0 = None →
  commit_error env = None →
  let row :=
    {| id := uuid4 env 0; make := Some (cc_make car);
       model := Some (cc_model car); year := Some (cc_year car);
       price := Some (cc_price car); mileage := Some (cc_mileage car);
       description := cc_description car; color := Some (cc_color car);
       fuel_type := Some (cc_fuel_type car);
       transmission := Some (cc_transmission car);
       image := Some (cc_image car); seller_id := Some (user_id U);
       created_at := Some (utcnow env); is_sold := Some false |} in
  let w' := set_cars (<[uuid4 env 0 := row]> (cars w)) w in
  create_car car U env w
  = (Return {| car_id := uuid4 env 0; car_make := cc_make car;
               car_model := cc_model car; car_year := cc_year car;
               car_price := cc_price car; car_mileage := cc_mileage car;
               car_description := cc_description car;
               car_color := cc_color car;
               car_fuel_type := cc_fuel_type car;
               car_transmission := cc_transmission car;
               car_seller_id := user_id U; car_created_at := utcnow env;
               car_image := cc_image car; car_is_sold := false |},
     w', [(CarInserted row, w')]).
Proof.
  intros Hfree Hc row w'. unfold create_car. unfold_M. cbn [id].
  by rewrite Hfree, Hc.
Qed.

(** X9. With a fresh identifier and a successful commit, [create_car]
    returns the listing it stored, and [get_car] on the returned id gives
    the same listing back: the seller is the caller, [is_sold] is false,
    [created_at] is the time of the request, and price, mileage and image
    are those of the request.  No other row and no file is touched. *)
Theorem create_car_then_get_car
    (env env' : Env) (w : World) (car : CarCreate) (U : UserDB) :
  cars w !! uuid4 env 0 = None →
  commit_error env = None →
  let created := create_car car U env w in
  ∃ r, result_of created = Return r
    ∧ get_car (car_id r) env' (world_of created)
      = (Return r, world_of created, [])
    ∧ car_seller_id r = user_id U
    ∧ car_is_sold r = false
    ∧ car_created_at r = utcnow env
    ∧ car_price r = cc_price car
    ∧ car_mileage r = cc_mileage car
    ∧ car_image r = cc_image car
    ∧ (∀ k, k ≠ car_id r → cars (world_of created) !! k = cars w !! k)
    ∧ files (world_of created) = files w.
Proof.
  intros Hfree Hc created. subst created.
  rewrite (create_car_ok env w car U Hfree Hc). eexists. unfold_M.
  cbn [fst snd]. split; [done |]. rewrite get_car_run.
  cbn [cars set_cars car_id]. rewrite lookup_insert_eq.
  repeat split; try done.
  intros k Hk. by rewrite lookup_insert_ne.
Qed.

Lemma create_car_then_get_car_witness :
  let created := create_car Sample.civic Sample.bob Sample.env Sample.world in
  ∃ r, result_of created = Return r
    ∧ get_car (car_id r) Sample.later (world_of created)
      = (Return r, world_of created, [])
    ∧ car_seller_id r = "bob-id"
    ∧ car_is_sold r = false.
Proof.
  intros created.
  destruct (create_car_then_get_car Sample.env Sample.later Sample.world
              Sample.civic Sample.bob)
    as (r & H1 & H2 & H3 & H4 & _); [reflexivity | reflexivity |].
  exists r. exact (conj H1 (conj H2 (conj H3 H4))).
Defined.


(** X10. After the owner's successful [delete_car], [get_car] on the id and
    a second [delete_car] both answer 404, and every other row is as
    before. *)
Theorem delete_car_then_get_car
    (env env' : Env) (w : World) (L : CarDB) (U : UserDB) :
  stored w L →
  seller_id L = Some (user_id U) →
  commit_error env = None →
  let w' := world_of (delete_car (id L) U env w) in
  get_car (id L) env' w'
  = (Raise (HTTPException 404 "Car not found" []), w', [])
  ∧ delete_car (id L) U env' w'
    = (Raise (HTTPException 404 "Car not found" []), w', [])
  ∧ ∀ k, k ≠ id L → cars w' !! k = cars w !! k.
Proof.
  intros HL Hown Hc w'. subst w'.
  rewrite (delete_car_owner env w L U HL Hown Hc). unfold_M. cbn [fst snd].
  rewrite get_car_run. cbn [cars set_cars]. rewrite lookup_delete_eq.
  split; [done |]. split.
  - unfold delete_car. unfold_M. cbn [cars set_cars].
    by rewrite lookup_delete_eq.
  - intros k Hk. by rewrite lookup_delete_ne.
Qed.

Lemma delete_car_then_get_car_witness :
  let w' :=
    world_of (delete_car "car-1" Sample.alice Sample.env Sample.world) in
  get_car "car-1" Sample.later w'
  = (Raise (HTTPException 404 "Car not found" []), w', [])
  ∧ delete_car "car-1" Sample.alice Sample.later w'
    = (Raise (HTTPException 404 "Car not found" []), w', []).
Proof.
  intros w'.
  destruct (delete_car_then_get_car Sample.env Sample.later Sample.world
              Sample.camry Sample.alice) as (H1 & H2 & _);
    [reflexivity | reflexivity | reflexivity |].
  exact (conj H1 H2).
Defined.


Lemma mapM_validate_from (rows : list CarDB) (rs : list Car) :
  mapM validate_Car rows = Some rs →
  length rs = length rows
  ∧ ∀ r, r ∈ rs → ∃ c, c ∈ rows ∧ validate_Car c = Some r.
Proof.
  intros H. apply mapM_Some_1 in H. split.
  - symmetry. by eapply Forall2_length.
  - intros r Hr. induction H as [|c r' rows rs Hc H IH].
    + by apply elem_of_nil in Hr.
    + apply elem_of_cons in Hr as [-> | Hr].
      * exists c. split; [apply list_elem_of_here | done].
      * destruct (IH Hr) as (c' & Hin & Hv). exists c'.
        split; [by apply list_elem_of_further | done].
Qed.

Lemma validate_Car_fields (c : CarDB) (r : Car) :
  validate_Car c = Some r →
  car_id r = id c ∧ seller_id c = Some (car_seller_id r)
  ∧ price c = Some (car_price r) ∧ mileage c = Some (car_mileage r)
  ∧ image c = Some (car_image r).
Proof.
  unfold validate_Car. intros H.
  repeat (apply bind_Some in H as (? & ? & H)). by simplify_eq/=.
Qed.

Lemma get_cars_run (env : Env) (w : World) (skip limit : Z) :
  get_cars skip limit env w
  = (if ((skip <? 0)%Z || (limit <? 0)%Z
         || (bigint_max <? skip)%Z || (bigint_max <? limit)%Z)%bool
     then Raise (Exception "DataError")
     else match mapM validate_Car
                  (take (Z.to_nat limit) (drop (Z.to_nat skip) (all_cars w)))
          with
          | Some rs => Return rs
          | None => Raise (Exception "ValidationError")
          end, w, []).
Proof.
  unfold get_cars. unfold_M.
  destruct ((skip <? 0)%Z || (limit <? 0)%Z
            || (bigint_max <? skip)%Z || (bigint_max <? limit)%Z)%bool;
    [done |].
  by rewrite Cars_of_run.
Qed.

Lemma get_cars_in_range (skip limit : Z) :
  ((skip <? 0)%Z || (limit <? 0)%Z
   || (bigint_max <? skip)%Z || (bigint_max <? limit)%Z)%bool = false
  ↔ (0 ≤ skip ≤ bigint_max)%Z ∧ (0 ≤ limit ≤ bigint_max)%Z.
Proof. rewrite !orb_false_iff, !Z.ltb_ge. lia. Qed.

(** X11. [get_cars] never changes the state.  A [skip] or [limit] that is
    negative or beyond the largest [bigint], [2^63 - 1], ends in a 500.  A
    returned page has at most [limit] listings, at most the number of rows
    left after [skip], and every listing of it is the response form of a
    stored row; when [skip] and [limit] are in range and every stored row
    passes the response model, the page is returned and has exactly
    [min limit (rows - skip)] listings. *)
Theorem get_cars_page (env : Env) (w : World) (skip limit : Z) :
  let run := get_cars skip limit env w in
  world_of run = w
  ∧ log_of run = []
  ∧ ((skip < 0 ∨ limit < 0 ∨ 2 ^ 63 ≤ skip ∨ 2 ^ 63 ≤ limit)%Z →
     http_status (result_of run) = 500)
  ∧ (∀ rs, result_of run = Return rs →
       (0 ≤ skip < 2 ^ 63)%Z
       ∧ (0 ≤ limit < 2 ^ 63)%Z
       ∧ (Z.of_nat (length rs) ≤ limit)%Z
       ∧ (length rs ≤ size (cars w) - Z.to_nat skip)%nat
       ∧ ∀ r, r ∈ rs →
           ∃ k c, cars w !! k = Some c ∧ validate_Car c = Some r)
  ∧ ((0 ≤ skip < 2 ^ 63)%Z → (0 ≤ limit < 2 ^ 63)%Z →
     (∀ k c, cars w !! k = Some c → is_Some (validate_Car c)) →
     ∃ rs, result_of run = Return rs
       ∧ length rs
         = Nat.min (Z.to_nat limit) (size (cars w) - Z.to_nat skip)).
Proof.
  intros run. subst run. rewrite get_cars_run. unfold_M. cbn [fst snd].
  split; [done |]. split; [done |]. split; [| split].
  - intros Hout.
    destruct ((skip <? 0)%Z || (limit <? 0)%Z
              || (bigint_max <? skip)%Z || (bigint_max <? limit)%Z)%bool
      eqn:Hrange; [done |].
    apply get_cars_in_range in Hrange. unfold bigint_max in Hrange. lia.
  - intros rs Hrs.
    destruct ((skip <? 0)%Z || (limit <? 0)%Z
              || (bigint_max <? skip)%Z || (bigint_max <? limit)%Z)%bool
      eqn:Hrange; [done |].
    apply get_cars_in_range in Hrange as [Hs Hl]. unfold bigint_max in Hs, Hl.
    destruct (mapM validate_Car _) as [rs'|] eqn:Hm; [| done].
    injection Hrs as ->. apply mapM_validate_from in Hm as [Hlen Hfrom].
    rewrite Hlen, length_take, length_drop, all_cars_length.
    split; [lia |]. split; [lia |]. split; [lia |]. split; [lia |].
    intros r Hr. destruct (Hfrom r Hr) as (c & Hin & Hv).
    apply subseteq_take, subseteq_drop, all_cars_stored in Hin as [k Hk].
    by exists k, c.
  - intros Hs Hl Hvalid.
    assert (((skip <? 0)%Z || (limit <? 0)%Z
             || (bigint_max <? skip)%Z || (bigint_max <? limit)%Z)%bool
            = false) as ->.
    { apply get_cars_in_range. unfold bigint_max. lia. }
    destruct (mapM validate_Car _) as [rs|] eqn:Hm.
    + exists rs. split; [done |].
      apply mapM_validate_from in Hm as [-> _].
      by rewrite length_take, length_drop, all_cars_length.
    + apply mapM_None in Hm. apply Exists_exists in Hm as (c & Hin & Hnone).
      apply subseteq_take, subseteq_drop, all_cars_stored in Hin as [k Hk].
      destruct (Hvalid k c Hk) as [r Hr]. congruence.
Qed.

Lemma get_cars_page_witness :
  ∃ rs, result_of (get_cars 0 100 Sample.env Sample.world) = Return rs
        ∧ length rs = 1%nat.
Proof.
  destruct (get_cars_page Sample.env Sample.world 0 100)
    as (_ & _ & _ & _ & H).
  destruct H as (rs & Hrs & Hlen); [lia | lia | |].
  - intros k c Hk. unfold Sample.world in Hk. cbn [cars] in Hk.
    apply lookup_singleton_Some in Hk as [_ <-]. by eexists.
  - exists rs. split; [exact Hrs |]. rewrite Hlen. reflexivity.
Defined.

Example get_cars_beyond_bigint :
  http_status (result_of (get_cars 0 (2 ^ 63) Sample.env Sample.world))
  = 500.
Proof. reflexivity. Qed.

(** X12. [get_my_cars] never changes the state.  Every listing it returns is
    a stored row whose seller is the caller, and every stored row of the
    caller is returned; it returns whenever the caller's rows pass the
    response model, whatever the rows of the other users. *)
Theorem get_my_cars_are_mine (env : Env) (w : World) (U : UserDB) :
  let run := get_my_cars U env w in
  world_of run = w
  ∧ log_of run = []
  ∧ (∀ rs, result_of run = Return rs →
       (∀ r, r ∈ rs →
          car_seller_id r = user_id U
          ∧ ∃ k c, cars w !! k = Some c ∧ validate_Car c = Some r)
       ∧ ∀ k c, cars w !! k = Some c →
           seller_id c = Some (user_id U) →
           ∃ r, r ∈ rs ∧ validate_Car c = Some r)
  ∧ ((∀ k c, cars w !! k = Some c →
        seller_id c = Some (user_id U) → is_Some (validate_Car c)) →
     ∃ rs, result_of run = Return rs).
Proof.
  intros run. subst run. unfold get_my_cars. unfold_M. rewrite Cars_of_run.
  cbn [fst snd]. split; [done |]. split; [done |]. split.
  - intros rs Hrs.
    destruct (mapM validate_Car _) as [rs'|] eqn:Hm; [| done].
    injection Hrs as ->. split.
    + intros r Hr. apply mapM_validate_from in Hm as [_ Hfrom].
      destruct (Hfrom r Hr) as (c & Hin & Hv).
      apply list_elem_of_filter in Hin as [Hmine Hin].
      apply all_cars_stored in Hin as [k Hk].
      destruct (validate_Car_fields c r Hv) as (_ & Hseller & _).
      split; [congruence | by exists k, c].
    + intros k c Hk Hmine. apply mapM_Some_1 in Hm.
      assert (Hin : c ∈ filter (λ c, seller_id c = Some (user_id U))
                          (all_cars w)).
      { apply list_elem_of_filter. split; [done |].
        apply all_cars_stored. by exists k. }
      apply list_elem_of_lookup in Hin as [i Hi].
      destruct (Forall2_lookup_l _ _ _ _ _ Hm Hi) as (r & Hr & Hv).
      exists r. split; [| done]. by apply list_elem_of_lookup_2 in Hr.
  - intros Hvalid.
    destruct (mapM validate_Car _) as [rs|] eqn:Hm; [by exists rs |].
    apply mapM_None in Hm. apply Exists_exists in Hm as (c & Hin & Hnone).
    apply list_elem_of_filter in Hin as [Hmine Hin].
    apply all_cars_stored in Hin as [k Hk].
    destruct (Hvalid k c Hk Hmine) as [r Hr]. congruence.
Qed.

(** X13. An owner's [update_car] whose body gives [price] as [null] commits
    the row with an empty price and answers 500; from then on [get_car] on
    that listing, [get_cars] over a page that covers the table, and the
    owner's [get_my_cars] answer 500. *)
Theorem null_column_breaks_reads
    (env env' : Env) (w : World) (L : CarDB) (U : UserDB) (limit : Z) :
  stored w L →
  seller_id L = Some (user_id U) →
  commit_error env = None →
  (Z.of_nat (size (cars w)) ≤ limit)%Z →
  let w' := world_of (update_car (id L) (price_only None) U env w) in
  (price <$> cars w' !! id L) = Some None
  ∧ http_status (result_of (update_car (id L) (price_only None) U env w))
    = 500
  ∧ http_status (result_of (get_car (id L) env' w')) = 500
  ∧ http_status (result_of (get_cars 0 limit env' w')) = 500
  ∧ http_status (result_of (get_my_cars U env' w')) = 500.
Proof.
  intros HL Hown Hc Hlimit w'. subst w'.
  rewrite (update_car_owner env w L U _ HL Hown Hc). unfold_M. cbn [fst snd].
  set (L' := updated (price_only None) L).
  set (w' := set_cars (<[id L := L']> (cars w)) w).
  assert (Hbad : validate_Car L' = None).
  { unfold validate_Car, L'. simpl.
    by destruct (make L), (model L), (year L). }
  assert (Hstored : cars w' !! id L = Some L')
    by (cbn [cars set_cars w']; by rewrite lookup_insert_eq).
  assert (Hin : L' ∈ all_cars w') by (apply all_cars_stored; eauto).
  assert (Hsize : size (cars w') = size (cars w)).
  { cbn [cars set_cars w']. rewrite <- (insert_id (cars w) (id L) L) at 2
      by done.
    rewrite <- !size_dom, !dom_insert_L. done. }
  rewrite Hbad, get_car_run, get_cars_run, Hstored, Hbad.
  split; [done |]. split; [done |]. split; [done |]. split.
  - destruct ((0 <? 0)%Z || (limit <? 0)%Z
              || (bigint_max <? 0)%Z || (bigint_max <? limit)%Z)%bool;
      [done |].
    rewrite drop_0, take_ge by (rewrite all_cars_length; lia).
    assert (mapM validate_Car (all_cars w') = None) as ->; [| done].
    apply mapM_None, Exists_exists. by exists L'.
  - unfold get_my_cars. unfold_M. rewrite Cars_of_run. cbn [fst snd].
    assert (mapM validate_Car
              (filter (λ c, seller_id c = Some (user_id U)) (all_cars w'))
            = None) as ->; [| done].
    apply mapM_None, Exists_exists. exists L'. split; [| done].
    apply list_elem_of_filter. split; [| done]. by destruct L.
Qed.

Lemma null_column_breaks_reads_witness :
  let w' :=
    world_of (update_car "car-1" (price_only None) Sample.alice Sample.env
                Sample.world) in
  http_status (result_of (get_car "car-1" Sample.later w')) = 500
  ∧ http_status (result_of (get_cars 0 100 Sample.later w')) = 500
  ∧ http_status (result_of (get_my_cars Sample.alice Sample.later w')) = 500.
Proof.
  intros w'.
  destruct (null_column_breaks_reads Sample.env Sample.later Sample.world
              Sample.camry Sample.alice 100)
    as (_ & _ & H1 & H2 & H3);
    [reflexivity | reflexivity | reflexivity | |].
  - change (size (cars Sample.world)) with 1%nat. lia.
  - exact (conj H1 (conj H2 H3)).
Defined.


(** ** Search *)

Lemma lower_app (a b : string) :
  PyStr.lower (a +:+ b) = PyStr.lower a +:+ PyStr.lower b.
Proof. induction a as [|c a IH]; [done |]. simpl. by rewrite IH. Qed.

Lemma lower_split (s x y : string) :
  PyStr.lower s = x +:+ y →
  ∃ a b, s = a +:+ b ∧ PyStr.lower a = x ∧ PyStr.lower b = y.
Proof.
  revert s. induction x as [|c x IH]; intros s H.
  - by exists "", s.
  - destruct s as [|d s]; [done |]. simpl in H. injection H as Hc H.
    destruct (IH s H) as (a & b & -> & Ha & Hb).
    exists (String d a), b. simpl. by rewrite Hc, Ha.
Qed.

Lemma lower_lower_ascii (c : ascii) :
  PyStr.lower_ascii (PyStr.lower_ascii c) = PyStr.lower_ascii c.
Proof. by destruct c as [[] [] [] [] [] [] [] []]. Qed.

Lemma tokens_plain (q : string) (rest : list Sql.tok) (tail : string) :
  plain q = true →
  Sql.tokens false tail = Some rest →
  Sql.tokens false (q +:+ tail) = Some (literally q ++ rest)%list.
Proof.
  intros Hq Htail. induction q as [|c q IH]; [done |].
  simpl in Hq. apply andb_true_iff in Hq as [Hq Hq4].
  apply andb_true_iff in Hq as [Hq Hq3].
  apply andb_true_iff in Hq as [Hq1 Hq2].
  apply negb_true_iff in Hq1, Hq2, Hq3.
  simpl. rewrite Hq1, Hq2, Hq3, (IH Hq4). done.
Qed.

Lemma matches_any (p : list Sql.tok) (s : string) :
  Sql.matches (Sql.Any :: p) s = true
  ↔ ∃ a b, s = a +:+ b ∧ Sql.matches p b = true.
Proof.
  induction s as [|c s IH].
  - simpl. rewrite orb_false_r. split.
    + intros H. by exists "", "".
    + intros (a & b & Hab & H). destruct a; [| done].
      rewrite app_empty in Hab. by subst.
  - change (Sql.matches (Sql.Any :: p) (String c s))
      with (Sql.matches p (String c s) || Sql.matches (Sql.Any :: p) s).
    rewrite orb_true_iff, IH. split.
    + intros [H | (a & b & -> & H)].
      * by exists "", (String c s).
      * by exists (String c a), b.
    + intros (a & b & Hab & H). destruct a as [|d a].
      * left. rewrite app_empty in Hab. by subst.
      * right. rewrite app_String in Hab. injection Hab as -> ->.
        by exists a, b.
Qed.

Lemma matches_all (s : string) : Sql.matches [Sql.Any] s = true.
Proof.
  induction s as [|c s IH]; [done |].
  change (Sql.matches [Sql.Any] (String c s))
    with (Sql.matches [] (String c s) || Sql.matches [Sql.Any] s).
  by rewrite IH.
Qed.

Lemma matches_literally (q : string) (s : string) :
  Sql.matches (literally q ++ [Sql.Any]) s = true
  ↔ ∃ a b, s = a +:+ b ∧ PyStr.lower a = PyStr.lower q.
Proof.
  revert s. induction q as [|c q IH]; intros s.
  - simpl. split.
    + intros _. by exists "", s.
    + intros _. apply matches_all.
  - simpl. destruct s as [|d s].
    + split; [done |]. intros (a & b & Hab & H). by destruct a.
    + rewrite andb_true_iff, IH. unfold Sql.same_letter.
      rewrite Ascii.eqb_eq. split.
      * intros [Hc (a & b & -> & H)]. exists (String d a), b.
        simpl. by rewrite Hc, H.
      * intros (a & b & Hab & H). destruct a as [|e a]; [done |].
        rewrite app_String in Hab. simpl in H.
        injection Hab as -> ->. injection H as Hc H.
        split; [done |]. by exists a, b.
Qed.

Lemma search_pattern_plain (q : string) :
  plain q = true →
  Sql.tokens false ("%" +:+ q +:+ "%")
  = Some (Sql.Any :: literally q ++ [Sql.Any])%list.
Proof.
  intros Hq. rewrite app_String, app_empty.
  change (Sql.tokens false (String "%" (q +:+ "%")))
    with (cons Sql.Any <$> Sql.tokens false (q +:+ "%")).
  by rewrite (tokens_plain q [Sql.Any] "%" Hq).
Qed.

Lemma matches_contains (q s : string) :
  Sql.matches (Sql.Any :: literally q ++ [Sql.Any]) s = true
  ↔ contains_caseless s q.
Proof.
  rewrite matches_any. unfold contains_caseless. split.
  - intros (a & b & -> & H). apply matches_literally in H as (m & t & -> & H).
    exists (PyStr.lower a), (PyStr.lower t). by rewrite !lower_app, H.
  - intros (x & y & H). apply lower_split in H as (a & b & -> & _ & H).
    apply lower_split in H as (m & t & -> & H & _).
    exists a, (m +:+ t). split; [done |]. apply matches_literally.
    by exists m, t.
Qed.

Lemma found_plain (q : string) (c : CarDB) :
  found (Sql.Any :: literally q ++ [Sql.Any]) c = true ↔ mentions c q.
Proof.
  unfold found, mentions, Sql.ilike. rewrite !orb_true_iff. split.
  - intros [[[H | H] | H] | H];
      [destruct (make c) as [s|] | destruct (model c) as [s|]
      | destruct (color c) as [s|] | destruct (description c) as [s|]];
      try done; apply matches_contains in H; exists s; auto.
  - intros (s & [H | [H | [H | H]]] & Hs); rewrite H;
      apply matches_contains in Hs; auto.
Qed.

Lemma search_pattern_percent (q : string) :
  only_percent q = true →
  ∃ p, Sql.tokens false ("%" +:+ q +:+ "%") = Some (Sql.Any :: p)
       ∧ ∀ s, Sql.matches (Sql.Any :: p) s = true.
Proof.
  intros Hq. rewrite app_String, app_empty.
  change (Sql.tokens false (String "%" (q +:+ "%")))
    with (cons Sql.Any <$> Sql.tokens false (q +:+ "%")).
  assert (∃ p, Sql.tokens false (q +:+ "%") = Some p
               ∧ ∀ s, Sql.matches (Sql.Any :: p) s = true)
    as (p & -> & Hp); [| by exists p].
  induction q as [|c q IH].
  - exists [Sql.Any]. split; [done |]. intros s. apply matches_any.
    exists "", s. split; [done | apply matches_all].
  - simpl in Hq. apply andb_true_iff in Hq as [Hc Hq].
    apply Ascii.eqb_eq in Hc as ->. destruct (IH Hq) as (p & Hp & Hall).
    exists (Sql.Any :: p). rewrite app_String.
    change (Sql.tokens false (String "%" (q +:+ "%")))
      with (cons Sql.Any <$> Sql.tokens false (q +:+ "%")).
    rewrite Hp. split; [done |]. intros s. apply matches_any.
    by exists "", s.
Qed.

Lemma found_all (p : list Sql.tok) (c : CarDB) :
  (∀ s, Sql.matches p s = true) →
  found p c = true ↔ searchable c.
Proof.
  intros Hall. unfold found, searchable, Sql.ilike.
  rewrite !orb_true_iff.
  destruct (make c), (model c), (color c), (description c);
    rewrite ?Hall; split; intros H; auto;
    repeat (destruct H as [H | H]); try done; by destruct H.
Qed.

(** What [search_cars] returns for a pattern whose matching rows are the
    rows with [P]. *)
Lemma search_cars_by
    (env : Env) (w : World) (query : string) (p : list Sql.tok)
    (P : CarDB → Prop) :
  Sql.tokens false ("%" +:+ query +:+ "%") = Some p →
  (∀ c, found p c = true ↔ P c) →
  let run := search_cars query env w in
  world_of run = w
  ∧ log_of run = []
  ∧ (∀ rs, result_of run = Return rs →
       (∀ r, r ∈ rs →
          ∃ k c, cars w !! k = Some c ∧ validate_Car c = Some r ∧ P c)
       ∧ ∀ k c, cars w !! k = Some c → P c →
           ∃ r, r ∈ rs ∧ validate_Car c = Some r)
  ∧ ((∀ k c, cars w !! k = Some c → P c → is_Some (validate_Car c)) →
     ∃ rs, result_of run = Return rs).
Proof.
  intros Hp HP run. subst run. unfold search_cars. unfold_M. rewrite Hp.
  rewrite Cars_of_run. cbn [fst snd]. split; [done |]. split; [done |].
  split.
  - intros rs Hrs.
    destruct (mapM validate_Car _) as [rs'|] eqn:Hm; [| done].
    injection Hrs as ->. split.
    + intros r Hr. apply mapM_validate_from in Hm as [_ Hfrom].
      destruct (Hfrom r Hr) as (c & Hin & Hv).
      apply list_elem_of_filter in Hin as [Hfound Hin].
      apply all_cars_stored in Hin as [k Hk].
      exists k, c. by rewrite <- HP.
    + intros k c Hk Hc. apply mapM_Some_1 in Hm.
      assert (Hin : c ∈ filter (λ c, found p c = true) (all_cars w)).
      { apply list_elem_of_filter. split; [by apply HP |].
        apply all_cars_stored. by exists k. }
      apply list_elem_of_lookup in Hin as [i Hi].
      destruct (Forall2_lookup_l _ _ _ _ _ Hm Hi) as (r & Hr & Hv).
      exists r. split; [| done]. by apply list_elem_of_lookup_2 in Hr.
  - intros Hvalid.
    destruct (mapM validate_Car _) as [rs|] eqn:Hm; [by exists rs |].
    apply mapM_None in Hm. apply Exists_exists in Hm as (c & Hin & Hnone).
    apply list_elem_of_filter in Hin as [Hfound Hin].
    apply all_cars_stored in Hin as [k Hk].
    destruct (Hvalid k c Hk) as [r Hr]; [by apply HP | congruence].
Qed.

(** X14. For a query without the characters [%], [_] and backslash,
    [search_cars] is a case-insensitive substring search over [make],
    [model], [color] and [description]: it never changes the state, every
    listing it returns is a stored row one of whose four columns contains
    the query, and every such row is returned; an empty column matches
    nothing. *)
Theorem search_finds_substrings (env : Env) (w : World) (query : string) :
  plain query = true →
  let run := search_cars query env w in
  world_of run = w
  ∧ log_of run = []
  ∧ (∀ rs, result_of run = Return rs →
       (∀ r, r ∈ rs →
          ∃ k c, cars w !! k = Some c ∧ validate_Car c = Some r
                 ∧ mentions c query)
       ∧ ∀ k c, cars w !! k = Some c → mentions c query →
           ∃ r, r ∈ rs ∧ validate_Car c = Some r)
  ∧ ((∀ k c, cars w !! k = Some c → mentions c query →
        is_Some (validate_Car c)) →
     ∃ rs, result_of run = Return rs).
Proof.
  intros Hq.
  apply (search_cars_by env w query _ (λ c, mentions c query)
           (search_pattern_plain query Hq)).
  intros c. apply found_plain.
Qed.

Lemma sample_rows_valid (P : CarDB → Prop) (k : string) (c : CarDB) :
  cars Sample.world !! k = Some c → P c → is_Some (validate_Car c).
Proof.
  intros Hk _. unfold Sample.world in Hk. cbn [cars] in Hk.
  apply lookup_singleton_Some in Hk as [_ <-]. by eexists.
Qed.

Lemma search_finds_substrings_witness :
  ∃ rs r, result_of (search_cars "toy" Sample.env Sample.world) = Return rs
    ∧ r ∈ rs
    ∧ validate_Car Sample.camry = Some r.
Proof.
  destruct (search_finds_substrings Sample.env Sample.world "toy" eq_refl)
    as (_ & _ & Hsound & Hreturns).
  destruct Hreturns as [rs Hrs].
  { intros k c Hk _. by apply (sample_rows_valid (λ _, True) k c). }
  destruct (Hsound rs Hrs) as [_ Hall].
  destruct (Hall "car-1" Sample.camry eq_refl) as (r & Hr & Hv).
  { exists "Toyota". split; [by left |]. by exists "", "ota". }
  exists rs, r. exact (conj Hrs (conj Hr Hv)).
Defined.


(** X15. The query is put into the pattern as it is: for a query made of [%]
    characters only, [search_cars] returns every stored row that has one
    of the four columns not empty, whether or not a column contains the
    query. *)
Theorem search_does_not_escape_wildcards
    (env : Env) (w : World) (query : string) :
  only_percent query = true →
  let run := search_cars query env w in
  (∀ rs, result_of run = Return rs →
     ∀ k c, cars w !! k = Some c → searchable c →
       ∃ r, r ∈ rs ∧ validate_Car c = Some r)
  ∧ ((∀ k c, cars w !! k = Some c → searchable c →
        is_Some (validate_Car c)) →
     ∃ rs, result_of run = Return rs).
Proof.
  intros Hq run.
  destruct (search_pattern_percent query Hq) as (p & Hp & Hall).
  destruct (search_cars_by env w query _ searchable Hp
              (λ c, found_all _ c Hall)) as (_ & _ & H1 & H2).
  split; [| exact H2]. intros rs Hrs. by apply H1.
Qed.

Lemma search_does_not_escape_wildcards_witness :
  ¬ mentions Sample.camry "%"
  ∧ ∃ rs r, result_of (search_cars "%" Sample.env Sample.world) = Return rs
      ∧ r ∈ rs
      ∧ validate_Car Sample.camry = Some r.
Proof.
  split.
  { intros (s & Hs & x & y & Hxy).
    assert (Hfree : ∀ a b : string,
              free_of "%" (a +:+ "%" +:+ b) = false).
    { intros a b. induction a as [|ch a IH]; [done |].
      rewrite app_String. simpl. by rewrite IH, andb_false_r. }
    assert (free_of "%" (PyStr.lower s) = false)
      by (rewrite Hxy; apply Hfree).
    destruct Hs as [Hs | [Hs | [Hs | Hs]]]; simplify_eq/=. }
  destruct (search_does_not_escape_wildcards Sample.env Sample.world "%"
              eq_refl) as (Hall & Hreturns).
  destruct Hreturns as [rs Hrs].
  { intros k c Hk _. by apply (sample_rows_valid (λ _, True) k c). }
  destruct (Hall rs Hrs "car-1" Sample.camry eq_refl) as (r & Hr & Hv).
  { left. by eexists. }
  exists rs, r. exact (conj Hrs (conj Hr Hv)).
Defined.


(** ** Names and paths of stored files *)

Lemma lower_ascii_slash (c : ascii) :
  Ascii.eqb (PyStr.lower_ascii c) "/" = Ascii.eqb c "/".
Proof. by destruct c as [[] [] [] [] [] [] [] []]. Qed.

Lemma lower_ascii_dot (c : ascii) :
  Ascii.eqb (PyStr.lower_ascii c) "." = Ascii.eqb c ".".
Proof. by destruct c as [[] [] [] [] [] [] [] []]. Qed.

Lemma free_of_lower_slash (s : string) :
  free_of "/" (PyStr.lower s) = free_of "/" s.
Proof.
  induction s as [|c s IH]; [done |]. simpl.
  by rewrite lower_ascii_slash, IH.
Qed.

Lemma free_of_lower_dot (s : string) :
  free_of "." (PyStr.lower s) = free_of "." s.
Proof.
  induction s as [|c s IH]; [done |]. simpl.
  by rewrite lower_ascii_dot, IH.
Qed.

Lemma lower_idempotent (s : string) :
  PyStr.lower (PyStr.lower s) = PyStr.lower s.
Proof.
  induction s as [|c s IH]; [done |]. simpl.
  by rewrite lower_lower_ascii, IH.
Qed.

Lemma free_of_drop (c : ascii) (n : nat) (s : string) :
  free_of c s = true → free_of c (PyStr.drop n s) = true.
Proof.
  revert s. induction n as [|n IH]; intros s H; [done |].
  destruct s as [|d s]; [done |]. simpl in *.
  apply andb_true_iff in H as [_ H]. by apply IH.
Qed.

Lemma split_on_free (c : ascii) (s : string) :
  Forall (fun part => free_of c part = true) (PyStr.split_on c s).
Proof.
  induction s as [|d s IH]; [by repeat constructor |].
  simpl. destruct (Ascii.eqb d c) eqn:Hd.
  - by constructor.
  - destruct (PyStr.split_on c s) as [|part parts].
    { constructor; [simpl; by rewrite Hd | constructor]. }
    apply Forall_cons in IH as [Hpart Hparts]. constructor; [| done].
    simpl. by rewrite Hd, Hpart.
Qed.

Lemma name_free (p : string) : free_of "/" (Path.name p) = true.
Proof.
  unfold Path.name, Path.parts.
  assert (H : Forall (fun part => free_of "/" part = true)
                (filter (fun part => part ≠ "" ∧ part ≠ ".")
                   (PyStr.split_on "/" p))).
  { apply Forall_forall. intros part Hin.
    apply list_elem_of_filter in Hin as [_ Hin].
    by apply (proj1 (Forall_forall _ _) (split_on_free "/" p)). }
  induction H as [|part parts Hpart Hparts IH]; [done |].
  destruct parts; [done | exact IH].
Qed.

Lemma rfind_dot_drop (n : string) (i : nat) :
  PyStr.rfind_dot n = Some i →
  ∃ rest, PyStr.drop i n = String "." rest
          ∧ free_of "." rest = true
          ∧ String.length n = (i + 1 + String.length rest)%nat.
Proof.
  revert i. induction n as [|c n IH]; intros i H; [done |].
  simpl in H. destruct (PyStr.rfind_dot n) as [j|] eqn:Hj.
  - injection H as <-. destruct (IH j eq_refl) as (rest & Hd & Hf & Hl).
    exists rest. simpl. by rewrite Hd, Hl.
  - destruct (Ascii.eqb c ".") eqn:Hc; [| done]. injection H as <-.
    apply Ascii.eqb_eq in Hc as ->. exists n. simpl.
    split; [done |]. split; [| done].
    clear IH. induction n as [|d n IH]; [done |]. simpl in *.
    destruct (PyStr.rfind_dot n); [done |].
    destruct (Ascii.eqb d "."); [done |]. by rewrite IH.
Qed.

Lemma file_extension_parts (file : UploadFile) :
  ∃ rest, file_extension file = String "." rest
    ∧ rest ≠ ""
    ∧ free_of "." rest = true
    ∧ free_of "/" rest = true
    ∧ PyStr.lower rest = rest.
Proof.
  unfold file_extension, Path.suffix.
  destruct (PyStr.rfind_dot (Path.name (filename file))) as [i|] eqn:Hi;
    [| by exists "jpg"].
  destruct (Nat.ltb 0 i && Nat.ltb (S i) _)%bool eqn:Hrange;
    [| by exists "jpg"].
  apply andb_true_iff in Hrange as [_ Hlen]. apply Nat.ltb_lt in Hlen.
  destruct (rfind_dot_drop _ _ Hi) as (rest & Hd & Hdots & Hl).
  assert (Hslash : free_of "/" rest = true).
  { pose proof (free_of_drop "/" i _ (name_free (filename file))) as H.
    rewrite Hd in H. exact H. }
  rewrite Hd. cbn [PyStr.lower].
  rewrite bool_decide_eq_false_2 by done.
  change (PyStr.lower_ascii ".") with "."%char.
  exists (PyStr.lower rest). split; [done |]. split.
  { destruct rest; [simpl in Hl; lia | done]. }
  by rewrite free_of_lower_dot, free_of_lower_slash, lower_idempotent.
Qed.

(** X16. Whatever the name of the uploaded file, the extension given to the
    stored file is a dot followed by at least one character, with no
    further dot, no path separator and no upper-case ASCII letter. *)
Theorem file_extension_shape (file : UploadFile) :
  ∃ rest, file_extension file = String "." rest
    ∧ rest ≠ ""
    ∧ free_of "." rest = true
    ∧ free_of "/" rest = true
    ∧ PyStr.lower rest = rest.
Proof. exact (file_extension_parts file). Qed.

Lemma set_files_same (w : World) : set_files (files w) w = w.
Proof. by destruct w. Qed.

(** A generated name is one component when the UUID has no slash: the
    extension has none, and is a dot followed by something. *)
Lemma unique_filename_single (env : Env) (file : UploadFile) :
  free_of "/" (uuid4 env 0) = true →
  single_component (uuid4 env 0 +:+ file_extension file) = true.
Proof.
  intros Hu. unfold single_component.
  destruct (file_extension_parts file) as (rest & -> & Hrest & _ & Hs & _).
  rewrite free_of_app, Hu. cbn [free_of Ascii.eqb Bool.eqb negb andb].
  rewrite Hs.
  destruct (uuid4 env 0) as [|c u]; [by destruct rest |].
  rewrite app_String.
  destruct u as [|d u]; [| by destruct c as [[] [] [] [] [] [] [] []]].
  rewrite app_empty. by destruct c as [[] [] [] [] [] [] [] []].
Qed.

(** X17. An accepted upload whose generated name is not yet in the upload
    directory stores the payload under that name and touches no other
    file; the URL of the answer is "/uploads/" followed by the name.
    [delete_car_image] on the returned name, by any user, then answers 200
    and gives back the state from before the upload.  When the UUID has no
    path separator, neither has the stored name, and the file lies directly
    in the upload directory. *)
Theorem upload_then_delete_image
    (env env' : Env) (w : World) (file : UploadFile) (U U' : UserDB) :
  type_refused file = false →
  too_large (contents file) = false →
  write_error env = None →
  unlink_error env' = None →
  files w !! in_upload_dir (uuid4 env 0 +:+ file_extension file) = None →
  let uploaded := upload_car_image file U env w in
  ∃ response,
    result_of uploaded = Return response
    ∧ ur_url response = "/uploads/" +:+ ur_filename response
    ∧ files (world_of uploaded) !! in_upload_dir (ur_filename response)
      = Some (contents file)
    ∧ (∀ p, p ≠ in_upload_dir (ur_filename response) →
            files (world_of uploaded) !! p = files w !! p)
    ∧ http_status
        (result_of (delete_car_image (ur_filename response) U' env'
                      (world_of uploaded))) = 200
    ∧ world_of (delete_car_image (ur_filename response) U' env'
                  (world_of uploaded)) = w
    ∧ (free_of "/" (uuid4 env 0) = true →
       in_upload_dir (ur_filename response)
       = "uploads/" +:+ ur_filename response
       ∧ free_of "/" (ur_filename response) = true).
Proof.
  intros Hty Hsize Hw Hu Hfresh uploaded. subst uploaded.
  rewrite (upload_car_image_stored env w file U Hty Hsize Hw).
  eexists. unfold_M. cbn [fst snd ur_filename ur_url files set_files].
  split; [done |]. split; [done |]. split; [by rewrite lookup_insert_eq |].
  split; [by intros p Hp; rewrite lookup_insert_ne |]. split; [| split].
  - rewrite delete_car_image_existing; [done | | done].
    cbn [files set_files]. rewrite lookup_insert_eq. by eexists.
  - rewrite delete_car_image_existing; [| | done].
    + cbn [fst snd files set_files users cars].
      rewrite delete_insert_eq, delete_id by done.
      by destruct w.
    + cbn [files set_files]. rewrite lookup_insert_eq. by eexists.
  - intros Hfree.
    pose proof (unique_filename_single env file Hfree) as Hname.
    split; [by apply in_upload_dir_relative |].
    unfold single_component in Hname.
    by apply andb_true_iff in Hname as [_ ?].
Qed.

Lemma upload_then_delete_image_witness :
  let uploaded :=
    upload_car_image Sample.photo Sample.bob Sample.env Sample.world in
  ∃ response,
    result_of uploaded = Return response
    ∧ ur_filename response = "6f1c.png"
    ∧ world_of (delete_car_image (ur_filename response) Sample.alice
                  Sample.later (world_of uploaded)) = Sample.world.
Proof.
  intros uploaded.
  destruct (upload_then_delete_image Sample.env Sample.later Sample.world
              Sample.photo Sample.bob Sample.alice)
    as (response & H1 & _ & _ & _ & _ & H2 & _); try reflexivity.
  exists response. split; [exact H1 |]. split; [| exact H2].
  assert (Hr : Return response
               = Return {| ur_filename := "6f1c.png";
                           ur_url := "/uploads/6f1c.png";
                           ur_message := "Image uploaded successfully" |})
    by (rewrite <- H1; reflexivity).
  by injection Hr as ->.
Defined.


(** ** Failures around the file and the commit *)

Section Failures.

Variables (env : Env) (w : World) (file : UploadFile) (U : UserDB).
Hypothesis type_accepted : type_refused file = false.
Hypothesis size_accepted : too_large (contents file) = false.

Let name : string := uuid4 env 0 +:+ file_extension file.
Let path : string := in_upload_dir name.

(** The state with the first [n] bytes of the payload on the disk. *)
Let partial (n : nat) : World :=
  set_files (<[path := take n (contents file)]> (files w)) w.

Lemma upload_car_image_open_failure (msg : string) :
  write_error env = Some (OpenFails msg) →
  upload_car_image file U env w
  = (Raise (HTTPException 500 ("Failed to save file: " +:+ msg) []), w, []).
Proof.
  intros Hw. unfold upload_car_image.
  rewrite type_accepted, size_accepted. unfold_M. by rewrite Hw.
Qed.

Lemma upload_car_image_partial_write (msg : string) (n : nat) :
  write_error env = Some (WriteFails msg n) →
  upload_car_image file U env w
  = (Raise (HTTPException 500 ("Failed to save file: " +:+ msg) []),
     partial n, [(FileWritten path, partial n)]).
Proof.
  intros Hw. unfold upload_car_image.
  rewrite type_accepted, size_accepted. unfold_M. by rewrite Hw.
Qed.

Lemma upload_car_with_image_open_failure (form : CarForm) (msg : string) :
  write_error env = Some (OpenFails msg) →
  files w !! path = None →
  let run := upload_car_with_image form file U env w in
  http_status (result_of run) = 500
  ∧ world_of run = w
  ∧ log_of run = []
  ∧ (is_dir env path = false →
     result_of run
     = Raise (HTTPException 500 ("Failed to create car: " +:+ msg) [])).
Proof.
  intros Hw Hfresh run. subst run. unfold upload_car_with_image.
  rewrite type_accepted, size_accepted. unfold_M. rewrite Hw.
  fold name. fold path. rewrite Hfresh.
  rewrite bool_decide_eq_false_2 by (by intros [? ?]). cbn [orb].
  destruct (is_dir env path) eqn:Hdir.
  - rewrite Hfresh, Hdir. by repeat split.
  - by repeat split.
Qed.

Lemma upload_car_with_image_partial_write
    (form : CarForm) (msg : string) (n : nat) :
  write_error env = Some (WriteFails msg n) →
  unlink_error env = None →
  files w !! path = None →
  let run := upload_car_with_image form file U env w in
  result_of run
  = Raise (HTTPException 500 ("Failed to create car: " +:+ msg) [])
  ∧ world_of run = w
  ∧ events_of run = [FileWritten path; FileUnlinked path].
Proof.
  intros Hw Hu Hfresh run. subst run. unfold upload_car_with_image.
  rewrite type_accepted, size_accepted. unfold_M. rewrite Hw.
  fold name. fold path. cbn [fst snd files set_files].
  rewrite lookup_insert_eq.
  rewrite bool_decide_eq_true_2 by (by eexists).
  cbn [orb fst snd files set_files]. rewrite lookup_insert_eq, Hu.
  cbn [fst snd fmap list_fmap app]. split; [done |]. split; [| done].
  unfold set_files. cbn [users cars files].
  rewrite delete_insert_eq, delete_id by done. by destruct w.
Qed.

Lemma update_car_with_image_open_failure
    (L : CarDB) (form : CarUpdateForm) (msg : string) :
  stored w L →
  seller_id L = Some (user_id U) →
  write_error env = Some (OpenFails msg) →
  update_car_with_image (id L) form (Some file) U env w
  = (Raise (HTTPException 500 ("Failed to save file: " +:+ msg) []), w, []).
Proof.
  intros HL Hown Hw. unfold update_car_with_image. unfold_M. rewrite HL.
  rewrite bool_decide_eq_false_2 by (intros H; by apply H).
  by rewrite type_accepted, size_accepted, Hw.
Qed.

Lemma update_car_with_image_partial_write
    (L : CarDB) (form : CarUpdateForm) (msg : string) (n : nat) :
  stored w L →
  seller_id L = Some (user_id U) →
  write_error env = Some (WriteFails msg n) →
  update_car_with_image (id L) form (Some file) U env w
  = (Raise (HTTPException 500 ("Failed to save file: " +:+ msg) []),
     partial n, [(FileWritten path, partial n)]).
Proof.
  intros HL Hown Hw. unfold update_car_with_image. unfold_M. rewrite HL.
  rewrite bool_decide_eq_false_2 by (intros H; by apply H).
  by rewrite type_accepted, size_accepted, Hw.
Qed.

(** The state after the write and the clean-up of the same fresh file. *)
Lemma written_then_unlinked :
  files w !! path = None →
  set_files (delete path (<[path := contents file]> (files w)))
    (set_files (<[path := contents file]> (files w)) w) = w.
Proof.
  intros Hfresh. unfold set_files. cbn [users cars files].
  rewrite delete_insert_eq, delete_id by done. by destruct w.
Qed.

Lemma upload_car_with_image_commit_failure (form : CarForm) (msg : string) :
  write_error env = None →
  unlink_error env = None →
  files w !! path = None →
  (commit_error env = Some msg ∧ cars w !! uuid4 env 1 = None
   ∨ is_Some (cars w !! uuid4 env 1) ∧ msg = "IntegrityError") →
  let run := upload_car_with_image form file U env w in
  result_of run
  = Raise (HTTPException 500 ("Failed to create car: " +:+ msg) [])
  ∧ world_of run = w
  ∧ events_of run = [FileWritten path; FileUnlinked path].
Proof.
  intros Hw Hu Hfresh Hwhy run. subst run.
  unfold upload_car_with_image.
  rewrite type_accepted, size_accepted. unfold_M. rewrite Hw.
  fold name. fold path. cbn [id cars set_files files].
  assert (Hex : bool_decide
                  (is_Some (<[path := contents file]> (files w) !! path))
                = true).
  { apply bool_decide_eq_true_2. rewrite lookup_insert_eq. by eexists. }
  destruct Hwhy as [[Hc Hfree] | [[c Hc] ->]].
  - rewrite Hfree, Hc. cbn [fst snd files set_files]. rewrite Hex.
    cbn [orb fst snd files set_files]. rewrite lookup_insert_eq, Hu.
    cbn [fst snd fmap list_fmap app]. fold path.
    by rewrite written_then_unlinked.
  - rewrite Hc. cbn [fst snd files set_files]. rewrite Hex.
    cbn [orb fst snd files set_files]. rewrite lookup_insert_eq, Hu.
    cbn [fst snd fmap list_fmap app]. fold path.
    by rewrite written_then_unlinked.
Qed.

Lemma update_car_with_image_commit_failure_run
    (L : CarDB) (form : CarUpdateForm) (msg : string) :
  stored w L →
  seller_id L = Some (user_id U) →
  write_error env = None →
  unlink_error env = None →
  commit_error env = Some msg →
  files w !! path = None →
  let run := update_car_with_image (id L) form (Some file) U env w in
  result_of run
  = Raise (HTTPException 500 ("Failed to update car: " +:+ msg) [])
  ∧ world_of run = w
  ∧ events_of run = [FileWritten path; FileUnlinked path].
Proof.
  intros HL Hown Hw Hu Hc Hfresh run. subst run.
  unfold update_car_with_image. unfold_M. rewrite HL.
  rewrite bool_decide_eq_false_2 by (intros H; by apply H).
  rewrite type_accepted, size_accepted, Hw.
  cbn [image_url old_image_path file_path fst snd]. rewrite Hc.
  fold name. fold path. cbn [fst snd files set_files].
  rewrite lookup_insert_eq.
  rewrite bool_decide_eq_true_2 by (by eexists).
  cbn [orb fst snd files set_files]. rewrite lookup_insert_eq, Hu.
  cbn [fst snd fmap list_fmap app]. by rewrite written_then_unlinked.
Qed.

End Failures.

(** X18. A failure while an accepted file is saved, the generated name
    being free.  When [open] fails, the three handlers answer 500 and
    change nothing.  When the write fails after [open] has created the
    file, nothing is committed; [upload_car_with_image] removes the file
    again, but [upload_car_image] and the owner's [update_car_with_image]
    answer 500 and leave the file, with the bytes written so far, in the
    upload directory. *)
Theorem failed_write_leaves_partial_file
    (env : Env) (w : World) (file : UploadFile) (U : UserDB)
    (form : CarForm) (L : CarDB) (update : CarUpdateForm)
    (msg : string) (written : nat) :
  type_refused file = false →
  too_large (contents file) = false →
  stored w L →
  seller_id L = Some (user_id U) →
  let path := in_upload_dir (uuid4 env 0 +:+ file_extension file) in
  files w !! path = None →
  let save := upload_car_image file U env w in
  let create := upload_car_with_image form file U env w in
  let replace := update_car_with_image (id L) update (Some file) U env w in
  let failed_to_save :=
    HTTPException 500 ("Failed to save file: " +:+ msg) [] in
  let failed_to_create :=
    HTTPException 500 ("Failed to create car: " +:+ msg) [] in
  (write_error env = Some (OpenFails msg) →
   save = (Raise failed_to_save, w, [])
   ∧ replace = (Raise failed_to_save, w, [])
   ∧ http_status (result_of create) = 500
   ∧ world_of create = w
   ∧ log_of create = []
   ∧ (is_dir env path = false → result_of create = Raise failed_to_create))
  ∧ (write_error env = Some (WriteFails msg written) →
     let partial :=
       set_files (<[path := take written (contents file)]> (files w)) w in
     save = (Raise failed_to_save, partial, [(FileWritten path, partial)])
     ∧ replace
       = (Raise failed_to_save, partial, [(FileWritten path, partial)])
     ∧ files partial !! path = Some (take written (contents file))
     ∧ cars partial = cars w
     ∧ (unlink_error env = None →
        result_of create = Raise failed_to_create
        ∧ world_of create = w
        ∧ events_of create = [FileWritten path; FileUnlinked path])).
Proof.
  intros Hty Hsize HL Hown path Hfresh save create replace failed_to_save
    failed_to_create.
  subst save create replace failed_to_save failed_to_create. split.
  - intros Hw.
    split; [by apply upload_car_image_open_failure |].
    split; [by apply update_car_with_image_open_failure |].
    by apply upload_car_with_image_open_failure.
  - intros Hw partial.
    split; [by apply (upload_car_image_partial_write env w file U) |].
    split; [by apply (update_car_with_image_partial_write env w file U) |].
    split; [subst partial; cbn [files set_files];
            by rewrite lookup_insert_eq |].
    split; [done |]. intros Hu.
    by apply (upload_car_with_image_partial_write env w file U Hty Hsize
                form msg written).
Qed.

Lemma failed_write_leaves_partial_file_witness :
  let env :=
    Fixture.broken None (Some (WriteFails "No space left on device" 2)) in
  let save := upload_car_image Sample.photo Sample.alice env Sample.world in
  let replace :=
    update_car_with_image "car-1" Sample.no_fields (Some Sample.photo)
      Sample.alice env Sample.world in
  result_of save
  = Raise (HTTPException 500
             "Failed to save file: No space left on device" [])
  ∧ files (world_of save) !! "uploads/6f1c.png" = Some [Byte.xff; Byte.xd8]
  ∧ world_of replace = world_of save
  ∧ cars (world_of replace) !! "car-1" = Some Sample.camry
  ∧ world_of (upload_car_with_image Sample.sedan Sample.photo Sample.alice
                env Sample.world) = Sample.world.
Proof.
  intros env save replace.
  destruct (failed_write_leaves_partial_file env Sample.world Sample.photo
              Sample.alice Sample.sedan Sample.camry Sample.no_fields
              "No space left on device" 2) as [_ H];
    [reflexivity | reflexivity | reflexivity | reflexivity | reflexivity |].
  destruct (H eq_refl) as (H1 & H2 & _ & _ & H5).
  destruct (H5 eq_refl) as (_ & H6 & _).
  refine (conj (f_equal result_of H1) (conj _ (conj _ (conj _ H6)))).
  - exact (f_equal (fun r => files (world_of r) !! "uploads/6f1c.png") H1).
  - exact (eq_trans (f_equal world_of H2) (eq_sym (f_equal world_of H1))).
  - exact (f_equal (fun r => cars (world_of r) !! "car-1") H2).
Defined.

(** X19. When [upload_car_with_image] has written its file under a free
    name and the insert then fails, by a failing commit or because the
    generated car id is taken, the handler removes the file again: the
    answer is 500 and the state is the one before the request. *)
Theorem failed_create_removes_its_file
    (env : Env) (w : World) (file : UploadFile) (U : UserDB)
    (form : CarForm) (msg : string) :
  type_refused file = false →
  too_large (contents file) = false →
  write_error env = None →
  unlink_error env = None →
  let path := in_upload_dir (uuid4 env 0 +:+ file_extension file) in
  files w !! path = None →
  (commit_error env = Some msg ∧ cars w !! uuid4 env 1 = None
   ∨ is_Some (cars w !! uuid4 env 1) ∧ msg = "IntegrityError") →
  let run := upload_car_with_image form file U env w in
  result_of run
  = Raise (HTTPException 500 ("Failed to create car: " +:+ msg) [])
  ∧ world_of run = w
  ∧ events_of run = [FileWritten path; FileUnlinked path].
Proof.
  intros Hty Hsize Hw Hu path Hfresh Hwhy.
  by apply upload_car_with_image_commit_failure.
Qed.

Lemma failed_create_removes_its_file_witness :
  let run :=
    upload_car_with_image Sample.sedan Sample.photo Sample.bob
      (Fixture.broken (Some "connection lost") None) Sample.world in
  result_of run
  = Raise (HTTPException 500 "Failed to create car: connection lost" [])
  ∧ world_of run = Sample.world
  ∧ events_of run
    = [FileWritten "uploads/6f1c.png"; FileUnlinked "uploads/6f1c.png"].
Proof.
  apply (failed_create_removes_its_file
           (Fixture.broken (Some "connection lost") None) Sample.world
           Sample.photo Sample.bob Sample.sedan "connection lost");
    try reflexivity.
  left. by split.
Defined.


(** X20. When the commit of the owner's [update_car_with_image] fails after
    the new file was written under a free name, the new file is removed
    again and the answer is 500: the state is the one before the request,
    so the listing keeps its old image and the old file is still there. *)
Theorem failed_commit_keeps_old_image
    (env : Env) (w : World) (L : CarDB) (U : UserDB)
    (form : CarUpdateForm) (file : UploadFile) (msg : string) :
  stored w L →
  seller_id L = Some (user_id U) →
  type_refused file = false →
  too_large (contents file) = false →
  write_error env = None →
  unlink_error env = None →
  commit_error env = Some msg →
  let path := in_upload_dir (uuid4 env 0 +:+ file_extension file) in
  files w !! path = None →
  let run := update_car_with_image (id L) form (Some file) U env w in
  result_of run
  = Raise (HTTPException 500 ("Failed to update car: " +:+ msg) [])
  ∧ world_of run = w
  ∧ events_of run = [FileWritten path; FileUnlinked path].
Proof.
  intros HL Hown Hty Hsize Hw Hu Hc path Hfresh.
  by apply update_car_with_image_commit_failure_run.
Qed.

Lemma failed_commit_keeps_old_image_witness :
  let run :=
    update_car_with_image "car-1" Sample.no_fields (Some Sample.photo)
      Sample.alice (Fixture.broken (Some "connection lost") None)
      Sample.world in
  result_of run
  = Raise (HTTPException 500 "Failed to update car: connection lost" [])
  ∧ world_of run = Sample.world
  ∧ events_of run
    = [FileWritten "uploads/6f1c.png"; FileUnlinked "uploads/6f1c.png"].
Proof.
  apply (failed_commit_keeps_old_image
           (Fixture.broken (Some "connection lost") None) Sample.world
           Sample.camry Sample.alice Sample.no_fields Sample.photo
           "connection lost"); reflexivity.
Defined.





Lemma upload_car_with_image_run
    (env : Env) (w : World) (form : CarForm) (file : UploadFile)
    (U : UserDB) :
  type_refused file = false →
  too_large (contents file) = false →
  write_error env = None →
  commit_error env = None →
  cars w !! uuid4 env 1 = None →
  let name := uuid4 env 0 +:+ file_extension file in
  let row :=
    {| id := uuid4 env 1; make := Some (cf_make form);
       model := Some (cf_model form); year := Some (cf_year form);
       price := Some (cf_price form); mileage := Some (cf_mileage form);
       description := cf_description form; color := Some (cf_color form);
       fuel_type := Some (cf_fuel_type form);
       transmission := Some (cf_transmission form);
       image := Some ("/uploads/" +:+ name);
       seller_id := Some (user_id U);
       created_at := Some (utcnow env); is_sold := Some false |} in
  let w1 := set_files (<[in_upload_dir name := contents file]> (files w)) w in
  world_of (upload_car_with_image form file U env w)
  = set_cars (<[uuid4 env 1 := row]> (cars w1)) w1
  ∧ http_status (result_of (upload_car_with_image form file U env w)) = 200.
Proof.
  intros Hty Hsize Hw Hc Hfree name row w1.
  unfold upload_car_with_image. rewrite Hty, Hsize. unfold_M.
  rewrite Hw. simpl. by rewrite Hfree, Hc.
Qed.

Lemma validate_updated_form
    (form : CarUpdateForm) (url : string) (c : CarDB) (r : Car) :
  validate_Car c = Some r →
  is_Some (validate_Car (updated_form form (Some url) c)).
Proof.
  unfold validate_Car. intros H.
  repeat (apply bind_Some in H as (? & ? & H)).
  destruct c; simplify_eq/=.
  destruct form as [[] [] [] [] [] [] [] [] [] []]; by eexists.
Qed.

(** X22. A listing created by [upload_car_with_image] and then given a new
    image by its seller through [update_car_with_image] is left with one
    file: the path the update computes from the stored URL is the path the
    upload wrote, so the effects are the write of the new file, the commit,
    and the removal of the uploaded file; the listing references the new
    file, which exists, and every other file is as before the upload. *)
Theorem replacing_an_uploaded_image_leaves_one_file
    (env env' : Env) (w : World) (U : UserDB)
    (form : CarForm) (file : UploadFile)
    (update : CarUpdateForm) (file' : UploadFile) :
  type_refused file = false →
  too_large (contents file) = false →
  no_failure env →
  cars w !! uuid4 env 1 = None →
  free_of "/" (uuid4 env 0) = true →
  type_refused file' = false →
  too_large (contents file') = false →
  no_failure env' →
  let old_path := in_upload_dir (uuid4 env 0 +:+ file_extension file) in
  let new_name := uuid4 env' 0 +:+ file_extension file' in
  let new_path := in_upload_dir new_name in
  new_path ≠ old_path →
  let w1 := world_of (upload_car_with_image form file U env w) in
  let run :=
    update_car_with_image (uuid4 env 1) update (Some file') U env' w1 in
  http_status (result_of run) = 200
  ∧ (∃ row, events_of run
            = [FileWritten new_path; CarUpdated row; FileUnlinked old_path])
  ∧ (image <$> cars (world_of run) !! uuid4 env 1)
    = Some (Some ("/uploads/" +:+ new_name))
  ∧ files (world_of run) !! new_path = Some (contents file')
  ∧ files (world_of run) !! old_path = None
  ∧ ∀ p, p ≠ old_path → p ≠ new_path →
         files (world_of run) !! p = files w !! p.
Proof.
  intros Hty Hsize (Hc & Hw & Hu) Hfree Huuid Hty' Hsize' Hnormal'
    old_path new_name new_path Hne w1 run.
  destruct (upload_car_with_image_run env w form file U Hty Hsize Hw Hc Hfree)
    as [Hw1 _].
  subst w1 run. rewrite Hw1. clear Hw1.
  subst old_path new_path new_name.
  set (old_path := in_upload_dir (uuid4 env 0 +:+ file_extension file)) in *.
  set (new_name := uuid4 env' 0 +:+ file_extension file') in *.
  set (new_path := in_upload_dir new_name) in *.
  match goal with
  | |- context [<[uuid4 env 1 := ?r]> _] => set (row := r)
  end.
  set (w0 := set_files (<[old_path := contents file]> (files w)) w).
  set (w1 := set_cars (<[uuid4 env 1 := row]> (cars w0)) w0).
  assert (Hstored : stored w1 row).
  { unfold stored. cbn [id row cars set_cars w1]. by rewrite lookup_insert_eq. }
  assert (Hvalid : is_Some (validate_Car
                              (updated_form update
                                 (Some ("/uploads/" +:+ new_name)) row))).
  { by apply (validate_updated_form _ _ row
                {| car_id := uuid4 env 1; car_make := cf_make form;
                   car_model := cf_model form; car_year := cf_year form;
                   car_price := cf_price form;
                   car_mileage := cf_mileage form;
                   car_description := cf_description form;
                   car_color := cf_color form;
                   car_fuel_type := cf_fuel_type form;
                   car_transmission := cf_transmission form;
                   car_seller_id := user_id U;
                   car_created_at := utcnow env;
                   car_image := "/uploads/"
                                +:+ (uuid4 env 0 +:+ file_extension file);
                   car_is_sold := false |}). }
  destruct Hvalid as [r Hr].
  assert (Hold : old_image_path_of row = Some old_path).
  { unfold old_path.
    rewrite in_upload_dir_relative by (by apply unique_filename_single).
    apply url_of_upload_resolves; [by apply unique_filename_single | done]. }
  assert (Hthere : files w1 !! old_path = Some (contents file)).
  { cbn [files set_cars set_files w1 w0]. by rewrite lookup_insert_eq. }
  assert (Hfresh : old_image_path_of row ≠ Some new_path).
  { rewrite Hold. intros [= Heq]. by apply Hne. }
  assert (Hdir : old_image_is_dir env' w1 row = false).
  { unfold old_image_is_dir. rewrite Hold, Hthere.
    by rewrite bool_decide_eq_false_2. }
  change (uuid4 env 1) with (id row).
  rewrite (update_car_with_image_committed env' w1 row U update file'
             Hstored eq_refl Hty' Hsize' Hnormal' Hfresh Hdir).
  fold new_name. fold new_path. rewrite Hr, Hold, Hthere.
  rewrite bool_decide_eq_true_2 by eauto. unfold_M.
  cbn [fmap list_fmap fst snd files cars set_cars set_files w1 w0].
  assert (Hne' : old_path ≠ new_path) by done.
  split; [done |]. split; [by eexists |]. split.
  { rewrite lookup_insert_eq. by destruct update. }
  split. { by rewrite lookup_delete_ne, lookup_insert_eq. }
  split. { by rewrite lookup_delete_eq. }
  intros p Hp1 Hp2. by rewrite lookup_delete_ne, !lookup_insert_ne.
Qed.

Lemma replacing_an_uploaded_image_leaves_one_file_witness :
  let w1 :=
    world_of (upload_car_with_image Sample.sedan Sample.photo Sample.bob
                Sample.env Sample.world) in
  let run :=
    update_car_with_image "9a2e" Sample.no_fields (Some Sample.photo)
      Sample.bob Sample.later w1 in
  http_status (result_of run) = 200
  ∧ files (world_of run) !! "uploads/b7d0.png" = Some Sample.jpeg_bytes
  ∧ files (world_of run) !! "uploads/6f1c.png" = None
  ∧ files (world_of run) !! "uploads/old.jpg" = Some Sample.jpeg_bytes.
Proof.
  intros w1 run.
  destruct (replacing_an_uploaded_image_leaves_one_file Sample.env
              Sample.later Sample.world Sample.bob Sample.sedan Sample.photo
              Sample.no_fields Sample.photo)
    as (H1 & _ & _ & H4 & H5 & H6);
    [reflexivity | reflexivity | by repeat split | reflexivity | reflexivity
    | reflexivity | reflexivity | by repeat split | discriminate |].
  refine (conj H1 (conj H4 (conj H5 _))).
  transitivity (files Sample.world !! "uploads/old.jpg");
    [apply H6; discriminate | reflexivity].
Defined.



(** ** What a request may change *)

Section SpecRules.

Context {A B : Type} (I : Tables).

Lemma spec_ret (P : Tables) (a : A) (Q : A → Tables) :
  (∀ us cs, P us cs → Q a us cs) → spec I P (mret a) Q.
Proof. intros H env w Hw. by apply H. Qed.

Lemma spec_raise (P : Tables) (e : exn) (Q : A → Tables) :
  entails P I → spec I P (raise e) Q.
Proof. intros H env w Hw. by apply H. Qed.

Lemma spec_bind (P : Tables) (m : M A) (f : A → M B)
    (Q : A → Tables) (R : B → Tables) :
  spec I P m Q → (∀ a, spec I (Q a) (f a) R) → spec I P (m ≫= f) R.
Proof.
  intros Hm Hf env w Hw. specialize (Hm env w Hw). revert Hm. unfold_M.
  destruct (m env w) as [[[a|e] w1] l1]; cbn [fst snd]; intros Ha; [| done].
  specialize (Hf a env w1 Ha). revert Hf. unfold_M.
  by destruct (f a env w1) as [[? ?] ?].
Qed.

Lemma spec_try (P : Tables) (body : M A) (h : exn → M A) (Q : A → Tables) :
  spec I P body Q → (∀ e, spec I I (h e) Q) → spec I P (try_except body h) Q.
Proof.
  intros Hm Hh env w Hw. specialize (Hm env w Hw). revert Hm. unfold_M.
  destruct (body env w) as [[[a|e] w1] l1]; cbn [fst snd]; intros Ha; [done |].
  specialize (Hh e env w1 Ha). revert Hh. unfold_M.
  by destruct (h e env w1) as [[? ?] ?].
Qed.

Lemma spec_post (P : Tables) (m : M A) (Q Q' : A → Tables) :
  spec I P m Q → (∀ a us cs, Q a us cs → Q' a us cs) → spec I P m Q'.
Proof.
  intros Hm HQ env w Hw. specialize (Hm env w Hw).
  destruct (result_of (m env w)); [by apply HQ | done].
Qed.

Lemma spec_pre (P P' : Tables) (m : M A) (Q : A → Tables) :
  spec I P m Q → entails P' P → spec I P' m Q.
Proof. intros Hm HP env w Hw. by apply Hm, HP. Qed.

End SpecRules.

Section SpecPrimitives.

Context (I P : Tables).

Lemma spec_ask : spec I P ask (fun _ => P).
Proof. by intros env w Hw. Qed.

Lemma spec_uuid4_str n : spec I P (uuid4_str n) (fun _ => P).
Proof. by intros env w Hw. Qed.

Lemma spec_path_exists p : spec I P (path_exists p) (fun _ => P).
Proof. by intros env w Hw. Qed.

Lemma spec_query_user e :
  spec I P (query_user_by_email e)
    (fun r us cs => P us cs
                    ∧ r = List.find (fun u => String.eqb (email u) e) us).
Proof. by intros env w Hw. Qed.

Lemma spec_query_car k :
  spec I P (query_car_by_id k) (fun r us cs => P us cs ∧ r = cs !! k).
Proof. by intros env w Hw. Qed.

Lemma spec_Car_of c : entails P I → spec I P (Car_of c) (fun _ => P).
Proof.
  intros HI env w Hw. unfold Car_of.
  destruct (validate_Car c); [done | by apply HI].
Qed.

Lemma spec_jwt_decode t k algs :
  entails P I → spec I P (jwt_decode t k algs) (fun _ => P).
Proof.
  intros HI env w Hw. unfold jwt_decode. unfold_M.
  repeat case_match; simplify_eq/=; first [done | by apply HI].
Qed.

Lemma spec_write_file p data :
  entails P I → spec I P (write_file p data) (fun _ => P).
Proof.
  intros HI env w Hw. unfold write_file. unfold_M.
  destruct (write_error env) as [[msg|msg n]|]; [by apply HI .. | done].
Qed.

Lemma spec_unlink p : entails P I → spec I P (unlink p) (fun _ => P).
Proof.
  intros HI env w Hw. unfold unlink. unfold_M.
  destruct (files w !! p); [| destruct (is_dir env p); by apply HI].
  destruct (unlink_error env); [by apply HI | done].
Qed.

Lemma spec_commit_car c :
  entails P I →
  spec I P (commit_car c)
    (fun _ us cs => ∃ cs0, P us cs0 ∧ cs = <[id c := c]> cs0).
Proof.
  intros HI env w Hw. unfold commit_car. unfold_M.
  destruct (commit_error env); [by apply HI |]. cbn. by eexists.
Qed.

Lemma spec_delete_row c :
  entails P I →
  spec I P (delete_row c)
    (fun _ us cs => ∃ cs0, P us cs0 ∧ cs = delete (id c) cs0).
Proof.
  intros HI env w Hw. unfold delete_row. unfold_M.
  destruct (commit_error env); [by apply HI |]. cbn. by eexists.
Qed.

Lemma spec_add_car c :
  entails P I →
  spec I P (add_car c)
    (fun row us cs =>
       ∃ cs0, P us cs0 ∧ cs0 !! id c = None ∧ cs = <[id c := row]> cs0
              ∧ id row = id c ∧ seller_id row = seller_id c).
Proof.
  intros HI env w Hw. unfold add_car. unfold_M.
  destruct (cars w !! id c) eqn:Hc; [by apply HI |].
  destruct (commit_error env); [by apply HI |]. cbn. by eexists.
Qed.

Lemma spec_add_user u :
  entails P I →
  spec I P (add_user u)
    (fun row us cs =>
       ∃ us0, P us0 cs ∧ us = (us0 ++ [row])%list
              ∧ violates_unique row us0 = false).
Proof.
  intros HI env w Hw. unfold add_user. unfold_M.
  destruct (violates_unique _ _) eqn:Hv; [by apply HI |].
  destruct (commit_error env); [by apply HI |]. cbn. by eexists.
Qed.

End SpecPrimitives.

(** A primitive, in the middle of a handler or at its end. *)
Ltac spec_prim lem :=
  first [ eapply lem | eapply spec_post; [eapply lem |] ].

(** One step along the structure of a handler. *)
Ltac spec_step :=
  lazymatch goal with
  | |- spec _ _ (mret _) _ => apply spec_ret
  | |- spec _ _ (ret _) _ => apply spec_ret
  | |- spec _ _ (raise _) _ => apply spec_raise
  | |- spec ?I ?P (?m ≫= _) _ =>
      lazymatch m with
      | match _ with _ => _ end =>
          eapply (spec_bind I P _ _ (fun _ => P)); [| intros ?]
      | _ => eapply spec_bind; [| intros ?]
      end
  | |- spec _ _ (try_except _ _) _ => apply spec_try; [| intros ?]
  | |- spec _ _ (when_ ?b _) _ => destruct b; unfold when_
  | |- spec _ _ (if ?b then _ else _) _ => destruct b eqn:?
  | |- spec _ _ (match ?x with _ => _ end) _ => destruct x eqn:?
  | |- spec _ _ ask _ => spec_prim spec_ask
  | |- spec _ _ (uuid4_str _) _ => spec_prim spec_uuid4_str
  | |- spec _ _ (path_exists _) _ => spec_prim spec_path_exists
  | |- spec _ _ (query_user_by_email _) _ => spec_prim spec_query_user
  | |- spec _ _ (query_car_by_id _) _ => spec_prim spec_query_car
  | |- spec _ _ (Car_of _) _ => spec_prim spec_Car_of
  | |- spec _ _ (jwt_decode _ _ _) _ => spec_prim spec_jwt_decode
  | |- spec _ _ (write_file _ _) _ => spec_prim spec_write_file
  | |- spec _ _ (unlink _) _ => spec_prim spec_unlink
  | |- spec _ _ (commit_car _) _ => spec_prim spec_commit_car
  | |- spec _ _ (delete_row _) _ => spec_prim spec_delete_row
  | |- spec _ _ (add_car _) _ => spec_prim spec_add_car
  | |- spec _ _ (add_user _) _ => spec_prim spec_add_user
  end.

(** The facts a precondition carries, brought into the context. *)
Ltac spec_facts :=
  unfold entails; intros;
  repeat match goal with
         | H : _ ∧ _ |- _ => destruct H
         | H : ∃ _, _ |- _ => destruct H
         | H : bool_decide _ = false |- _ =>
             apply bool_decide_eq_false_1, dec_stable in H
         end;
  simplify_eq/=.

(** From a specification to the run. *)
Lemma spec_run {A} (I P : Tables) (m : M A) (env : Env) (w : World) :
  spec I P m (fun _ => I) →
  P (users w) (cars w) →
  I (users (world_of (m env w))) (cars (world_of (m env w))).
Proof.
  intros Hm Hw. specialize (Hm env w Hw).
  by destruct (result_of (m env w)).
Qed.

Lemma update_car_frame
    (car_id : string) (u : CarUpdate) (U : UserDB) (env : Env) (w : World) :
  changes_only_own U car_id w (world_of (update_car car_id u U env w)).
Proof.
  set (I := fun us cs =>
              changes_only_own U car_id w
                {| users := us; cars := cs; files := ∅ |}).
  apply (spec_run I (fun us cs => us = users w ∧ cs = cars w));
    [| done].
  unfold update_car, car_not_found, not_authorized_update.
  repeat spec_step; spec_facts; subst I; unfold changes_only_own;
    cbn [users cars]; try (split; [done | by left]).
  all: rewrite update_loop; split; [done |]; right; eexists;
    split; [done |]; split; [done |]; left; by eexists.
Qed.

Lemma delete_car_frame
    (car_id : string) (U : UserDB) (env : Env) (w : World) :
  changes_only_own U car_id w (world_of (delete_car car_id U env w)).
Proof.
  set (I := fun us cs =>
              changes_only_own U car_id w
                {| users := us; cars := cs; files := ∅ |}).
  apply (spec_run I (fun us cs => us = users w ∧ cs = cars w));
    [| done].
  unfold delete_car, car_not_found.
  repeat spec_step; spec_facts; subst I; unfold changes_only_own;
    cbn [users cars]; try (split; [done | by left]).
  all: split; [done |]; right; eexists; split; [done |]; split; [done |];
    by right.
Qed.

Lemma update_car_with_image_frame
    (car_id : string) (form : CarUpdateForm) (file : option UploadFile)
    (U : UserDB) (env : Env) (w : World) :
  changes_only_own U car_id w
    (world_of (update_car_with_image car_id form file U env w)).
Proof.
  set (I := fun us cs =>
              changes_only_own U car_id w
                {| users := us; cars := cs; files := ∅ |}).
  apply (spec_run I (fun us cs => us = users w ∧ cs = cars w));
    [| done].
  unfold update_car_with_image, car_not_found, not_authorized_update,
    invalid_file_type, file_too_large.
  repeat spec_step; spec_facts; subst I; unfold changes_only_own;
    cbn [users cars]; try done; try (split; [done | by left]);
    try (by eexists).
  all: rewrite update_form_loop; split; [done |]; right; eexists;
    split; [done |]; split; [done |]; left; by eexists.
Qed.

Lemma create_car_frame
    (car : CarCreate) (U : UserDB) (env : Env) (w : World) :
  adds_own U w (world_of (create_car car U env w)).
Proof.
  set (I := fun us cs =>
              adds_own U w {| users := us; cars := cs; files := ∅ |}).
  apply (spec_run I (fun us cs => us = users w ∧ cs = cars w));
    [| done].
  unfold create_car.
  repeat spec_step; spec_facts; subst I; unfold adds_own;
    cbn [users cars] in *; try done; try (split; [done | by left]);
    try (by eexists).
  all: split; [done |]; right; by eexists.
Qed.

Lemma upload_car_with_image_frame
    (form : CarForm) (file : UploadFile) (U : UserDB) (env : Env)
    (w : World) :
  adds_own U w (world_of (upload_car_with_image form file U env w)).
Proof.
  set (I := fun us cs =>
              adds_own U w {| users := us; cars := cs; files := ∅ |}).
  apply (spec_run I (fun us cs => us = users w ∧ cs = cars w));
    [| done].
  unfold upload_car_with_image, invalid_file_type, file_too_large.
  repeat spec_step; spec_facts; subst I; unfold adds_own;
    cbn [users cars] in *; try done; try (split; [done | by left]);
    try (by eexists).
  all: split; [done |]; right; by eexists.
Qed.

Lemma upload_car_image_frame
    (file : UploadFile) (U : UserDB) (env : Env) (w : World) :
  same_tables w (world_of (upload_car_image file U env w)).
Proof.
  set (I := fun us cs => us = users w ∧ cs = cars w).
  apply (spec_run I I); [| done].
  unfold upload_car_image, invalid_file_type, file_too_large.
  repeat spec_step; spec_facts; by subst I.
Qed.

Lemma delete_car_image_frame
    (filename : string) (U : UserDB) (env : Env) (w : World) :
  same_tables w (world_of (delete_car_image filename U env w)).
Proof.
  set (I := fun us cs => us = users w ∧ cs = cars w).
  apply (spec_run I I); [| done].
  unfold delete_car_image.
  repeat spec_step; spec_facts; by subst I.
Qed.

Lemma register_frame (user : UserCreate) (env : Env) (w : World) :
  adds_user w (world_of (register user env w)).
Proof.
  set (I := fun us cs =>
              adds_user w {| users := us; cars := cs; files := ∅ |}).
  apply (spec_run I (fun us cs => us = users w ∧ cs = cars w));
    [| done].
  unfold register.
  repeat spec_step; spec_facts; subst I; unfold adds_user;
    cbn [users cars] in *; try done; try (split; [done | by left]);
    try (by eexists).
  all: split; [done |]; right; by eexists.
Qed.

Lemma post_register_frame (body : UserCreate) (env : Env) (w : World) :
  adds_user w (world_of (post_register body env w)).
Proof.
  unfold post_register, UserCreate_validate. unfold_M.
  destruct (email_validator env (uc_email body)) as [address|].
  - pose proof (register_frame
                  {| uc_username := uc_username body; uc_email := address;
                     uc_password := uc_password body;
                     uc_confirmed_password := uc_confirmed_password body |}
                  env w) as H.
    revert H. unfold_M. by destruct (register _ env w) as [[? ?] ?].
  - split; [done | by left].
Qed.

(** The user a token resolves to is a registered user, and resolving a
    token changes nothing. *)
Lemma get_current_user_cases (cred : Jwt) (env : Env) (w : World) :
  ∃ r, get_current_user cred env w = (r, w, [])
       ∧ ∀ u, r = Return u → u ∈ users w.
Proof.
  unfold get_current_user, verify_token. unfold_M.
  destruct (jwt_decode_cases env w cred)
    as [(_ & alg & p & _ & ->) | [(_ & ->) | (_ & what & ->)]];
    repeat (case_match; simplify_eq/=); eexists; (split; [done |]);
    intros u' Hu; simplify_eq.
  match goal with
  | H : List.find _ _ = Some _ |- _ => apply find_some in H as [Hin _]
  end.
  by apply list_elem_of_In.
Qed.

Lemma authenticated_frame {A} (R : World → World → Prop)
    (cred : Jwt) (h : UserDB → M A) (env : Env) (w : World) :
  R w w →
  (∀ u, get_current_user cred env w = (Return u, w, []) →
        u ∈ users w → R w (world_of (h u env w))) →
  R w (world_of (authenticated cred h env w)).
Proof.
  intros Hrefl Hh. unfold authenticated. unfold_M.
  destruct (get_current_user_cases cred env w) as (r & Hr & Hin).
  rewrite Hr. destruct r as [u|e]; [| done].
  specialize (Hh u Hr (Hin u eq_refl)).
  revert Hh. unfold_M. by destruct (h u env w) as [[? ?] ?].
Qed.

(** X23. A request changes or removes an existing listing only when it is
    [update_car], [update_car_with_image] or [delete_car] on that
    listing's id, with a token that [get_current_user] resolves to the
    listing's seller.  Registering, creating a car, uploading or deleting
    an image, a request without a valid token and a request by another
    user all leave the row as it is, whatever the clock, the UUIDs and the
    failures of the database and the disk. *)
Theorem listings_change_only_by_their_seller
    (req : Request) (env : Env) (w : World) (k : string) (c : CarDB) :
  keyed w →
  cars w !! k = Some c →
  cars (handle req env w) !! k ≠ Some c →
  ∃ cred u,
    addresses req cred k
    ∧ get_current_user cred env w = (Return u, w, [])
    ∧ seller_id c = Some (user_id u).
Proof.
  intros Hkeyed Hc Hchanged.
  set (R := fun (w0 w' : World) =>
              cars w' !! k ≠ Some c →
              ∃ cred u,
                addresses req cred k
                ∧ get_current_user cred env w = (Return u, w, [])
                ∧ seller_id c = Some (user_id u)).
  assert (Hown : ∀ cred car_id u w',
            addresses req cred car_id →
            get_current_user cred env w = (Return u, w, []) →
            changes_only_own u car_id w w' → R w w').
  { intros cred car_id u w' Haddr Hu [_ Hcars] Hne.
    destruct Hcars as [Hsame | (L & HL & Hseller & Hnew)];
      [by rewrite Hsame in Hne |].
    pose proof (Hkeyed _ _ HL) as Hid.
    destruct (decide (k = car_id)) as [-> | Hk].
    - assert (L = c) as -> by congruence. by exists cred, u.
    - destruct Hnew as [(L' & Hnew & _) | Hnew]; rewrite Hnew in Hne.
      + rewrite lookup_insert_ne in Hne by congruence. done.
      + rewrite lookup_delete_ne in Hne by congruence. done. }
  assert (Hadd : ∀ u w', adds_own u w w' → R w w').
  { intros u w' [_ Hcars] Hne.
    destruct Hcars as [Hsame | (row & Hfree & _ & Hnew)];
      rewrite ?Hsame, ?Hnew in Hne; [done |].
    rewrite lookup_insert_ne in Hne by congruence. done. }
  assert (Hsame : ∀ w', cars w' = cars w → R w w').
  { intros w' Hcars Hne. by rewrite Hcars in Hne. }
  assert (Hrefl : R w w) by (by intros Hne).
  revert Hchanged. fold (R w (handle req env w)). clearbody R.
  destruct req as [user | cred car | cred form file | cred key upd
                  | cred key form file | cred key | cred file | cred name];
    cbn [handle].
  - apply Hsame. by destruct (post_register_frame user env w) as [Hcars _].
  - apply authenticated_frame; [done |]. intros u _ _.
    eapply Hadd, create_car_frame.
  - apply authenticated_frame; [done |]. intros u _ _.
    eapply Hadd, upload_car_with_image_frame.
  - apply authenticated_frame; [done |]. intros u Hu _.
    apply (Hown cred key u); [done | done |].
    apply update_car_frame.
  - apply authenticated_frame; [done |]. intros u Hu _.
    apply (Hown cred key u); [done | done |].
    apply update_car_with_image_frame.
  - apply authenticated_frame; [done |]. intros u Hu _.
    apply (Hown cred key u); [done | done |].
    apply delete_car_frame.
  - apply authenticated_frame; [done |]. intros u _ _.
    apply Hsame. by destruct (upload_car_image_frame file u env w).
  - apply authenticated_frame; [done |]. intros u _ _.
    apply Hsame. by destruct (delete_car_image_frame name u env w).
Qed.

Lemma listings_change_only_by_their_seller_witness :
  ∃ cred u,
    addresses (DeleteCar Fixture.alice_token "car-1") cred "car-1"
    ∧ get_current_user cred Sample.env Sample.world
      = (Return u, Sample.world, [])
    ∧ seller_id Sample.camry = Some (user_id u).
Proof.
  apply (listings_change_only_by_their_seller
           (DeleteCar Fixture.alice_token "car-1") Sample.env Sample.world
           "car-1" Sample.camry).
  - intros k c Hk. unfold Sample.world in Hk. cbn [cars] in Hk.
    by apply lookup_singleton_Some in Hk as [<- <-].
  - reflexivity.
  - vm_compute. discriminate.
Defined.

Lemma NoDup_fmap_snoc {A B} (f : A → B) (l : list A) (x : A) :
  NoDup (f <$> l) →
  (∀ y, y ∈ l → f y ≠ f x) →
  NoDup (f <$> (l ++ [x])%list).
Proof.
  intros Hl Hx. rewrite fmap_app. apply NoDup_app. split; [done |].
  split; [| apply NoDup_singleton].
  intros b Hb Hb'. apply list_elem_of_fmap in Hb as (y & -> & Hy).
  apply list_elem_of_singleton in Hb'. by apply (Hx y).
Qed.

Lemma violates_unique_false (row : UserDB) (us : list UserDB) (v : UserDB) :
  violates_unique row us = false →
  v ∈ us →
  user_id v ≠ user_id row ∧ username v ≠ username row
  ∧ email v ≠ email row.
Proof.
  unfold violates_unique. intros Hv Hin.
  assert (H : ¬ ∃ x, In x us
                ∧ ((user_id x =? user_id row) || (username x =? username row)
                   || (email x =? email row))%bool = true).
  { rewrite <- existsb_exists. by rewrite Hv. }
  repeat split; intros Heq; apply H; exists v;
    (split; [by apply list_elem_of_In |]); rewrite Heq, String.eqb_refl;
    by rewrite ?orb_true_r.
Qed.

Lemma consistent_step (req : Request) (env : Env) (w : World) :
  consistent w → consistent (handle req env w).
Proof.
  intros Hw.
  assert (Hown : ∀ u car_id w',
            changes_only_own u car_id w w' → consistent w').
  { intros u car_id w' [Hus Hcars].
    destruct Hw as (Hid & Hname & Hemail & Hrows).
    unfold consistent. rewrite Hus.
    refine (conj Hid (conj Hname (conj Hemail _))).
    destruct Hcars as [-> | (L & HL & Hseller & Hnew)]; [done |].
    destruct (Hrows _ _ HL) as [Hkey (s & Hs & Hsel)].
    destruct Hnew as [(L' & -> & HidL & HsellerL & _) | ->];
      intros k c Hk.
    - destruct (decide (id L = k)) as [<- | Hne].
      + rewrite lookup_insert_eq in Hk. injection Hk as <-.
        split; [done |]. exists s. by rewrite HsellerL.
      + rewrite lookup_insert_ne in Hk by done. by apply Hrows.
    - apply lookup_delete_Some in Hk as [_ Hk]. by apply Hrows. }
  assert (Hadd : ∀ u w', u ∈ users w → adds_own u w w' → consistent w').
  { intros u w' Hu [Hus Hcars].
    destruct Hw as (Hid & Hname & Hemail & Hrows).
    unfold consistent. rewrite Hus.
    refine (conj Hid (conj Hname (conj Hemail _))).
    destruct Hcars as [-> | (row & Hfree & Hseller & ->)]; [done |].
    intros k c Hk. destruct (decide (id row = k)) as [<- | Hne].
    - rewrite lookup_insert_eq in Hk. injection Hk as <-.
      split; [done |]. by exists u.
    - rewrite lookup_insert_ne in Hk by done. by apply Hrows. }
  assert (Hsame : ∀ w', same_tables w w' → consistent w').
  { intros w' [Hus Hcars]. unfold consistent. by rewrite Hus, Hcars. }
  destruct req as [user | cred car | cred form file | cred key upd
                  | cred key form file | cred key | cred file | cred name];
    cbn [handle].
  - destruct (post_register_frame user env w) as [Hcars Hus].
    destruct Hw as (Hid & Hname & Hemail & Hrows). unfold consistent.
    rewrite Hcars.
    destruct Hus as [-> | (row & -> & Hfresh)]; [done |].
    refine (conj _ (conj _ (conj _ _))).
    + apply NoDup_fmap_snoc; [done |]. intros v Hv.
      by destruct (violates_unique_false row _ v Hfresh Hv) as (? & ? & ?).
    + apply NoDup_fmap_snoc; [done |]. intros v Hv.
      by destruct (violates_unique_false row _ v Hfresh Hv) as (? & ? & ?).
    + apply NoDup_fmap_snoc; [done |]. intros v Hv.
      by destruct (violates_unique_false row _ v Hfresh Hv) as (? & ? & ?).
    + intros k c Hk. destruct (Hrows _ _ Hk) as [Hkey (u & Hu & Hsel)].
      split; [done |]. exists u. split; [| done].
      apply elem_of_app. by left.
  - apply (authenticated_frame (fun _ w' => consistent w')); [done |].
    intros u _ Hu. eapply Hadd, create_car_frame. done.
  - apply (authenticated_frame (fun _ w' => consistent w')); [done |].
    intros u _ Hu. eapply Hadd, upload_car_with_image_frame. done.
  - apply (authenticated_frame (fun _ w' => consistent w')); [done |].
    intros u _ _. eapply Hown, update_car_frame.
  - apply (authenticated_frame (fun _ w' => consistent w')); [done |].
    intros u _ _. eapply Hown, update_car_with_image_frame.
  - apply (authenticated_frame (fun _ w' => consistent w')); [done |].
    intros u _ _. eapply Hown, delete_car_frame.
  - apply (authenticated_frame (fun _ w' => consistent w')); [done |].
    intros u _ _. apply Hsame, upload_car_image_frame.
  - apply (authenticated_frame (fun _ w' => consistent w')); [done |].
    intros u _ _. apply Hsame, delete_car_image_frame.
Qed.

(** X24. In every state reached from the empty database by requests, under
    any clock, UUIDs and failures: no two accounts share an id, a username
    or an email; every listing is stored under its own id; and every
    listing's seller is the id of an account. *)
Theorem reachable_states_are_consistent (w : World) :
  reachable w → consistent w.
Proof.
  intros Hr. induction Hr as [|w env req Hr IH].
  - unfold consistent, initial. cbn [users cars].
    refine (conj _ (conj _ (conj _ _))); try apply NoDup_nil_2.
    intros k c Hk. by rewrite lookup_empty in Hk.
  - by apply consistent_step.
Qed.

Lemma reachable_states_are_consistent_witness :
  consistent
    (handle (CreateCar Sample.carol_token Sample.civic) Sample.later
       (handle (Register Sample.carol) Sample.env initial)).
Proof.
  apply reachable_states_are_consistent.
  apply reachable_request, reachable_request, reachable_empty.
Defined.

(** X25. No request changes or removes an account: after any request the
    accounts are those from before, in the same order, except that
    [register] may add one at the end, whose id, username and email are
    those of no earlier account. *)
Theorem accounts_are_only_added (req : Request) (env : Env) (w : World) :
  users (handle req env w) = users w
  ∨ ∃ user row,
      req = Register user
      ∧ users (handle req env w) = (users w ++ [row])%list
      ∧ ∀ v, v ∈ users w →
             user_id v ≠ user_id row ∧ username v ≠ username row
             ∧ email v ≠ email row.
Proof.
  set (R := fun (w0 w' : World) => users w' = users w0).
  assert (Hrefl : R w w) by done.
  destruct req as [user | cred car | cred form file | cred key upd
                  | cred key form file | cred key | cred file | cred name];
    cbn [handle];
    [| left; apply (authenticated_frame R); [done |]; intros u _ _ ..].
  - destruct (post_register_frame user env w)
      as [_ [Hus | (row & Hus & Hrow)]];
      [by left |].
    right. exists user, row. split; [done |]. split; [done |].
    intros v Hv. exact (violates_unique_false row (users w) v Hrow Hv).
  - by destruct (create_car_frame car u env w).
  - by destruct (upload_car_with_image_frame form file u env w).
  - by destruct (update_car_frame key upd u env w).
  - by destruct (update_car_with_image_frame key form file u env w).
  - by destruct (delete_car_frame key u env w).
  - by destruct (upload_car_image_frame file u env w).
  - by destruct (delete_car_image_frame name u env w).
Qed.

